(** * ExitWave: the monitoring / exit control loop, embedded in Rocq

    A shallow embedding of [exitwave/config.py], [exitwave/positions.py],
    [exitwave/executor.py] and [exitwave/monitor.py], and of the choice
    between the cached token and a login flow in [exitwave/auth.py].

    Conventions of the embedding:
    - Python [float] amounts (P&L, prices, thresholds, the loss ratio) are
      IEEE 754 binary64 numbers, Rocq's primitive [float]: every addition,
      division and comparison rounds and treats NaN as Python does.
    - Clock readings are exact rationals [Q], in seconds; Python [int] is
      [Z]; [str] is [string] (ASCII).
    - Every interaction with the outside world (broker calls, clock reads,
      sleeps, waits on the stop event, log lines, thread spawns) is recorded
      in a trace of events, newest first.  The broker and the clock are
      oracles that answer from the trace recorded so far.
    - Code that can raise runs in a state-and-exception monad; [try_]
      is Python's [try ... except Exception]. *)

From Stdlib Require Import ZArith QArith Qround String Ascii List Bool Lia.
From Stdlib Require Import Floats.
From stdpp Require Import gmap strings.
Import ListNotations.
Local Open Scope string_scope.
Local Open Scope list_scope.
Local Open Scope Z_scope.
Set Warnings "-inexact-float".

(* ------------------------------------------------------------------ *)
(** ** Python string primitives (ASCII) *)

Module PyStr.

Definition is_lower (c : ascii) : bool :=
  ((97 <=? nat_of_ascii c) && (nat_of_ascii c <=? 122))%nat.

Definition is_upper (c : ascii) : bool :=
  ((65 <=? nat_of_ascii c) && (nat_of_ascii c <=? 90))%nat.

Definition upper_char (c : ascii) : ascii :=
  if is_lower c then ascii_of_nat (nat_of_ascii c - 32) else c.

Definition lower_char (c : ascii) : ascii :=
  if is_upper c then ascii_of_nat (nat_of_ascii c + 32) else c.

(** [str.isspace] on one ASCII character: TAB..CR, FS..US and the space. *)
Definition is_space (c : ascii) : bool :=
  let n := nat_of_ascii c in
  (((9 <=? n) && (n <=? 13)) || ((28 <=? n) && (n <=? 32)))%nat.

Fixpoint map_chars (f : ascii -> ascii) (s : string) : string :=
  match s with
  | EmptyString => EmptyString
  | String c s' => String (f c) (map_chars f s')
  end.

(** [s.upper()] and [s.lower()]. *)
Definition upper (s : string) : string := map_chars upper_char s.
Definition lower (s : string) : string := map_chars lower_char s.

Fixpoint lstrip (s : string) : string :=
  match s with
  | EmptyString => EmptyString
  | String c s' => if is_space c then lstrip s' else s
  end.

Fixpoint rstrip (s : string) : string :=
  match s with
  | EmptyString => EmptyString
  | String c s' =>
      match rstrip s' with
      | EmptyString => if is_space c then EmptyString else String c EmptyString
      | t => String c t
      end
  end.

(** [s.strip()]. *)
Definition strip (s : string) : string := rstrip (lstrip s).

(** [s.split(sep)] for a one-character separator: never an empty list. *)
Fixpoint split (sep : ascii) (s : string) : list string :=
  match s with
  | EmptyString => [EmptyString]
  | String c s' =>
      if Ascii.eqb c sep then EmptyString :: split sep s'
      else match split sep s' with
           | [] => [String c EmptyString]
           | w :: ws => String c w :: ws
           end
  end.

(** [needle in s] on strings: substring test. *)
Fixpoint contains (needle s : string) : bool :=
  String.prefix needle s ||
  match s with
  | EmptyString => false
  | String _ s' => contains needle s'
  end.

(** [x in xs] for a list of strings ([==] on each element). *)
Definition mem (x : string) (xs : list string) : bool :=
  existsb (String.eqb x) xs.

(** Truthiness of a string: non-empty. *)
Definition truthy (s : string) : bool :=
  match s with EmptyString => false | _ => true end.

End PyStr.

(* ------------------------------------------------------------------ *)
(** ** The world: exceptions, events, oracles, and the monad *)

(** A raised exception: [type(e).__name__] and [str(e)]. *)
Record PyException := mkExc { exc_type : string; exc_str : string }.

Inductive LogLevel := INFO | WARNING | ERROR | CRITICAL.

(** One constructor per logging site of the executor and the monitor; the
    arguments are the values interpolated into the message. *)
Inductive LogMsg :=
| MsgDryRunExitOrder (symbol : string)
| MsgExitOrder (symbol order_id : string)
| MsgAttemptFailed (attempt max_retries : Z) (symbol err : string)
| MsgFailedToExit (symbol err : string)
| MsgNoPositionsToExit
| MsgExitingAll (dry_run : bool) (count : nat)
| MsgAllPlaced (successful : nat)
| MsgSomeFailed (successful failed : nat)
| MsgFailedOrder (symbol err : string)
| MsgSkipVerification
| MsgVerifying
| MsgConfirmed (symbol order_id : string)
| MsgRejected (symbol order_id reason : string)
| MsgPending (symbol order_id status : string)
| MsgCheckError (order_id err : string)
| MsgAlreadyRunning
| MsgMonitorStarted
| MsgMonitorStopped
| MsgBanner
| MsgMarketClosed
| MsgCooldown (remaining : Z)
| MsgPollError (err : string)
| MsgNoOpenPositions
| MsgBreached (pnl : float) (count : nat)
| MsgApproaching (pnl ratio : float) (count : nat)
| MsgElevated (pnl ratio : float) (count : nat)
| MsgNormal (pnl : float) (count : nat)
| MsgPositionsSummary (count : nat) (pnl : float)
| MsgInitiatingExit (exit_no : Z) (count : nat) (pnl : float)
| MsgExitingPosition (symbol : string)
| MsgExitComplete (exit_no : Z)
| MsgAuthError
| MsgWillRetry (secs : Z)
| MsgLoopEnded
| MsgSessionSummary (polls : Z) (last_pnl : option float) (peak : float)
                    (exits : Z) (tally : option (nat * nat)).

(** Arguments of [kite.place_order]. *)
Record OrderRequest := mkReq {
  req_variety : string;
  req_exchange : string;
  req_tradingsymbol : string;
  req_transaction_type : string;
  req_quantity : Z;
  req_product : string;
  req_order_type : string;
  req_validity : string;
  req_tag : string
}.

Inductive Event :=
| EvPositions                          (* kite.positions() *)
| EvPlaceOrder (req : OrderRequest)    (* kite.place_order(...) *)
| EvOrderHistory (order_id : string)   (* kite.order_history(id) *)
| EvNow (t : Q)                        (* datetime.now(IST) read t *)
| EvSleep (secs : Z)                   (* time.sleep(secs) *)
| EvWait (secs : Z)                    (* stop_event.wait(timeout=secs) blocked *)
| EvThreadStart (name : string)        (* Thread(...).start() *)
| EvThreadJoin (timeout : option Z)    (* thread.join(...) *)
| EvLog (lvl : LogLevel) (msg : LogMsg).

(** The trace, newest event first. *)
Definition Trace := list Event.

Inductive Outcome (A : Type) :=
| Ok (a : A)
| Raise (e : PyException).
Arguments Ok {A} a.
Arguments Raise {A} e.

(** State-and-exception monad; the state survives a raise, as mutation of
    a Python object does. *)
Definition M (St A : Type) : Type := St -> Outcome A * St.

Definition ret {St A} (a : A) : M St A := fun s => (Ok a, s).

Definition bind {St A B} (m : M St A) (k : A -> M St B) : M St B :=
  fun s => match m s with
           | (Ok a, s') => k a s'
           | (Raise e, s') => (Raise e, s')
           end.

Definition raise {St A} (e : PyException) : M St A := fun s => (Raise e, s).

(** [try: m  except Exception as e: ...] with the handler left to the caller. *)
Definition try_ {St A} (m : M St A) : M St (PyException + A) :=
  fun s => match m s with
           | (Ok a, s') => (Ok (inr a), s')
           | (Raise e, s') => (Ok (inl e), s')
           end.

Declare Scope monad_scope.
Delimit Scope monad_scope with monad.
Notation "x <- m ;; k" := (bind m (fun x => k))
  (at level 100, m at next level, right associativity) : monad_scope.
Notation "m >> k" := (bind m (fun _ => k))
  (at level 100, right associativity) : monad_scope.
Local Open Scope monad_scope.

Definition when {St} (b : bool) (m : M St unit) : M St unit :=
  if b then m else ret tt.

(** [for x in xs: body x], run for its effects. *)
Fixpoint for_each {St A} (xs : list A) (body : A -> M St unit) : M St unit :=
  match xs with
  | [] => ret tt
  | x :: rest => body x >> for_each rest body
  end.

Definition emit (e : Event) : M Trace unit := fun tr => (Ok tt, e :: tr).

Definition log (lvl : LogLevel) (msg : LogMsg) : M Trace unit :=
  emit (EvLog lvl msg).

Definition sleep (secs : Z) : M Trace unit := emit (EvSleep secs).

(** One entry of an order's status history (a dict with optional keys). *)
Record OrderHistoryEntry := mkEntry {
  entry_status : option string;
  entry_status_message : option string
}.

(** One element of [raw_positions["net"]]: a dict read with [.get(key, default)];
    [None] is an absent key. *)
Record RawPosition := mkRaw {
  raw_tradingsymbol : option string;
  raw_exchange : option string;
  raw_instrument_token : option Z;
  raw_product : option string;
  raw_quantity : option Z;
  raw_average_price : option float;
  raw_last_price : option float;
  raw_pnl : option float;
  raw_m2m : option float;
  raw_buy_quantity : option Z;
  raw_sell_quantity : option Z;
  raw_buy_price : option float;
  raw_sell_price : option float
}.

(** The dict returned by [kite.positions()]; only the ["net"] key is read. *)
Record RawPositions := mkRawPositions { raw_net : option (list RawPosition) }.

(** The broker client.  Each oracle sees the trace recorded before the call
    and either returns or raises. *)
Record KiteConnect := mkKite {
  kite_positions : Trace -> PyException + RawPositions;
  kite_place_order : Trace -> OrderRequest -> PyException + string;
  kite_order_history : Trace -> string -> PyException + list OrderHistoryEntry
}.

Definition of_sum {A} (r : PyException + A) : Outcome A :=
  match r with inl e => Raise e | inr a => Ok a end.

Definition call_positions (kite : KiteConnect) : M Trace RawPositions :=
  fun tr => (of_sum (kite_positions kite tr), EvPositions :: tr).

Definition call_place_order (kite : KiteConnect) (req : OrderRequest)
  : M Trace string :=
  fun tr => (of_sum (kite_place_order kite tr req), EvPlaceOrder req :: tr).

Definition call_order_history (kite : KiteConnect) (order_id : string)
  : M Trace (list OrderHistoryEntry) :=
  fun tr => (of_sum (kite_order_history kite tr order_id),
             EvOrderHistory order_id :: tr).

(** Number of calls to the broker order interface recorded in a trace. *)
Definition is_place_order (e : Event) : bool :=
  match e with EvPlaceOrder _ => true | _ => false end.

Definition is_order_history (e : Event) : bool :=
  match e with EvOrderHistory _ => true | _ => false end.

Definition is_positions (e : Event) : bool :=
  match e with EvPositions => true | _ => false end.

Definition is_broker_call (e : Event) : bool :=
  is_place_order e || is_order_history e || is_positions e.

Definition count_events (p : Event -> bool) (tr : Trace) : nat :=
  length (List.filter p tr).

(* ------------------------------------------------------------------ *)
(** ** config.py *)

Module Config.

(** [ExitWaveConfig], the fields the control loop reads. *)
Record ExitWaveConfig := mkConfig {
  max_loss : float;
  poll_interval : Z;
  market_close : string;
  exchanges : list string;
  dry_run : bool
}.

(** [build_config]: [[e.strip().upper() for e in cli.exchanges.split(",")]]. *)
Definition build_exchanges (cli_exchanges : string) : list string :=
  map (fun e => PyStr.upper (PyStr.strip e)) (PyStr.split "," cli_exchanges).

Record KiteCredentials := mkCredentials {
  api_key : string;
  api_secret : string;
  access_token : string
}.

(** The namespace [parse_cli_args] returns. *)
Record CliArgs := mkCli {
  cli_max_loss : float;
  cli_poll_interval : Z;
  cli_market_close : string;
  cli_exchanges : string;
  cli_dry_run : bool;
  cli_login : bool;
  cli_manual_login : bool;
  cli_redirect_port : Z
}.

(** What [build_config] returns: the fields the control loop reads, and the
    credentials and login settings that go to the authentication step. *)
Record BuiltConfig := mkBuilt {
  core : ExitWaveConfig;
  credentials : KiteCredentials;
  force_login : bool;
  manual_login : bool;
  redirect_port : Z
}.

(** Why [build_config] ended the process with [sys.exit(1)]. *)
Inductive ConfigError := MissingCredentials | NonPositiveMaxLoss.

(** [build_config] once the command line is parsed and the [.env] file
    is loaded.  The test [cli.max_loss <= 0] is a float comparison: it is
    false for NaN, which [--max-loss nan] produces. *)
Definition build_config (cli : CliArgs) (creds : KiteCredentials)
  : ConfigError + BuiltConfig :=
  if negb (PyStr.truthy (api_key creds)) || negb (PyStr.truthy (api_secret creds))
  then inl MissingCredentials
  else if (cli_max_loss cli <=? 0)%float then inl NonPositiveMaxLoss
  else inr {| core := {| max_loss := cli_max_loss cli;
                         poll_interval := cli_poll_interval cli;
                         market_close := cli_market_close cli;
                         exchanges := build_exchanges (cli_exchanges cli);
                         dry_run := cli_dry_run cli |};
              credentials := creds;
              force_login := cli_login cli || cli_manual_login cli;
              manual_login := cli_manual_login cli;
              redirect_port := cli_redirect_port cli |}.

End Config.

(* ------------------------------------------------------------------ *)
(** ** positions.py *)

Module Positions.

Record FnOPosition := mkPos {
  tradingsymbol : string;
  exchange : string;
  instrument_token : Z;
  product : string;
  quantity : Z;
  average_price : float;
  last_price : float;
  pnl : float;
  m2m : float;
  buy_quantity : Z;
  sell_quantity : Z;
  buy_price : float;
  sell_price : float
}.

Definition is_open (p : FnOPosition) : bool := negb (quantity p =? 0).

Definition side (p : FnOPosition) : string :=
  if quantity p >? 0 then "LONG"
  else if quantity p <? 0 then "SHORT"
  else "FLAT".

Definition fetch_positions (kite : KiteConnect) : M Trace RawPositions :=
  call_positions kite.

(** [d.get(key, dflt)]. *)
Definition dget {A} (o : option A) (dflt : A) : A :=
  match o with Some a => a | None => dflt end.

Definition to_fno (pos : RawPosition) : FnOPosition :=
  {| tradingsymbol := dget (raw_tradingsymbol pos) "";
     exchange := dget (raw_exchange pos) "";
     instrument_token := dget (raw_instrument_token pos) 0;
     product := dget (raw_product pos) "";
     quantity := dget (raw_quantity pos) 0;
     average_price := dget (raw_average_price pos) 0%float;
     last_price := dget (raw_last_price pos) 0%float;
     pnl := dget (raw_pnl pos) 0%float;
     m2m := dget (raw_m2m pos) 0%float;
     buy_quantity := dget (raw_buy_quantity pos) 0;
     sell_quantity := dget (raw_sell_quantity pos) 0;
     buy_price := dget (raw_buy_price pos) 0%float;
     sell_price := dget (raw_sell_price pos) 0%float |}.

(** The loop of [parse_fno_positions] over [raw_positions.get("net", [])]. *)
Fixpoint parse_net (net : list RawPosition) (exchanges : list string)
  : list FnOPosition :=
  match net with
  | [] => []
  | pos :: rest =>
      if negb (PyStr.mem (dget (raw_exchange pos) "") exchanges)
      then parse_net rest exchanges
      else to_fno pos :: parse_net rest exchanges
  end.

Definition parse_fno_positions (raw_positions : RawPositions)
  (exchanges : list string) : list FnOPosition :=
  parse_net (dget (raw_net raw_positions) []) exchanges.

Definition get_open_fno_positions (kite : KiteConnect)
  (exchanges : list string) : M Trace (list FnOPosition) :=
  raw <- fetch_positions kite ;;
  let all_fno := parse_fno_positions raw exchanges in
  ret (List.filter is_open all_fno).

(** [sum(p.pnl for p in positions)]: the built-in [sum] over floats starts
    from 0 and adds from left to right, rounding each addition to binary64
    (CPython before 3.12, which sums floats without compensation). *)
Definition calculate_total_pnl (positions : list FnOPosition) : float :=
  fold_left (fun acc p => (acc + pnl p)%float) positions 0%float.

End Positions.

(* ------------------------------------------------------------------ *)
(** ** executor.py *)

Module Executor.

Record ExitOrderResult := mkResult {
  tradingsymbol : string;
  exchange : string;
  transaction_type : string;
  quantity : Z;
  order_id : option string;
  success : bool;
  error : string
}.

Definition set_order_id (v : option string) (r : ExitOrderResult) :=
  {| tradingsymbol := tradingsymbol r; exchange := exchange r;
     transaction_type := transaction_type r; quantity := quantity r;
     order_id := v; success := success r; error := error r |}.

Definition set_success (v : bool) (r : ExitOrderResult) :=
  {| tradingsymbol := tradingsymbol r; exchange := exchange r;
     transaction_type := transaction_type r; quantity := quantity r;
     order_id := order_id r; success := v; error := error r |}.

Definition set_error (v : string) (r : ExitOrderResult) :=
  {| tradingsymbol := tradingsymbol r; exchange := exchange r;
     transaction_type := transaction_type r; quantity := quantity r;
     order_id := order_id r; success := success r; error := v |}.

(** Modelled from the spec: the constants of the third-party [kiteconnect]
    client are not part of the source tree; the spec names the two closing
    directions SELL and BUY, and a market, day-validity order. *)
Definition TRANSACTION_TYPE_SELL : string := "SELL".
Definition TRANSACTION_TYPE_BUY : string := "BUY".
Definition VARIETY_REGULAR : string := "regular".
Definition ORDER_TYPE_MARKET : string := "MARKET".
Definition VALIDITY_DAY : string := "DAY".

Definition _determine_exit_transaction (position : Positions.FnOPosition)
  : string :=
  if Positions.quantity position >? 0 then TRANSACTION_TYPE_SELL
  else if Positions.quantity position <? 0 then TRANSACTION_TYPE_BUY
  else "".

(** The sentinel order identifier of a simulated order. *)
Definition DRY_RUN : string := "DRY_RUN".

Definition max_retries : Z := 3.

(** [range(lo, hi)]. *)
Definition py_range (lo hi : Z) : list Z :=
  map (fun i => lo + Z.of_nat i) (seq 0 (Z.to_nat (hi - lo))).

Definition exit_request (position : Positions.FnOPosition)
  (transaction_type : string) (quantity : Z) : OrderRequest :=
  {| req_variety := VARIETY_REGULAR;
     req_exchange := Positions.exchange position;
     req_tradingsymbol := Positions.tradingsymbol position;
     req_transaction_type := transaction_type;
     req_quantity := quantity;
     req_product := Positions.product position;
     req_order_type := ORDER_TYPE_MARKET;
     req_validity := VALIDITY_DAY;
     req_tag := "ExitWave" |}.

(** The [for attempt in range(1, max_retries + 1)] loop of
    [place_exit_order], with the code after the loop as the empty case. *)
Fixpoint place_attempts (kite : KiteConnect) (position : Positions.FnOPosition)
  (req : OrderRequest) (attempts : list Z) (result : ExitOrderResult)
  : M Trace ExitOrderResult :=
  match attempts with
  | [] =>
      log ERROR (MsgFailedToExit (Positions.tradingsymbol position) (error result)) >>
      ret result
  | attempt :: rest =>
      r <- try_ (call_place_order kite req) ;;
      match r with
      | inr oid =>
          let result := set_success true (set_order_id (Some oid) result) in
          log INFO (MsgExitOrder (Positions.tradingsymbol position) oid) >>
          ret result
      | inl e =>
          let error_msg := exc_str e in
          log WARNING (MsgAttemptFailed attempt max_retries
                         (Positions.tradingsymbol position) error_msg) >>
          let result := set_error error_msg result in
          when (attempt <? max_retries) (sleep 1) >>
          place_attempts kite position req rest result
      end
  end.

Definition place_exit_order (kite : KiteConnect)
  (position : Positions.FnOPosition) (dry_run : bool)
  : M Trace ExitOrderResult :=
  let transaction_type := _determine_exit_transaction position in
  let quantity := Z.abs (Positions.quantity position) in
  if negb (PyStr.truthy transaction_type) then
    ret {| tradingsymbol := Positions.tradingsymbol position;
           exchange := Positions.exchange position;
           transaction_type := "NONE";
           quantity := 0;
           order_id := None;
           success := false;
           error := "Position has zero quantity, nothing to exit." |}
  else
    let result :=
      {| tradingsymbol := Positions.tradingsymbol position;
         exchange := Positions.exchange position;
         transaction_type := transaction_type;
         quantity := quantity;
         order_id := None;
         success := false;
         error := "" |} in
    if dry_run then
      log INFO (MsgDryRunExitOrder (Positions.tradingsymbol position)) >>
      ret (set_order_id (Some DRY_RUN) (set_success true result))
    else
      place_attempts kite position
        (exit_request position transaction_type quantity)
        (py_range 1 (max_retries + 1)) result.

(** [for pos in positions: results.append(place_exit_order(...))]. *)
Fixpoint place_each (kite : KiteConnect) (positions : list Positions.FnOPosition)
  (dry_run : bool) (results : list ExitOrderResult)
  : M Trace (list ExitOrderResult) :=
  match positions with
  | [] => ret results
  | pos :: rest =>
      result <- place_exit_order kite pos dry_run ;;
      place_each kite rest dry_run (results ++ [result])
  end.

Definition count_if {A} (p : A -> bool) (l : list A) : nat :=
  length (List.filter p l).

Definition exit_all_positions (kite : KiteConnect)
  (positions : list Positions.FnOPosition) (dry_run : bool)
  : M Trace (list ExitOrderResult) :=
  match positions with
  | [] => log INFO MsgNoPositionsToExit >> ret []
  | _ =>
      log CRITICAL (MsgExitingAll dry_run (length positions)) >>
      results <- place_each kite positions dry_run [] ;;
      let successful := count_if success results in
      let failed := count_if (fun r => negb (success r)) results in
      (if (failed =? 0)%nat then log INFO (MsgAllPlaced successful)
       else
         log ERROR (MsgSomeFailed successful failed) >>
         for_each results (fun r =>
           when (negb (success r))
                (log ERROR (MsgFailedOrder (tradingsymbol r) (error r))))) >>
      ret results
  end.

(** Truthiness of [r.order_id]: neither [None] nor the empty string. *)
Definition has_order_id (r : ExitOrderResult) : bool :=
  match order_id r with
  | Some s => PyStr.truthy s
  | None => false
  end.

(** [history[-1]] of a non-empty history; [None] for an empty one. *)
Fixpoint latest_entry (history : list OrderHistoryEntry)
  : option OrderHistoryEntry :=
  match history with
  | [] => None
  | [e] => Some e
  | _ :: rest => latest_entry rest
  end.

(** The [for result in successful_results] loop of [verify_exit_orders]. *)
Fixpoint verify_each (kite : KiteConnect) (rs : list ExitOrderResult)
  (all_completed : bool) : M Trace bool :=
  match rs with
  | [] => ret all_completed
  | result :: rest =>
      let oid := Positions.dget (order_id result) "" in
      r <- try_ (call_order_history kite oid) ;;
      match r with
      | inr order_history =>
          match latest_entry order_history with
          | None => verify_each kite rest all_completed
          | Some latest =>
              let status := Positions.dget (entry_status latest) "UNKNOWN" in
              if String.eqb status "COMPLETE" then
                log INFO (MsgConfirmed (tradingsymbol result) oid) >>
                verify_each kite rest all_completed
              else if String.eqb status "REJECTED" then
                log ERROR (MsgRejected (tradingsymbol result) oid
                             (Positions.dget (entry_status_message latest) "")) >>
                verify_each kite rest false
              else
                log WARNING (MsgPending (tradingsymbol result) oid status) >>
                verify_each kite rest false
          end
      | inl e =>
          log ERROR (MsgCheckError oid (exc_str e)) >>
          verify_each kite rest false
      end
  end.

Definition verify_exit_orders (kite : KiteConnect)
  (results : list ExitOrderResult) (dry_run : bool) : M Trace bool :=
  if dry_run then
    log INFO MsgSkipVerification >> ret true
  else
    let successful_results :=
      List.filter (fun r => success r && has_order_id r) results in
    match successful_results with
    | [] => ret false
    | _ =>
        log INFO MsgVerifying >>
        sleep 2 >>
        verify_each kite successful_results true
    end.

End Executor.

(* ------------------------------------------------------------------ *)
(** ** monitor.py *)

Module Monitor.

(** A [threading.Thread] handle as the monitor sees it. *)
Record Thread := mkThread { thread_name : string; is_alive : bool }.

Record PositionMonitor := mkMonitor {
  kite : KiteConnect;
  config : Config.ExitWaveConfig;
  _close_hour : Z;
  _close_minute : Z;
  _thread : option Thread;
  _stop_event : bool;
  _exit_count : Z;
  _all_exit_results : list Executor.ExitOrderResult;
  _exited_symbols : gset string;
  _last_exit_time : option Q;
  _exit_cooldown : Z;
  _poll_count : Z;
  _last_pnl : option float;
  _peak_loss : float
}.

Definition set_thread (v : option Thread) (s : PositionMonitor) :=
  mkMonitor (kite s) (config s) (_close_hour s) (_close_minute s)
    v (_stop_event s) (_exit_count s) (_all_exit_results s)
    (_exited_symbols s) (_last_exit_time s) (_exit_cooldown s)
    (_poll_count s) (_last_pnl s) (_peak_loss s).

Definition set_stop_event (v : bool) (s : PositionMonitor) :=
  mkMonitor (kite s) (config s) (_close_hour s) (_close_minute s)
    (_thread s) v (_exit_count s) (_all_exit_results s)
    (_exited_symbols s) (_last_exit_time s) (_exit_cooldown s)
    (_poll_count s) (_last_pnl s) (_peak_loss s).

Definition set_exit_count (v : Z) (s : PositionMonitor) :=
  mkMonitor (kite s) (config s) (_close_hour s) (_close_minute s)
    (_thread s) (_stop_event s) v (_all_exit_results s)
    (_exited_symbols s) (_last_exit_time s) (_exit_cooldown s)
    (_poll_count s) (_last_pnl s) (_peak_loss s).

Definition set_all_exit_results (v : list Executor.ExitOrderResult)
  (s : PositionMonitor) :=
  mkMonitor (kite s) (config s) (_close_hour s) (_close_minute s)
    (_thread s) (_stop_event s) (_exit_count s) v
    (_exited_symbols s) (_last_exit_time s) (_exit_cooldown s)
    (_poll_count s) (_last_pnl s) (_peak_loss s).

Definition set_exited_symbols (v : gset string) (s : PositionMonitor) :=
  mkMonitor (kite s) (config s) (_close_hour s) (_close_minute s)
    (_thread s) (_stop_event s) (_exit_count s) (_all_exit_results s)
    v (_last_exit_time s) (_exit_cooldown s)
    (_poll_count s) (_last_pnl s) (_peak_loss s).

Definition set_last_exit_time (v : option Q) (s : PositionMonitor) :=
  mkMonitor (kite s) (config s) (_close_hour s) (_close_minute s)
    (_thread s) (_stop_event s) (_exit_count s) (_all_exit_results s)
    (_exited_symbols s) v (_exit_cooldown s)
    (_poll_count s) (_last_pnl s) (_peak_loss s).

Definition set_poll_count (v : Z) (s : PositionMonitor) :=
  mkMonitor (kite s) (config s) (_close_hour s) (_close_minute s)
    (_thread s) (_stop_event s) (_exit_count s) (_all_exit_results s)
    (_exited_symbols s) (_last_exit_time s) (_exit_cooldown s)
    v (_last_pnl s) (_peak_loss s).

Definition set_last_pnl (v : option float) (s : PositionMonitor) :=
  mkMonitor (kite s) (config s) (_close_hour s) (_close_minute s)
    (_thread s) (_stop_event s) (_exit_count s) (_all_exit_results s)
    (_exited_symbols s) (_last_exit_time s) (_exit_cooldown s)
    (_poll_count s) v (_peak_loss s).

Definition set_peak_loss (v : float) (s : PositionMonitor) :=
  mkMonitor (kite s) (config s) (_close_hour s) (_close_minute s)
    (_thread s) (_stop_event s) (_exit_count s) (_all_exit_results s)
    (_exited_symbols s) (_last_exit_time s) (_exit_cooldown s)
    (_poll_count s) (_last_pnl s) v.

(** [PositionMonitor.__init__] after the market-close string is parsed. *)
Definition init (k : KiteConnect) (cfg : Config.ExitWaveConfig)
  (close_hour close_minute : Z) : PositionMonitor :=
  {| kite := k; config := cfg;
     _close_hour := close_hour; _close_minute := close_minute;
     _thread := None; _stop_event := false;
     _exit_count := 0; _all_exit_results := [];
     _exited_symbols := ∅; _last_exit_time := None;
     _exit_cooldown := 30;
     _poll_count := 0; _last_pnl := None; _peak_loss := 0%float |}.

(** The worker's state: the monitor object and the trace. *)
Definition MonSt : Type := PositionMonitor * Trace.

Definition lift {A} (m : M Trace A) : M MonSt A :=
  fun st => (fst (m (snd st)), (fst st, snd (m (snd st)))).

Definition read {A} (f : PositionMonitor -> A) : M MonSt A :=
  fun st => (Ok (f (fst st)), st).

Definition update (f : PositionMonitor -> PositionMonitor) : M MonSt unit :=
  fun st => (Ok tt, (f (fst st), snd st)).

Definition Qltb (x y : Q) : bool := negb (Qle_bool y x).

(** [int(x)] of a number of seconds: truncation toward zero. *)
Definition py_int (x : Q) : Z :=
  if Qle_bool 0 x then Qfloor x else Qceiling x.

(** The branch of the [if/elif] chain of [_poll_positions]. *)
Inductive Band := BREACH | APPROACHING | ELEVATED | NORMAL.

(** [abs(total_pnl) / max_loss if total_pnl < 0 else 0], for [max_loss]
    other than zero (a zero divisor raises, see [_poll_positions]). *)
Definition loss_ratio (total_pnl max_loss : float) : float :=
  if (total_pnl <? 0)%float then (abs total_pnl / max_loss)%float else 0%float.

(** [if loss_ratio >= 1.0 ... elif loss_ratio >= 0.8 ... elif loss_ratio >=
    0.5 ... else ...]; every test is false for NaN. *)
Definition band (loss_ratio : float) : Band :=
  if (1 <=? loss_ratio)%float then BREACH
  else if (0.8 <=? loss_ratio)%float then APPROACHING
  else if (0.5 <=? loss_ratio)%float then ELEVATED
  else NORMAL.

(** [is_running]: the thread exists and is alive. *)
Definition is_running (s : PositionMonitor) : bool :=
  match _thread s with
  | Some t => is_alive t
  | None => false
  end.

Definition has_exited (s : PositionMonitor) : bool := _exit_count s >? 0.

(** [start()].  The thread it spawns runs [_monitor_loop]; here the spawn
    is recorded and the handle stored. *)
Definition start : M MonSt unit :=
  running <- read is_running ;;
  if running then
    lift (log WARNING MsgAlreadyRunning)
  else
    update (set_stop_event false) >>
    update (set_exit_count 0) >>
    update (set_all_exit_results []) >>
    update (set_exited_symbols ∅) >>
    update (set_last_exit_time None) >>
    update (set_poll_count 0) >>
    update (set_peak_loss 0%float) >>
    update (set_thread (Some (mkThread "ExitWave-Monitor" true))) >>
    lift (emit (EvThreadStart "ExitWave-Monitor")) >>
    lift (log INFO MsgMonitorStarted).

Definition stop : M MonSt unit :=
  update (set_stop_event true) >>
  t <- read _thread ;;
  match t with
  | Some _ =>
      lift (emit (EvThreadJoin (Some 30))) >>
      lift (log INFO MsgMonitorStopped)
  | None => ret tt
  end.

Definition wait : M MonSt unit :=
  t <- read _thread ;;
  match t with
  | Some _ => lift (emit (EvThreadJoin None))
  | None => ret tt
  end.

(** The text of the OverflowError a lock raises for a timeout of [secs]
    seconds that is too large: the conversion to nanoseconds overflows a
    64-bit integer, or the timeout is above the platform's maximum. *)
Definition wait_overflow_text (secs : Z) : string :=
  if secs * 1000000000 >? 9223372036854775807
  then "timestamp too large to convert to C _PyTime_t"
  else "timeout value is too large".

(** An [int] argument of [datetime.replace] is converted to a C [int]
    before its range is checked. *)
Definition fits_c_int (n : Z) : bool :=
  (-2147483648 <=? n) && (n <=? 2147483647).

(** The text of the OverflowError of that conversion (64-bit C [long]). *)
Definition c_int_overflow_text (n : Z) : string :=
  if negb ((-9223372036854775808 <=? n) && (n <=? 9223372036854775807))
  then "Python int too large to convert to C long"
  else if n >? 2147483647 then "signed integer is greater than maximum"
  else "signed integer is less than minimum".

Section WithClock.

(** [datetime.now(IST)], in seconds from a local midnight. *)
Variable now_IST : Trace -> Q.

(** [threading.TIMEOUT_MAX], a whole number of seconds fixed by the
    platform (9223372036 or 4294967). *)
Variable TIMEOUT_MAX : positive.

(** [self._stop_event.wait(timeout=secs)] for an [int] timeout: returns at
    once when the event is set; otherwise the wait blocks for the timeout,
    and a timeout above [TIMEOUT_MAX] raises OverflowError instead. *)
Definition stop_wait (secs : Z) : M MonSt unit :=
  stopped <- read _stop_event ;;
  if stopped then ret tt
  else if secs >? Z.pos TIMEOUT_MAX then
    raise (mkExc "OverflowError" (wait_overflow_text secs))
  else lift (emit (EvWait secs)).

Definition read_clock : M Trace Q :=
  fun tr => (Ok (now_IST tr), EvNow (now_IST tr) :: tr).

(** Midnight of the day of [now], and [now.replace(hour, minute, 0, 0)]. *)
Definition day_start (now : Q) : Q :=
  inject_Z (86400 * Qfloor (now / 86400)).

Definition close_time (now : Q) (hour minute : Z) : Q :=
  (day_start now + inject_Z (hour * 3600 + minute * 60))%Q.

(** [now.replace(hour=..., minute=..., second=0, microsecond=0)] converts
    its arguments, hour before minute, then checks their ranges. *)
Definition _is_market_open : M MonSt bool :=
  now <- lift read_clock ;;
  h <- read _close_hour ;;
  m <- read _close_minute ;;
  if negb (fits_c_int h) then
    raise (mkExc "OverflowError" (c_int_overflow_text h))
  else if negb (fits_c_int m) then
    raise (mkExc "OverflowError" (c_int_overflow_text m))
  else if negb ((0 <=? h) && (h <=? 23)) then
    raise (mkExc "ValueError" "hour must be in 0..23")
  else if negb ((0 <=? m) && (m <=? 59)) then
    raise (mkExc "ValueError" "minute must be in 0..59")
  else ret (Qltb now (close_time now h m)).

Definition _trigger_exit (positions : list Positions.FnOPosition)
  (total_pnl : float) : M MonSt unit :=
  update (fun s => set_exit_count (_exit_count s + 1) s) >>
  n <- read _exit_count ;;
  lift (log CRITICAL (MsgInitiatingExit n (length positions) total_pnl)) >>
  lift (for_each positions (fun pos =>
          log INFO (MsgExitingPosition (Positions.tradingsymbol pos)))) >>
  k <- read kite ;;
  cfg <- read config ;;
  results <- lift (Executor.exit_all_positions k positions (Config.dry_run cfg)) ;;
  update (fun s => set_all_exit_results (_all_exit_results s ++ results) s) >>
  for_each positions (fun pos =>
    update (fun s => set_exited_symbols
                       ({[ Positions.tradingsymbol pos ]} ∪ _exited_symbols s) s)) >>
  (if negb (Config.dry_run cfg) then
     _ <- lift (Executor.verify_exit_orders k results (Config.dry_run cfg)) ;;
     ret tt
   else ret tt) >>
  now <- lift read_clock ;;
  update (set_last_exit_time (Some now)) >>
  n <- read _exit_count ;;
  lift (log INFO (MsgExitComplete n)).

Definition _poll_positions : M MonSt unit :=
  update (fun s => set_poll_count (_poll_count s + 1) s) >>
  k <- read kite ;;
  cfg <- read config ;;
  positions <- lift (Positions.get_open_fno_positions k (Config.exchanges cfg)) ;;
  match positions with
  | [] =>
      pc <- read _poll_count ;;
      when (pc mod 6 =? 1) (lift (log INFO MsgNoOpenPositions))
  | _ =>
      let total_pnl := Positions.calculate_total_pnl positions in
      update (set_last_pnl (Some total_pnl)) >>
      peak <- read _peak_loss ;;
      when (total_pnl <? peak)%float (update (set_peak_loss total_pnl)) >>
      _ <- lift read_clock ;;
      let position_count := length positions in
      ratio <- (if (total_pnl <? 0)%float && (Config.max_loss cfg =? 0)%float
                then raise (mkExc "ZeroDivisionError" "float division by zero")
                else ret (loss_ratio total_pnl (Config.max_loss cfg))) ;;
      match band ratio with
      | BREACH =>
          lift (log CRITICAL (MsgBreached total_pnl position_count)) >>
          _trigger_exit positions total_pnl
      | b =>
          lift (match b with
                | APPROACHING =>
                    log WARNING (MsgApproaching total_pnl ratio position_count)
                | ELEVATED =>
                    log WARNING (MsgElevated total_pnl ratio position_count)
                | _ => log INFO (MsgNormal total_pnl position_count)
                end) >>
          pc <- read _poll_count ;;
          when (pc mod 30 =? 0)
               (lift (log INFO (MsgPositionsSummary position_count total_pnl)))
      end
  end.

Definition _handle_poll_error (e : PyException) : M MonSt unit :=
  let error_name := exc_type e in
  if PyStr.contains "Token" error_name
     || PyStr.contains "token" (PyStr.lower (exc_str e)) then
    lift (log ERROR MsgAuthError) >>
    update (set_stop_event true)
  else
    cfg <- read config ;;
    lift (log WARNING (MsgWillRetry (Config.poll_interval cfg * 2))) >>
    stop_wait (Config.poll_interval cfg).

Definition _print_session_summary : M MonSt unit :=
  s <- read id ;;
  let results := _all_exit_results s in
  let tally :=
    match results with
    | [] => None
    | _ => Some (Executor.count_if Executor.success results,
                 Executor.count_if (fun r => negb (Executor.success r)) results)
    end in
  lift (log INFO (MsgSessionSummary (_poll_count s) (_last_pnl s)
                    (_peak_loss s) (_exit_count s) tally)).

(** How one pass through the body of the [while] loop ends. *)
Inductive LoopCtl := NextIteration | Break.

(** The cooldown gate of the loop body: [true] when the pass ends at
    [continue]. *)
Definition cooldown_gate : M MonSt bool :=
  last <- read _last_exit_time ;;
  match last with
  | None => ret false
  | Some t0 =>
      now <- lift read_clock ;;
      let elapsed := (now - t0)%Q in
      cd <- read _exit_cooldown ;;
      if Qltb elapsed (inject_Z cd) then
        let remaining := py_int (inject_Z cd - elapsed) in
        when ((remaining mod 10 =? 0) && (remaining >? 0))
             (lift (log INFO (MsgCooldown remaining))) >>
        stop_wait 1 >>
        ret true
      else ret false
  end.

(** The rest of the loop body once the gate is passed: the guarded poll
    and the wait for the next poll. *)
Definition poll_tick : M MonSt LoopCtl :=
  r <- try_ _poll_positions ;;
  match r with
  | inr _ => ret tt
  | inl e =>
      lift (log ERROR (MsgPollError (exc_str e))) >>
      _handle_poll_error e
  end >>
  cfg <- read config ;;
  stop_wait (Config.poll_interval cfg) >>
  ret NextIteration.

(** One pass through the body of [while not self._stop_event.is_set()]. *)
Definition loop_body : M MonSt LoopCtl :=
  open <- _is_market_open ;;
  if negb open then
    lift (log INFO MsgMarketClosed) >> ret Break
  else
    cooling <- cooldown_gate ;;
    if cooling then ret NextIteration
    else poll_tick.

(** The [while] loop, at most [fuel] passes; [true] when the loop was left
    (stop event set, or [break]), [false] when the passes ran out. *)
Fixpoint while_loop (fuel : nat) : M MonSt bool :=
  match fuel with
  | O => ret false
  | S fuel' =>
      stopped <- read _stop_event ;;
      if stopped then ret true
      else
        c <- loop_body ;;
        match c with
        | Break => ret true
        | NextIteration => while_loop fuel'
        end
  end.

Definition _monitor_loop (fuel : nat) : M MonSt bool :=
  lift (log INFO MsgBanner) >>
  left_loop <- while_loop fuel ;;
  if left_loop then
    lift (log INFO MsgLoopEnded) >>
    _print_session_summary >>
    ret true
  else ret false.

(** The spawned thread: it runs [_monitor_loop] and is no longer alive
    once that returns. *)
Definition thread_run (fuel : nat) : M MonSt bool :=
  returned <- _monitor_loop fuel ;;
  when returned
    (update (fun s => match _thread s with
                      | Some t => set_thread (Some (mkThread (thread_name t) false)) s
                      | None => s
                      end)) >>
  ret returned.

End WithClock.

End Monitor.

(* ------------------------------------------------------------------ *)
(** ** auth.py: the choice between the cached token and a login flow *)

Module Auth.

(** The dict [kite.profile()] returns; only these two keys are read. *)
Record Profile := mkProfile {
  user_name : option string;
  user_id : option string
}.

Inductive AuthMsg :=
| MsgCheckingCached
| MsgAuthenticatedAs (name id : string)
| MsgCachedInvalid
| MsgStartingManual
| MsgStartingLogin.

Inductive AuthEvent :=
| AuProfile (api_key access_token : string)   (* kite.profile() *)
| AuLog (msg : AuthMsg).                      (* log.info(...) *)

Definition AuthTrace := list AuthEvent.

Definition note (msg : AuthMsg) : M AuthTrace unit :=
  fun tr => (Ok tt, AuLog msg :: tr).

(** [d[key]] on a dict: KeyError when the key is absent. *)
Definition getitem {A} (key : string) (o : option A) : M AuthTrace A :=
  match o with
  | Some a => ret a
  | None => raise (mkExc "KeyError" key)
  end.

Section Authenticate.

(** An authenticated client, and [KiteConnect(api_key)] followed by
    [set_access_token(access_token)]. *)
Variable Kite : Type.
Variable connect : string -> string -> Kite.

(** The answer of [kite.profile()] for a key and token, after the events
    recorded so far. *)
Variable profile : AuthTrace -> string -> string -> PyException + Profile.

(** The two login flows, [_manual_login_flow(api_key, api_secret,
    project_root)] and [_login_flow(api_key, api_secret, redirect_port,
    project_root)]: browser, console and file system stay outside the
    embedding. *)
Variable _manual_login_flow : string -> string -> string -> M AuthTrace Kite.
Variable _login_flow : string -> string -> Z -> string -> M AuthTrace Kite.

Definition call_profile (api_key access_token : string) : M AuthTrace Profile :=
  fun tr => (of_sum (profile tr api_key access_token),
             AuProfile api_key access_token :: tr).

Definition _try_cached_token (api_key access_token : string)
  : M AuthTrace (option Kite) :=
  if negb (PyStr.truthy access_token) then ret None
  else
    note MsgCheckingCached >>
    let kite := connect api_key access_token in
    r <- try_ (p <- call_profile api_key access_token ;;
               name <- getitem "user_name" (user_name p) ;;
               id <- getitem "user_id" (user_id p) ;;
               note (MsgAuthenticatedAs name id) >>
               ret kite) ;;
    match r with
    | inr k => ret (Some k)
    | inl _ => note MsgCachedInvalid >> ret None
    end.

Definition authenticate (api_key api_secret access_token : string)
  (force_login : bool) (redirect_port : Z) (project_root : string)
  (manual_login : bool) : M AuthTrace Kite :=
  cached <- (if negb force_login
             then _try_cached_token api_key access_token
             else ret None) ;;
  match cached with
  | Some kite => ret kite
  | None =>
      if manual_login then
        note MsgStartingManual >>
        _manual_login_flow api_key api_secret project_root
      else
        note MsgStartingLogin >>
        _login_flow api_key api_secret redirect_port project_root
  end.

End Authenticate.

End Auth.

(* ================================================================== *)
(** * Specification vocabulary and fixtures *)

Definition is_log (e : Event) : bool :=
  match e with EvLog _ _ => true | _ => false end.

Definition any_event (e : Event) : bool := true.

(** [runs P m post]: from every trace, [m] returns normally, adds only
    events accepted by [P], and its result satisfies [post]. *)
Definition runs {A} (P : Event -> bool) (m : M Trace A) (post : A -> Prop)
  : Prop :=
  forall tr, exists a evs,
    m tr = (Ok a, evs ++ tr) /\ forallb P evs = true /\ post a.

(** A broker whose answers are scripted: [kite.positions()] always answers
    [positions]; the n-th call of [place_order] gets the n-th element of
    [orders]; [order_history] answers by order identifier. *)
Definition scripted_kite (positions : PyException + RawPositions)
  (orders : list (PyException + string))
  (history : string -> PyException + list OrderHistoryEntry) : KiteConnect :=
  {| kite_positions := fun _ => positions;
     kite_place_order := fun tr _ =>
       nth (count_events is_place_order tr) orders
           (inl (mkExc "NetworkException" "connection refused"));
     kite_order_history := fun _ oid => history oid |}.

Definition network_down : PyException :=
  mkExc "NetworkException" "connection refused".

Definition kite_down : KiteConnect :=
  scripted_kite (inl network_down) [] (fun _ => inl network_down).

Definition sample_position (symbol venue : string) (qty : Z) (p : float)
  : Positions.FnOPosition :=
  Positions.mkPos symbol venue 0 "NRML" qty 0 0 p p 0 0 0 0.

Definition long_X := sample_position "X" "NFO" 50 (-3000).
Definition short_Y := sample_position "Y" "NFO" (-25) (-2500).
Definition flat_Z := sample_position "Z" "NFO" 0 0.

(** What a dry run owes each position: a success with the sentinel
    identifier when the position is open, the failed no-transaction result
    when it is flat. *)
Definition dry_run_result (p : Positions.FnOPosition)
  (r : Executor.ExitOrderResult) : Prop :=
  Executor.tradingsymbol r = Positions.tradingsymbol p /\
  Executor.exchange r = Positions.exchange p /\
  (if Positions.is_open p
   then (Executor.success r = true /\
         Executor.order_id r = Some Executor.DRY_RUN /\
         Executor.transaction_type r = Executor._determine_exit_transaction p /\
         Executor.quantity r = Z.abs (Positions.quantity p))
   else (Executor.success r = false /\ Executor.order_id r = None)).

(** The venue of a raw position as [parse_fno_positions] reads it. *)
Definition venue (pos : RawPosition) : string :=
  Positions.dget (raw_exchange pos) "".

(** A raw position counts toward the aggregate: its venue is one of the
    configured ones and its quantity is not zero. *)
Definition counted (exchanges : list string) (pos : RawPosition) : bool :=
  PyStr.mem (venue pos) exchanges &&
  negb (Positions.dget (raw_quantity pos) 0 =? 0).

(** A running total over a snapshot, in its order: a counted position adds
    its [pnl] field (0 when the key is absent), any other position adds
    nothing. *)
Fixpoint running_total (acc : float) (exchanges : list string)
  (net : list RawPosition) : float :=
  match net with
  | [] => acc
  | pos :: rest =>
      running_total
        (if counted exchanges pos
         then (acc + Positions.dget (raw_pnl pos) 0)%float else acc)
        exchanges rest
  end.

(** The aggregate P&L in the spec's words: the sum of the [pnl] field over
    the positions whose venue is in the configured set and whose quantity is
    not zero, added up from 0 in binary64. *)
Definition aggregate_pnl_spec (exchanges : list string) (net : list RawPosition)
  : float :=
  running_total 0 exchanges net.

Definition raw_position (symbol venue_code : string) (qty : Z) (p : float)
  : RawPosition :=
  mkRaw (Some symbol) (Some venue_code) None (Some "NRML") (Some qty)
        None None (Some p) None None None None None.

Definition snapshot (net : list RawPosition) : RawPositions :=
  {| raw_net := Some net |}.

(** Scenario A of the spec, with a position on another venue and a flat one. *)
Definition snapshot_A : RawPositions :=
  snapshot [raw_position "X" "NFO" 50 (-3000);
            raw_position "E" "NSE" 10 (-900);
            raw_position "Z" "NFO" 0 (-70);
            raw_position "Y" "NFO" (-25) (-2500)].

Definition kite_A : KiteConnect :=
  scripted_kite (inr snapshot_A) [inr "ORD-1"; inr "ORD-2"]
    (fun _ => inr [mkEntry (Some "COMPLETE") None]).

(** C8 as the claim words it: a snapshot venue that equals a configured
    venue after uppercasing both is included. *)
Definition venue_match_ignores_case : Prop :=
  forall (cli_exchanges : string) (pos : RawPosition),
    (exists c, In c (Config.build_exchanges cli_exchanges) /\
               PyStr.upper (venue pos) = PyStr.upper c) ->
    Positions.parse_fno_positions (snapshot [pos])
      (Config.build_exchanges cli_exchanges) = [Positions.to_fno pos].

(** The request [place_exit_order] sends for an open position. *)
Definition closing_request (p : Positions.FnOPosition) : OrderRequest :=
  Executor.exit_request p (Executor._determine_exit_transaction p)
    (Z.abs (Positions.quantity p)).

(** The result record of [place_exit_order] for an open position, by its
    three mutable fields. *)
Definition closing_result (p : Positions.FnOPosition)
  (oid : option string) (ok : bool) (err : string) : Executor.ExitOrderResult :=
  {| Executor.tradingsymbol := Positions.tradingsymbol p;
     Executor.exchange := Positions.exchange p;
     Executor.transaction_type := Executor._determine_exit_transaction p;
     Executor.quantity := Z.abs (Positions.quantity p);
     Executor.order_id := oid;
     Executor.success := ok;
     Executor.error := err |}.

(** Trace after attempt number [attempt] failed with [e]: the call, the
    warning, and the one-second sleep unless it was the third attempt. *)
Definition after_failed_attempt (p : Positions.FnOPosition) (attempt : Z)
  (e : PyException) (tr : Trace) : Trace :=
  (if attempt <? 3 then [EvSleep 1] else []) ++
  EvLog WARNING (MsgAttemptFailed attempt 3 (Positions.tradingsymbol p) (exc_str e)) ::
  EvPlaceOrder (closing_request p) :: tr.

(** Trace after an attempt returned the order identifier [oid]. *)
Definition after_placed (p : Positions.FnOPosition) (oid : string)
  (tr : Trace) : Trace :=
  EvLog INFO (MsgExitOrder (Positions.tradingsymbol p) oid) ::
  EvPlaceOrder (closing_request p) :: tr.

Definition rejected (msg : string) : PyException + string :=
  inl (mkExc "OrderException" msg).

(** A broker that refuses two orders and accepts the third. *)
Definition kite_third_time : KiteConnect :=
  scripted_kite (inl network_down)
    [rejected "busy-1"; rejected "busy-2"; inr "ORD-3"]
    (fun _ => inl network_down).

(** The results [verify_exit_orders] looks up: successful, with a
    non-empty order identifier. *)
Definition checked_results (results : list Executor.ExitOrderResult)
  : list Executor.ExitOrderResult :=
  List.filter (fun r => Executor.success r && Executor.has_order_id r) results.

(** Whether one broker answer leaves [all_completed] as it is. *)
Definition keeps_all_completed
  (answer : PyException + list OrderHistoryEntry) : bool :=
  match answer with
  | inl _ => false
  | inr history =>
      match Executor.latest_entry history with
      | None => true
      | Some latest =>
          String.eqb (Positions.dget (entry_status latest) "UNKNOWN") "COMPLETE"
      end
  end.

(** A broker that knows the order but returns an empty status history. *)
Definition kite_empty_history : KiteConnect :=
  scripted_kite (inl network_down) [] (fun _ => inr []).

Definition placed_X : Executor.ExitOrderResult :=
  closing_result long_X (Some "ORD-1") true "".

(** The monitor after a [start()] that found it not running: the
    session counters are reset (the last P&L is not), the stop event is
    cleared and the new thread handle is stored. *)
Definition fresh_session (s : Monitor.PositionMonitor) : Monitor.PositionMonitor :=
  {| Monitor.kite := Monitor.kite s;
     Monitor.config := Monitor.config s;
     Monitor._close_hour := Monitor._close_hour s;
     Monitor._close_minute := Monitor._close_minute s;
     Monitor._thread := Some (Monitor.mkThread "ExitWave-Monitor" true);
     Monitor._stop_event := false;
     Monitor._exit_count := 0;
     Monitor._all_exit_results := [];
     Monitor._exited_symbols := ∅;
     Monitor._last_exit_time := None;
     Monitor._exit_cooldown := Monitor._exit_cooldown s;
     Monitor._poll_count := 0;
     Monitor._last_pnl := Monitor._last_pnl s;
     Monitor._peak_loss := 0%float |}.

Definition config_A (threshold : float) (dry : bool) : Config.ExitWaveConfig :=
  {| Config.max_loss := threshold; Config.poll_interval := 10;
     Config.market_close := "15:30"; Config.exchanges := ["NFO"; "BFO"];
     Config.dry_run := dry |}.

(** A monitor in the middle of a session: 12 polls, one exit. *)
Definition busy_monitor (alive : bool) : Monitor.PositionMonitor :=
  {| Monitor.kite := kite_A;
     Monitor.config := config_A 5000 false;
     Monitor._close_hour := 15;
     Monitor._close_minute := 30;
     Monitor._thread := Some (Monitor.mkThread "ExitWave-Monitor" alive);
     Monitor._stop_event := false;
     Monitor._exit_count := 1;
     Monitor._all_exit_results := [placed_X];
     Monitor._exited_symbols := {[ "X" ]};
     Monitor._last_exit_time := Some (36000 # 1);
     Monitor._exit_cooldown := 30;
     Monitor._poll_count := 12;
     Monitor._last_pnl := Some (-5500)%float;
     Monitor._peak_loss := (-5500)%float |}.

(** The exited-symbols set after the symbols of [positions] are added. *)
Definition record_symbols (positions : list Positions.FnOPosition)
  (symbols : gset string) : gset string :=
  fold_left (fun acc pos => {[ Positions.tradingsymbol pos ]} ∪ acc)
            positions symbols.

(** The monitor after one exit event that placed [results] and stamped the
    clock reading [t]. *)
Definition after_exit (s : Monitor.PositionMonitor)
  (positions : list Positions.FnOPosition)
  (results : list Executor.ExitOrderResult) (t : Q) : Monitor.PositionMonitor :=
  {| Monitor.kite := Monitor.kite s;
     Monitor.config := Monitor.config s;
     Monitor._close_hour := Monitor._close_hour s;
     Monitor._close_minute := Monitor._close_minute s;
     Monitor._thread := Monitor._thread s;
     Monitor._stop_event := Monitor._stop_event s;
     Monitor._exit_count := Monitor._exit_count s + 1;
     Monitor._all_exit_results := Monitor._all_exit_results s ++ results;
     Monitor._exited_symbols := record_symbols positions (Monitor._exited_symbols s);
     Monitor._last_exit_time := Some t;
     Monitor._exit_cooldown := Monitor._exit_cooldown s;
     Monitor._poll_count := Monitor._poll_count s;
     Monitor._last_pnl := Monitor._last_pnl s;
     Monitor._peak_loss := Monitor._peak_loss s |}.

(** The monitor after a poll that observed the aggregate [total_pnl]:
    one more poll, the last P&L, and the peak loss if it got worse. *)
Definition observed (s : Monitor.PositionMonitor) (total_pnl : float)
  : Monitor.PositionMonitor :=
  {| Monitor.kite := Monitor.kite s;
     Monitor.config := Monitor.config s;
     Monitor._close_hour := Monitor._close_hour s;
     Monitor._close_minute := Monitor._close_minute s;
     Monitor._thread := Monitor._thread s;
     Monitor._stop_event := Monitor._stop_event s;
     Monitor._exit_count := Monitor._exit_count s;
     Monitor._all_exit_results := Monitor._all_exit_results s;
     Monitor._exited_symbols := Monitor._exited_symbols s;
     Monitor._last_exit_time := Monitor._last_exit_time s;
     Monitor._exit_cooldown := Monitor._exit_cooldown s;
     Monitor._poll_count := Monitor._poll_count s + 1;
     Monitor._last_pnl := Some total_pnl;
     Monitor._peak_loss :=
       if (total_pnl <? Monitor._peak_loss s)%float
       then total_pnl else Monitor._peak_loss s |}.

(** Events that only observe: a log line or a clock read. *)
Definition is_passive (e : Event) : bool :=
  match e with
  | EvLog _ _ | EvNow _ => true
  | _ => false
  end.

(** The open positions [get_open_fno_positions] extracts from a snapshot. *)
Definition open_positions (cfg : Config.ExitWaveConfig) (raw : RawPositions)
  : list Positions.FnOPosition :=
  map Positions.to_fno
    (List.filter (counted (Config.exchanges cfg)) (Positions.dget (raw_net raw) [])).

(** A monitor as [PositionMonitor(kite_A, config)] builds it, closing at
    15:30. *)
Definition monitor_A (threshold : float) (dry : bool) : Monitor.PositionMonitor :=
  Monitor.init kite_A (config_A threshold dry) 15 30.

(** A clock that stands still. *)
Definition clock_at (t : Q) : Trace -> Q := fun _ => t.

(** [threading.TIMEOUT_MAX] of a 64-bit Unix build. *)
Definition timeout_max_64 : positive := 9223372036.

(** The market-close hour and minute are a valid time of day. *)
Definition valid_close (s : Monitor.PositionMonitor) : Prop :=
  0 <= Monitor._close_hour s <= 23 /\ 0 <= Monitor._close_minute s <= 59.

(** The market is open at clock reading [t]. *)
Definition market_open (s : Monitor.PositionMonitor) (t : Q) : Prop :=
  (t < Monitor.close_time t (Monitor._close_hour s) (Monitor._close_minute s))%Q.

(** The log line of a cooldown pass, when one is due. *)
Definition cooldown_log (remaining : Z) : Trace :=
  if (remaining mod 10 =? 0) && (remaining >? 0)
  then [EvLog INFO (MsgCooldown remaining)] else [].

(** What [_handle_poll_error] takes for an authentication failure. *)
Definition is_auth_failure (e : PyException) : bool :=
  PyStr.contains "Token" (exc_type e)
  || PyStr.contains "token" (PyStr.lower (exc_str e)).

Definition token_expired : PyException :=
  mkExc "TokenException" "Incorrect api_key or access_token.".

Definition kite_token_expired : KiteConnect :=
  scripted_kite (inl token_expired) [] (fun _ => inl token_expired).

(** The monitor of scenario A right after an exit stamped at t = 0. *)
Definition exited_monitor : Monitor.PositionMonitor :=
  Monitor.set_last_exit_time (Some 0%Q)
    (Monitor.set_exit_count 1 (monitor_A 5000 true)).

(** Total duration of the [time.sleep] calls recorded in a trace. *)
Fixpoint sleep_total (tr : Trace) : Z :=
  match tr with
  | [] => 0
  | EvSleep secs :: rest => secs + sleep_total rest
  | _ :: rest => sleep_total rest
  end.

(** The log line that opens an exit event. *)
Definition is_exit_announcement (e : Event) : bool :=
  match e with
  | EvLog _ (MsgInitiatingExit _ _ _) => true
  | _ => false
  end.

(** What [place_exit_order] owes a position in either mode: the result names
    the position, carries an order identifier exactly when it is a success,
    is the NONE result for a flat position, and otherwise holds the closing
    direction and the absolute quantity. *)
Definition result_for (p : Positions.FnOPosition)
  (r : Executor.ExitOrderResult) : Prop :=
  Executor.tradingsymbol r = Positions.tradingsymbol p /\
  Executor.exchange r = Positions.exchange p /\
  (Executor.success r = true <-> Executor.order_id r <> None) /\
  (if Positions.is_open p
   then (Executor.transaction_type r = Executor._determine_exit_transaction p /\
         Executor.quantity r = Z.abs (Positions.quantity p))
   else (Executor.transaction_type r = "NONE" /\ Executor.quantity r = 0 /\
         Executor.success r = false)).

(** The events the exit path may add for [n_open] open positions: never a
    position fetch, an exit announcement or a status lookup; no order call
    and no sleep in a dry run; otherwise one to three order calls and at
    most two seconds of sleep per open position. *)
Definition exit_events (dry : bool) (n_open : nat) (evs : Trace) : Prop :=
  count_events is_positions evs = 0%nat /\
  count_events is_exit_announcement evs = 0%nat /\
  count_events is_order_history evs = 0%nat /\
  (if dry
   then count_events is_place_order evs = 0%nat /\ sleep_total evs = 0
   else (n_open <= count_events is_place_order evs <= 3 * n_open)%nat /\
        0 <= sleep_total evs <= 2 * Z.of_nat n_open).

(** A broker that refuses every order. *)
Definition kite_refusing : KiteConnect :=
  scripted_kite (inr snapshot_A) [] (fun _ => inl network_down).

(** A call of the broker order interface: placing an order or reading an
    order's status history. *)
Definition is_order_call (e : Event) : bool :=
  is_place_order e || is_order_history e.

(** The events verification may add when it looks up [n] orders: [n] status
    lookups, [slept] seconds of sleep, and no fetch, order or announcement. *)
Definition lookup_events (n : nat) (slept : Z) (evs : Trace) : Prop :=
  count_events is_order_history evs = n /\
  sleep_total evs = slept /\
  count_events is_place_order evs = 0%nat /\
  count_events is_positions evs = 0%nat /\
  count_events is_exit_announcement evs = 0%nat.

(** The events of one exit event for [n_open] open positions placing
    [n_results] results: exactly one announcement and no fetch; in a dry run
    no order call and no sleep; otherwise one to three orders per open
    position, at most one status lookup per result, and at most two seconds
    of sleep per open position plus the two seconds before verification. *)
Definition exit_event_trace (dry : bool) (n_open n_results : nat)
  (evs : Trace) : Prop :=
  count_events is_exit_announcement evs = 1%nat /\
  count_events is_positions evs = 0%nat /\
  (if dry
   then count_events is_order_call evs = 0%nat /\ sleep_total evs = 0
   else (n_open <= count_events is_place_order evs <= 3 * n_open)%nat /\
        (count_events is_order_history evs <= n_results)%nat /\
        0 <= sleep_total evs <= 2 * Z.of_nat n_open + 2).

(** What the loop never changes: broker, configuration, close time, thread
    handle and cooldown length. *)
Definition same_setup (s s' : Monitor.PositionMonitor) : Prop :=
  Monitor.kite s' = Monitor.kite s /\
  Monitor.config s' = Monitor.config s /\
  Monitor._close_hour s' = Monitor._close_hour s /\
  Monitor._close_minute s' = Monitor._close_minute s /\
  Monitor._thread s' = Monitor._thread s /\
  Monitor._exit_cooldown s' = Monitor._exit_cooldown s.

(** [x] is [y] itself or a float strictly below it. *)
Definition not_above (x y : float) : Prop :=
  x = y \/ (x <? y)%float = true.

(** How the session moves from [s] to [s'] while the events [evs] are
    recorded: the setup is kept; the peak loss does not rise; the poll count
    grows by the number of position fetches and the exit count by the number
    of exit announcements; the results history and the exited symbols only
    grow; a set stop event stays set; and under a dry-run configuration no
    order call and no sleep is recorded. *)
Definition session_advance (s s' : Monitor.PositionMonitor) (evs : Trace)
  : Prop :=
  same_setup s s' /\
  not_above (Monitor._peak_loss s') (Monitor._peak_loss s) /\
  Monitor._poll_count s' =
    Monitor._poll_count s + Z.of_nat (count_events is_positions evs) /\
  Monitor._exit_count s' =
    Monitor._exit_count s + Z.of_nat (count_events is_exit_announcement evs) /\
  (exists more,
     Monitor._all_exit_results s' = Monitor._all_exit_results s ++ more) /\
  Monitor._exited_symbols s ⊆ Monitor._exited_symbols s' /\
  (Monitor._stop_event s = true -> Monitor._stop_event s' = true) /\
  (Config.dry_run (Monitor.config s) = true ->
     count_events is_order_call evs = 0%nat /\ sleep_total evs = 0).

(** Events that move no counter: log lines other than the exit
    announcement, clock reads, waits on the stop event, thread events. *)
Definition is_idle (e : Event) : bool :=
  match e with
  | EvPositions | EvPlaceOrder _ | EvOrderHistory _ | EvSleep _ => false
  | EvLog _ (MsgInitiatingExit _ _ _) => false
  | _ => true
  end.

(** The last line of a run: the session summary of monitor [s]. *)
Definition session_summary (s : Monitor.PositionMonitor) : Event :=
  EvLog INFO
    (MsgSessionSummary (Monitor._poll_count s) (Monitor._last_pnl s)
       (Monitor._peak_loss s) (Monitor._exit_count s)
       (match Monitor._all_exit_results s with
        | [] => None
        | _ => Some (Executor.count_if Executor.success (Monitor._all_exit_results s),
                     Executor.count_if (fun r => negb (Executor.success r))
                       (Monitor._all_exit_results s))
        end)).

(** A broker whose status histories depend on the order only: ORD-1 is
    complete, ORD-2 was rejected, anything else cannot be looked up. *)
Definition history_by_order (oid : string)
  : PyException + list OrderHistoryEntry :=
  if String.eqb oid "ORD-1" then inr [mkEntry (Some "OPEN") None;
                                      mkEntry (Some "COMPLETE") None]
  else if String.eqb oid "ORD-2"
       then inr [mkEntry (Some "REJECTED") (Some "margin")]
       else inl network_down.

Definition kite_mixed_history : KiteConnect :=
  scripted_kite (inr snapshot_A) [] history_by_order.

Definition placed_Y : Executor.ExitOrderResult :=
  closing_result short_Y (Some "ORD-2") true "".

Definition sample_cli (threshold : float) : Config.CliArgs :=
  Config.mkCli threshold 10 "15:30" "nfo, bfo" false false true 5678.

Definition sample_credentials : Config.KiteCredentials :=
  Config.mkCredentials "key" "secret" "".


(** The login flow [authenticate] falls back to, after its start line. *)
Definition chosen_flow {Kite : Type}
  (manual_flow : string -> string -> string -> M Auth.AuthTrace Kite)
  (login_flow : string -> string -> Z -> string -> M Auth.AuthTrace Kite)
  (api_key api_secret : string) (redirect_port : Z) (project_root : string)
  (manual_login : bool) (tr : Auth.AuthTrace) : Outcome Kite * Auth.AuthTrace :=
  if manual_login
  then manual_flow api_key api_secret project_root
         (Auth.AuLog Auth.MsgStartingManual :: tr)
  else login_flow api_key api_secret redirect_port project_root
         (Auth.AuLog Auth.MsgStartingLogin :: tr).

(** Stand-ins for the two flows: each returns a client named after itself. *)
Definition manual_stub (k s r : string) : M Auth.AuthTrace string :=
  ret "manual".
Definition login_stub (k s : string) (port : Z) (r : string)
  : M Auth.AuthTrace string :=
  ret "browser".

Definition profile_ok (tr : Auth.AuthTrace) (k t : string)
  : PyException + Auth.Profile :=
  inr (Auth.mkProfile (Some "Trader") (Some "AB1234")).

Definition profile_nameless (tr : Auth.AuthTrace) (k t : string)
  : PyException + Auth.Profile :=
  inr (Auth.mkProfile None (Some "AB1234")).

(** The line a poll logs for a ratio that is not in the breach band. *)
Definition band_line (pnl ratio : float) (count : nat) : Event :=
  if (0.8 <=? ratio)%float then EvLog WARNING (MsgApproaching pnl ratio count)
  else if (0.5 <=? ratio)%float then EvLog WARNING (MsgElevated pnl ratio count)
  else EvLog INFO (MsgNormal pnl count).

(** The detailed listing, logged by every 30th poll. *)
Definition periodic_listing (poll_count : Z) (count : nat) (pnl : float)
  : Trace :=
  if poll_count mod 30 =? 0
  then [EvLog INFO (MsgPositionsSummary count pnl)] else [].

(** A poll without behavioural effect: the monitor only observed [pnl], and
    after the clock read the poll added the line [line] and at most the
    periodic listing. *)
Definition logged_only (self self' : Monitor.PositionMonitor) (pnl : float)
  (count : nat) (evs : Trace) (line : Event) : Prop :=
  self' = observed self pnl /\
  evs = periodic_listing (Monitor._poll_count self + 1) count pnl ++ [line].

(** C9 as the claim words it: whatever fails during a pass of the loop is
    handled inside the pass, so a pass entered with the stop event clear
    always ends normally and no failure ends the loop. *)
Definition every_tick_failure_is_handled : Prop :=
  forall (now_IST : Trace -> Q) (TIMEOUT_MAX : positive)
         (self : Monitor.PositionMonitor) (tr : Trace),
    Monitor._stop_event self = false ->
    exists c st',
      Monitor.loop_body now_IST TIMEOUT_MAX (self, tr) = (Ok c, st').

(** The outcome of a wait of [secs] seconds on a clear stop event. *)
Definition wait_overflow (secs : Z) : PyException :=
  mkExc "OverflowError" (Monitor.wait_overflow_text secs).

(** C7 as the claim words it: a dry run gives every position of every list
    a success result with the sentinel identifier and calls no broker. *)
Definition dry_run_always_succeeds : Prop :=
  forall (kite : KiteConnect) (positions : list Positions.FnOPosition)
         (tr : Trace),
  exists results evs,
    Executor.exit_all_positions kite positions true tr = (Ok results, evs ++ tr) /\
    count_events is_broker_call evs = 0%nat /\
    length results = length positions /\
    Forall (fun r => Executor.success r = true /\
                     Executor.order_id r = Some Executor.DRY_RUN) results.

(* ================================================================== *)
(** * Properties *)

(** ** Traces and the monad *)

Lemma count_events_app p (a b : Trace) :
  count_events p (a ++ b) = (count_events p a + count_events p b)%nat.
Proof.
  unfold count_events. now rewrite List.filter_app, length_app.
Qed.

Lemma count_events_cons p e (tr : Trace) :
  count_events p (e :: tr) =
  ((if p e then 1 else 0) + count_events p tr)%nat.
Proof.
  unfold count_events. simpl. now destruct (p e).
Qed.

(** ** Order of binary64 numbers *)

Lemma SFcompare_antisym x y c :
  SFcompare x y = Some c -> SFcompare y x = Some (CompOpp c).
Proof.
  destruct x as [sx | sx | | sx mx ex], y as [sy | sy | | sy my ey];
    simpl; try discriminate;
    try (destruct sx); try (destruct sy); simpl;
    try (intros H; injection H as <-; reflexivity);
    intros H; injection H as <-; f_equal;
    rewrite (Z.compare_antisym ey ex);
    change (Pos.compare_cont Eq) with Pos.compare;
    rewrite (Pos.compare_antisym my mx);
    destruct (ey ?= ex); simpl; try reflexivity;
    now destruct (my ?= mx)%positive.
Qed.

Lemma SFcompare_total x y :
  x <> S754_nan -> y <> S754_nan -> exists c, SFcompare x y = Some c.
Proof.
  destruct x, y; simpl; intros Hx Hy; try congruence; eauto.
Qed.

Lemma SFltb_trans x y z :
  SFltb x y = true -> SFltb y z = true -> SFltb x z = true.
Proof.
  unfold SFltb.
  destruct x as [sx | sx | | sx mx ex], y as [sy | sy | | sy my ey],
           z as [sz | sz | | sz mz ez]; simpl; try discriminate;
    try (destruct sx); try (destruct sy); try (destruct sz); simpl;
    try discriminate; try reflexivity;
    change (Pos.compare_cont Eq) with Pos.compare;
    destruct (Z.compare_spec ex ey), (Z.compare_spec ey ez), (Z.compare_spec ex ez);
    simpl; try discriminate; try reflexivity; try lia; subst;
    destruct (Pos.compare_spec mx my), (Pos.compare_spec my mz), (Pos.compare_spec mx mz);
    simpl; try discriminate; try reflexivity; try lia.
Qed.

Lemma float_ltb_trans (x y z : float) :
  (x <? y)%float = true -> (y <? z)%float = true -> (x <? z)%float = true.
Proof. rewrite !FloatAxioms.ltb_spec. apply SFltb_trans. Qed.

Lemma float_ltb_leb (x y : float) :
  (x <? y)%float = true -> (x <=? y)%float = true.
Proof.
  rewrite FloatAxioms.ltb_spec, FloatAxioms.leb_spec. unfold SFltb, SFleb.
  now destruct (SFcompare _ _) as [[| |] |].
Qed.

Lemma is_nan_spec (x : float) : is_nan x = true <-> Prim2SF x = S754_nan.
Proof.
  unfold is_nan. rewrite FloatAxioms.eqb_spec, negb_true_iff. unfold SFeqb.
  destruct (Prim2SF x) as [s | s | | s m e]; simpl.
  - split; discriminate.
  - destruct s; split; discriminate.
  - tauto.
  - change (Pos.compare_cont Eq m m) with (Pos.compare m m).
    rewrite Z.compare_refl, Pos.compare_refl. destruct s; split; discriminate.
Qed.

(** A float that passes a [<=] test on either side is a number. *)
Lemma float_leb_number (x y : float) :
  (x <=? y)%float = true -> is_nan x = false /\ is_nan y = false.
Proof.
  intros H.
  assert (Hn : Prim2SF x <> S754_nan /\ Prim2SF y <> S754_nan).
  { rewrite FloatAxioms.leb_spec in H. unfold SFleb in H.
    destruct (Prim2SF x), (Prim2SF y); simpl in H; try discriminate;
      split; discriminate. }
  destruct Hn as [Hx Hy]. rewrite <- is_nan_spec in Hx, Hy.
  split; [destruct (is_nan x) | destruct (is_nan y)]; congruence.
Qed.

(** Between two numbers, [b <= r] fails exactly when [r < b]. *)
Lemma float_leb_false (b r : float) :
  is_nan b = false -> is_nan r = false ->
  ((b <=? r)%float = false <-> (r <? b)%float = true).
Proof.
  intros Hb Hr.
  assert (Hb' : Prim2SF b <> S754_nan)
    by (rewrite <- is_nan_spec; congruence).
  assert (Hr' : Prim2SF r <> S754_nan)
    by (rewrite <- is_nan_spec; congruence).
  rewrite FloatAxioms.leb_spec, FloatAxioms.ltb_spec. unfold SFleb, SFltb.
  destruct (SFcompare_total _ _ Hb' Hr') as [c E].
  rewrite E, (SFcompare_antisym _ _ _ E). destruct c; simpl; split; congruence.
Qed.

(** [x <= 0] fails for the positive floats and for NaN, and for no other. *)
Lemma float_leb_zero_false (x : float) :
  (x <=? 0)%float = false <-> (0 <? x)%float = true \/ is_nan x = true.
Proof.
  rewrite is_nan_spec, FloatAxioms.leb_spec, FloatAxioms.ltb_spec.
  unfold SFleb, SFltb.
  change (Prim2SF 0) with (S754_zero false).
  destruct (Prim2SF x) as [s | s | | s m e]; simpl.
  - split; [discriminate | intros [H | H]; discriminate].
  - destruct s; simpl; split; try discriminate; try tauto.
    intros [H | H]; discriminate.
  - tauto.
  - destruct s; simpl; split; try discriminate; try tauto.
    intros [H | H]; discriminate.
Qed.

Lemma float_eqb_zero_leb (x : float) :
  (x =? 0)%float = true -> (x <=? 0)%float = true.
Proof.
  rewrite FloatAxioms.eqb_spec, FloatAxioms.leb_spec. unfold SFeqb, SFleb.
  now destruct (SFcompare _ _) as [[| |] |].
Qed.

Lemma float_leb_zero_nonzero (x : float) :
  (x <=? 0)%float = false -> (x =? 0)%float = false.
Proof.
  intros H. destruct (x =? 0)%float eqn:E; [| reflexivity].
  apply float_eqb_zero_leb in E. congruence.
Qed.

Lemma float_positive_nonzero (x : float) :
  (0 <? x)%float = true -> (x =? 0)%float = false.
Proof.
  intros H. apply float_leb_zero_nonzero. apply float_leb_zero_false. now left.
Qed.

Lemma not_above_refl x : not_above x x.
Proof. now left. Qed.

Lemma not_above_trans x y z : not_above x y -> not_above y z -> not_above x z.
Proof.
  intros [-> | Hxy] [-> | Hyz]; try (now left); try (now right).
  right. eapply float_ltb_trans; eassumption.
Qed.

(** ** executor.py: the closing transaction *)

(** C2. The exit transaction is SELL for a long position and BUY for a
    short one; for a flat position it is the empty sentinel, and
    [place_exit_order] then returns a failed result with a non-empty error
    and leaves the trace as it was: nothing is sent to the broker. *)
Theorem exit_transaction_by_sign
  (kite : KiteConnect) (p : Positions.FnOPosition) (dry_run : bool) (tr : Trace) :
  (Positions.quantity p > 0 ->
     Executor._determine_exit_transaction p = "SELL") /\
  (Positions.quantity p < 0 ->
     Executor._determine_exit_transaction p = "BUY") /\
  (Positions.quantity p = 0 ->
     Executor._determine_exit_transaction p = "" /\
     exists r,
       Executor.place_exit_order kite p dry_run tr = (Ok r, tr) /\
       Executor.success r = false /\
       Executor.order_id r = None /\
       Executor.error r <> "" /\
       Executor.transaction_type r = "NONE" /\
       Executor.quantity r = 0).
Proof.
  unfold Executor.place_exit_order, Executor._determine_exit_transaction.
  split; [| split].
  - intros H. destruct (Z.gtb_spec (Positions.quantity p) 0); [reflexivity | lia].
  - intros H. destruct (Z.gtb_spec (Positions.quantity p) 0); [lia |].
    destruct (Z.ltb_spec (Positions.quantity p) 0); [reflexivity | lia].
  - intros ->. simpl. split; [reflexivity |].
    eexists. split; [reflexivity |]. simpl.
    repeat split; discriminate.
Qed.

Lemma exit_transaction_by_sign_witness :
  Executor._determine_exit_transaction long_X = "SELL" /\
  Executor._determine_exit_transaction short_Y = "BUY" /\
  exists r,
    Executor.place_exit_order kite_down flat_Z false [] = (Ok r, []) /\
    Executor.success r = false /\ Executor.error r <> "".
Proof.
  split; [| split].
  - apply (exit_transaction_by_sign kite_down long_X false []). reflexivity.
  - apply (exit_transaction_by_sign kite_down short_Y false []). reflexivity.
  - destruct (exit_transaction_by_sign kite_down flat_Z false [])
      as (_ & _ & H).
    destruct (H eq_refl) as (_ & r & Hrun & Hs & _ & He & _).
    exists r. repeat split; assumption.
Defined.

(** ** The [runs] rules *)

Lemma runs_ret {A} P (a : A) (post : A -> Prop) :
  post a -> runs P (ret a) post.
Proof.
  intros H tr. exists a, []. repeat split; assumption.
Qed.

Lemma runs_bind {A B} P (m : M Trace A) (k : A -> M Trace B)
  (mid : A -> Prop) (post : B -> Prop) :
  runs P m mid ->
  (forall a, mid a -> runs P (k a) post) ->
  runs P (bind m k) post.
Proof.
  intros Hm Hk tr.
  destruct (Hm tr) as (a & evs1 & E1 & F1 & Ha).
  destruct (Hk a Ha (evs1 ++ tr)) as (b & evs2 & E2 & F2 & Hb).
  exists b, (evs2 ++ evs1). unfold bind. rewrite E1, E2.
  repeat split.
  - now rewrite app_assoc.
  - rewrite forallb_app. now rewrite F1, F2.
  - assumption.
Qed.

Lemma runs_emit P (e : Event) (post : unit -> Prop) :
  P e = true -> post tt -> runs P (emit e) post.
Proof.
  intros He Hp tr. exists tt, [e]. repeat split; simpl; try assumption.
  now rewrite He.
Qed.

Lemma runs_weaken {A} P (m : M Trace A) (post post' : A -> Prop) :
  runs P m post -> (forall a, post a -> post' a) -> runs P m post'.
Proof.
  intros Hm Hw tr. destruct (Hm tr) as (a & evs & E & F & Ha).
  exists a, evs. auto.
Qed.

Lemma runs_when P (b : bool) (m : M Trace unit) :
  runs P m (fun _ => True) -> runs P (when b m) (fun _ => True).
Proof.
  intros Hm. destruct b; simpl; [assumption | now apply runs_ret].
Qed.

Lemma runs_for_each {A} P (xs : list A) (body : A -> M Trace unit) :
  (forall x, runs P (body x) (fun _ => True)) ->
  runs P (for_each xs body) (fun _ => True).
Proof.
  intros Hb. induction xs as [| x xs IH]; simpl.
  - now apply runs_ret.
  - eapply runs_bind; [apply Hb | intros _ _; exact IH].
Qed.

Lemma runs_try_call {A} (m : M Trace A) (e : Event) (f : Trace -> PyException + A) :
  (forall tr, m tr = (of_sum (f tr), e :: tr)) ->
  runs any_event (try_ m) (fun _ => True).
Proof.
  intros Hm tr. unfold try_. rewrite Hm.
  destruct (f tr); simpl; eexists _, [e]; repeat split.
Qed.

Lemma only_logs_no_broker_call (evs : Trace) :
  forallb is_log evs = true -> count_events is_broker_call evs = 0%nat.
Proof.
  induction evs as [| e evs IH]; simpl; [reflexivity |].
  intros H. apply andb_prop in H. destruct H as [He Hevs].
  rewrite count_events_cons, (IH Hevs).
  destruct e; simpl in *; try discriminate; reflexivity.
Qed.

(** One logging (or other accepted) event, then the rest. *)
Ltac runs_step :=
  eapply runs_bind with (mid := fun _ => True);
  [ apply runs_emit; [reflexivity | exact I] | intros _ _ ].

(** ** executor.py: dry run *)

Lemma place_exit_order_dry_run kite p :
  runs is_log (Executor.place_exit_order kite p true) (dry_run_result p).
Proof.
  unfold Executor.place_exit_order, dry_run_result, Positions.is_open,
    Executor._determine_exit_transaction.
  destruct (Z.gtb_spec (Positions.quantity p) 0) as [Hgt | Hle].
  - replace (Positions.quantity p =? 0) with false by lia. simpl.
    runs_step. apply runs_ret. simpl. repeat split.
  - destruct (Z.ltb_spec (Positions.quantity p) 0) as [Hlt | Hge].
    + replace (Positions.quantity p =? 0) with false by lia. simpl.
      runs_step. apply runs_ret. simpl. repeat split.
    + replace (Positions.quantity p =? 0) with true by lia. simpl.
      apply runs_ret. simpl. repeat split.
Qed.

Lemma place_each_dry_run kite positions :
  forall acc,
    runs is_log (Executor.place_each kite positions true acc)
      (fun results => exists new,
         results = acc ++ new /\ Forall2 dry_run_result positions new).
Proof.
  induction positions as [| p ps IH]; intros acc; simpl.
  - apply runs_ret. exists []. split; [now rewrite app_nil_r | constructor].
  - eapply runs_bind; [apply place_exit_order_dry_run |].
    intros r Hr. eapply runs_weaken; [apply IH |].
    intros results (new & -> & Hnew). exists (r :: new). split.
    + now rewrite <- app_assoc.
    + now constructor.
Qed.

Lemma exit_all_positions_dry_run kite positions :
  runs is_log (Executor.exit_all_positions kite positions true)
    (fun results => Forall2 dry_run_result positions results).
Proof.
  unfold Executor.exit_all_positions.
  destruct positions as [| p ps].
  - runs_step. apply runs_ret. constructor.
  - set (positions := p :: ps).
    runs_step.
    eapply runs_bind; [apply place_each_dry_run |].
    intros results (new & -> & Hnew). simpl app.
    eapply runs_bind with (mid := fun _ => True).
    + destruct (_ =? _)%nat.
      * apply runs_emit; [reflexivity | exact I].
      * runs_step. apply runs_for_each. intros r. apply runs_when.
        apply runs_emit; [reflexivity | exact I].
    + intros _ _. apply runs_ret. exact Hnew.
Qed.

(** C7, counterexample.  A dry run of a list holding a flat position
    returns a failed result for it, so not every result is a success. *)
Lemma dry_run_flat_position_fails : ~ dry_run_always_succeeds.
Proof.
  intros H. destruct (H kite_down [flat_Z] []) as (results & evs & E & _ & _ & F).
  rewrite app_nil_r in E. vm_compute in E.
  injection E as <- _. inversion F as [| r rs [Hs _] _]. discriminate.
Qed.

(** C7, amended.  With [dry_run] true the exit path returns one result per
    position, in order: a success carrying the sentinel identifier for every
    position of non-zero quantity, the failed no-transaction result for a
    flat one; it adds log lines only, so no broker interface is called. *)
Theorem dry_run_exit_all
  (kite : KiteConnect) (positions : list Positions.FnOPosition) (tr : Trace) :
  exists results evs,
    Executor.exit_all_positions kite positions true tr = (Ok results, evs ++ tr) /\
    forallb is_log evs = true /\
    count_events is_broker_call evs = 0%nat /\
    Forall2 dry_run_result positions results.
Proof.
  destruct (exit_all_positions_dry_run kite positions tr)
    as (results & evs & E & F & H).
  exists results, evs. repeat split; try assumption.
  now apply only_logs_no_broker_call.
Qed.

(** ** executor.py: bounded retry *)

Lemma closing_transaction_truthy p :
  Positions.quantity p <> 0 ->
  PyStr.truthy (Executor._determine_exit_transaction p) = true.
Proof.
  intros H. unfold Executor._determine_exit_transaction.
  destruct (Z.gtb_spec (Positions.quantity p) 0); [reflexivity |].
  destruct (Z.ltb_spec (Positions.quantity p) 0); [reflexivity | lia].
Qed.

Lemma place_attempts_placed kite p req attempt rest result tr oid :
  kite_place_order kite tr req = inr oid ->
  Executor.place_attempts kite p req (attempt :: rest) result tr =
  (Ok (Executor.set_success true (Executor.set_order_id (Some oid) result)),
   EvLog INFO (MsgExitOrder (Positions.tradingsymbol p) oid) ::
   EvPlaceOrder req :: tr).
Proof.
  intros E. simpl. unfold bind, try_, call_place_order. now rewrite E.
Qed.

Lemma place_attempts_failed kite p req attempt rest result tr e :
  kite_place_order kite tr req = inl e ->
  Executor.place_attempts kite p req (attempt :: rest) result tr =
  Executor.place_attempts kite p req rest
    (Executor.set_error (exc_str e) result)
    ((if attempt <? Executor.max_retries then [EvSleep 1] else []) ++
     EvLog WARNING (MsgAttemptFailed attempt Executor.max_retries
                      (Positions.tradingsymbol p) (exc_str e)) ::
     EvPlaceOrder req :: tr).
Proof.
  intros E. simpl. unfold bind, try_, call_place_order. rewrite E. simpl.
  now destruct (attempt <? Executor.max_retries).
Qed.

Lemma place_exit_order_live kite p tr :
  Positions.quantity p <> 0 ->
  Executor.place_exit_order kite p false tr =
  Executor.place_attempts kite p (closing_request p) [1; 2; 3]
    (closing_result p None false "") tr.
Proof.
  intros Hq. unfold Executor.place_exit_order.
  now rewrite (closing_transaction_truthy p Hq).
Qed.

(** C6. For an open position and [dry_run] false, [place_exit_order] calls
    the broker at most three times.  The first attempt that returns an order
    identifier ends the call at once with a success result carrying that
    identifier; a failed first or second attempt is followed by a sleep of 1
    and the next attempt; after a failed third attempt there is no sleep and
    the result is a failure carrying the third error message. *)
Theorem place_exit_order_retry
  (kite : KiteConnect) (p : Positions.FnOPosition) (tr : Trace) :
  Positions.quantity p <> 0 ->
  let req := closing_request p in
  let run := Executor.place_exit_order kite p false tr in
  match kite_place_order kite tr req with
  | inr oid => run = (Ok (closing_result p (Some oid) true ""), after_placed p oid tr)
  | inl e1 =>
      let tr1 := after_failed_attempt p 1 e1 tr in
      match kite_place_order kite tr1 req with
      | inr oid =>
          run = (Ok (closing_result p (Some oid) true (exc_str e1)),
                 after_placed p oid tr1)
      | inl e2 =>
          let tr2 := after_failed_attempt p 2 e2 tr1 in
          match kite_place_order kite tr2 req with
          | inr oid =>
              run = (Ok (closing_result p (Some oid) true (exc_str e2)),
                     after_placed p oid tr2)
          | inl e3 =>
              run = (Ok (closing_result p None false (exc_str e3)),
                     EvLog ERROR (MsgFailedToExit (Positions.tradingsymbol p)
                                    (exc_str e3)) ::
                     after_failed_attempt p 3 e3 tr2)
          end
      end
  end.
Proof.
  intros Hq req run. subst run req.
  rewrite (place_exit_order_live kite p tr Hq).
  destruct (kite_place_order kite tr (closing_request p)) as [e1 | oid1] eqn:E1; cbv beta iota zeta.
  2: rewrite (place_attempts_placed _ _ _ _ _ _ _ _ E1); reflexivity.
  rewrite (place_attempts_failed _ _ _ _ _ _ _ _ E1).
  change (Executor.max_retries) with 3. simpl (1 <? 3).
  fold (after_failed_attempt p 1 e1 tr).
  destruct (kite_place_order kite (after_failed_attempt p 1 e1 tr)
              (closing_request p))
    as [e2 | oid2] eqn:E2; cbv beta iota zeta.
  2: rewrite (place_attempts_placed _ _ _ _ _ _ _ _ E2); reflexivity.
  rewrite (place_attempts_failed _ _ _ _ _ _ _ _ E2).
  change (Executor.max_retries) with 3. simpl (2 <? 3).
  fold (after_failed_attempt p 2 e2 (after_failed_attempt p 1 e1 tr)).
  destruct (kite_place_order kite
              (after_failed_attempt p 2 e2 (after_failed_attempt p 1 e1 tr))
              (closing_request p))
    as [e3 | oid3] eqn:E3; cbv beta iota zeta.
  2: rewrite (place_attempts_placed _ _ _ _ _ _ _ _ E3); reflexivity.
  rewrite (place_attempts_failed _ _ _ _ _ _ _ _ E3).
  reflexivity.
Qed.

Lemma place_exit_order_retry_witness :
  Positions.quantity long_X <> 0 /\
  Executor.place_exit_order kite_third_time long_X false [] =
    (Ok (closing_result long_X (Some "ORD-3") true "busy-2"),
     after_placed long_X "ORD-3"
       (after_failed_attempt long_X 2 (mkExc "OrderException" "busy-2")
          (after_failed_attempt long_X 1 (mkExc "OrderException" "busy-1") []))).
Proof.
  assert (H : Positions.quantity long_X <> 0) by (vm_compute; discriminate).
  split; [exact H |].
  exact (place_exit_order_retry kite_third_time long_X [] H).
Defined.

(** ** executor.py: verification *)

Lemma verify_each_verdict kite hist rs :
  (forall tr oid, kite_order_history kite tr oid = hist oid) ->
  forall acc tr, exists evs,
    Executor.verify_each kite rs acc tr =
      (Ok (acc && forallb (fun r => keeps_all_completed
                             (hist (Positions.dget (Executor.order_id r) ""))) rs),
       evs ++ tr) /\
    count_events is_order_history evs = length rs.
Proof.
  intros Hk. induction rs as [| r rs IH]; intros acc tr.
  - exists []. simpl. now rewrite andb_true_r.
  - cbn [Executor.verify_each].
    unfold bind at 1, try_, call_order_history. rewrite Hk.
    set (oid := Positions.dget (Executor.order_id r) "").
    cbn [forallb]. unfold keeps_all_completed at 1. fold oid.
    destruct (hist oid) as [e | history]; cbn [of_sum].
    + unfold bind, log, emit.
      destruct (IH false (EvLog ERROR (MsgCheckError oid (exc_str e))
                          :: EvOrderHistory oid :: tr)) as (evs & E & C).
      exists (evs ++ [EvLog ERROR (MsgCheckError oid (exc_str e));
                      EvOrderHistory oid]).
      rewrite <- app_assoc. simpl app. rewrite E. split.
      * now rewrite andb_false_r.
      * rewrite count_events_app, C. unfold count_events. simpl. lia.
    + destruct (Executor.latest_entry history) as [latest |].
      * set (status := Positions.dget (entry_status latest) "UNKNOWN").
        destruct (String.eqb status "COMPLETE") eqn:Ec.
        -- unfold bind, log, emit.
           destruct (IH acc (EvLog INFO (MsgConfirmed (Executor.tradingsymbol r) oid)
                             :: EvOrderHistory oid :: tr)) as (evs & E & C).
           exists (evs ++ [EvLog INFO (MsgConfirmed (Executor.tradingsymbol r) oid);
                           EvOrderHistory oid]).
           rewrite <- app_assoc. simpl app. rewrite E. split.
           ++ reflexivity.
           ++ rewrite count_events_app, C. unfold count_events. simpl. lia.
        -- destruct (String.eqb status "REJECTED").
           ++ unfold bind, log, emit.
              match goal with
              | |- context [Executor.verify_each kite rs false ?t] =>
                  destruct (IH false t) as (evs & E & C)
              end.
              eexists (evs ++ [_; EvOrderHistory oid]).
              rewrite <- app_assoc. simpl app. rewrite E. split.
              ** now rewrite andb_false_r.
              ** rewrite count_events_app, C. unfold count_events. simpl. lia.
           ++ unfold bind, log, emit.
              match goal with
              | |- context [Executor.verify_each kite rs false ?t] =>
                  destruct (IH false t) as (evs & E & C)
              end.
              eexists (evs ++ [_; EvOrderHistory oid]).
              rewrite <- app_assoc. simpl app. rewrite E. split.
              ** now rewrite andb_false_r.
              ** rewrite count_events_app, C. unfold count_events. simpl. lia.
      * destruct (IH acc (EvOrderHistory oid :: tr)) as (evs & E & C).
        exists (evs ++ [EvOrderHistory oid]).
        rewrite <- app_assoc. simpl app. rewrite E. split.
        -- reflexivity.
        -- rewrite count_events_app, C. unfold count_events. simpl. lia.
Qed.

(** What [verify_exit_orders] returns against a broker whose status
    histories depend on the order identifier only: every checked result is
    looked up, and the answer is [true] exactly when there is a checked
    result and no lookup failed or showed a latest status other than
    COMPLETE.  An empty history counts as neither. *)
Lemma verify_exit_orders_verdict kite hist results tr :
  (forall tr oid, kite_order_history kite tr oid = hist oid) ->
  exists evs,
    Executor.verify_exit_orders kite results false tr =
      (Ok (match checked_results results with [] => false | _ => true end
           && forallb (fun r => keeps_all_completed
                          (hist (Positions.dget (Executor.order_id r) "")))
                (checked_results results)),
       evs ++ tr) /\
    count_events is_order_history evs = length (checked_results results).
Proof.
  intros Hk. unfold Executor.verify_exit_orders. fold (checked_results results).
  destruct (checked_results results) as [| r rs] eqn:Ec.
  - exists []. split; reflexivity.
  - unfold bind at 1 2, log, sleep, emit.
    destruct (verify_each_verdict kite hist (r :: rs) Hk true
                (EvSleep 2 :: EvLog INFO MsgVerifying :: tr)) as (evs & E & C).
    exists (evs ++ [EvSleep 2; EvLog INFO MsgVerifying]).
    rewrite <- app_assoc. simpl app. rewrite E. split.
    + reflexivity.
    + rewrite count_events_app, C. unfold count_events. simpl. lia.
Qed.

Lemma verify_exit_orders_dry_run kite results tr :
  Executor.verify_exit_orders kite results true tr =
  (Ok true, EvLog INFO MsgSkipVerification :: tr).
Proof. reflexivity. Qed.

(** C5, the failing input.  One successful result whose order has an empty
    status history: the order is looked up, nothing is recorded against it,
    and verification answers [true] although no COMPLETE status was seen. *)
Theorem verify_exit_orders_empty_history :
  Executor.verify_exit_orders kite_empty_history [placed_X] false [] =
  (Ok true, [EvOrderHistory "ORD-1"; EvSleep 2; EvLog INFO MsgVerifying]).
Proof. reflexivity. Qed.

(** ** positions.py: filtering and the aggregate *)

Lemma mem_In x xs : PyStr.mem x xs = true <-> In x xs.
Proof.
  unfold PyStr.mem. rewrite existsb_exists. split.
  - intros (y & Hy & E). apply String.eqb_eq in E. now subst.
  - intros H. exists x. split; [assumption | apply String.eqb_refl].
Qed.

Lemma parse_net_filter net exchanges :
  Positions.parse_net net exchanges =
  map Positions.to_fno
    (List.filter (fun pos => PyStr.mem (venue pos) exchanges) net).
Proof.
  induction net as [| pos rest IH]; simpl; [reflexivity |].
  fold (venue pos). destruct (PyStr.mem (venue pos) exchanges); simpl;
    now rewrite IH.
Qed.

Lemma open_positions_filter net exchanges :
  List.filter Positions.is_open (Positions.parse_net net exchanges) =
  map Positions.to_fno (List.filter (counted exchanges) net).
Proof.
  induction net as [| pos rest IH]; simpl; [reflexivity |].
  unfold counted at 1. fold (venue pos).
  destruct (PyStr.mem (venue pos) exchanges); simpl.
  - unfold Positions.is_open at 1. simpl.
    destruct (Positions.dget (raw_quantity pos) 0 =? 0); simpl;
      now rewrite IH.
  - exact IH.
Qed.

Lemma running_total_counted exchanges net :
  forall acc,
    fold_left (fun a p => (a + Positions.pnl p)%float)
      (map Positions.to_fno (List.filter (counted exchanges) net)) acc =
    running_total acc exchanges net.
Proof.
  induction net as [| pos rest IH]; intros acc; simpl; [reflexivity |].
  destruct (counted exchanges pos); simpl; apply IH.
Qed.

Lemma open_positions_of_snapshot kite exchanges tr raw :
  kite_positions kite tr = inr raw ->
  Positions.get_open_fno_positions kite exchanges tr =
    (Ok (map Positions.to_fno
           (List.filter (counted exchanges) (Positions.dget (raw_net raw) []))),
     EvPositions :: tr).
Proof.
  intros Hk.
  unfold Positions.get_open_fno_positions, Positions.fetch_positions,
    bind, call_positions, ret. rewrite Hk. simpl.
  unfold Positions.parse_fno_positions.
  now rewrite open_positions_filter.
Qed.

(** The aggregate of the open positions of a snapshot is the running total
    over the snapshot. *)
Lemma total_pnl_of_snapshot cfg raw :
  Positions.calculate_total_pnl (open_positions cfg raw) =
  aggregate_pnl_spec (Config.exchanges cfg) (Positions.dget (raw_net raw) []).
Proof.
  unfold Positions.calculate_total_pnl, open_positions, aggregate_pnl_spec.
  apply running_total_counted.
Qed.

(** C3. When the broker answers with a snapshot, the open positions are
    those of the snapshot whose venue is configured and whose quantity is not
    zero, in order, and their total P&L is the sum of the [pnl] field over
    exactly those positions: the binary64 sum, added up from 0 in the order
    of the snapshot, to which any other position adds nothing. *)
Theorem aggregate_pnl_over_counted
  (kite : KiteConnect) (exchanges : list string) (tr : Trace)
  (raw : RawPositions) :
  kite_positions kite tr = inr raw ->
  let net := Positions.dget (raw_net raw) [] in
  exists positions,
    Positions.get_open_fno_positions kite exchanges tr =
      (Ok positions, EvPositions :: tr) /\
    positions = map Positions.to_fno (List.filter (counted exchanges) net) /\
    Positions.calculate_total_pnl positions = aggregate_pnl_spec exchanges net.
Proof.
  intros Hk net.
  exists (map Positions.to_fno (List.filter (counted exchanges) net)).
  split; [| split].
  - now apply open_positions_of_snapshot.
  - reflexivity.
  - unfold Positions.calculate_total_pnl, aggregate_pnl_spec.
    apply running_total_counted.
Qed.

Lemma aggregate_pnl_over_counted_witness :
  kite_positions kite_A [] = inr snapshot_A /\
  exists positions,
    Positions.get_open_fno_positions kite_A ["NFO"; "BFO"] [] =
      (Ok positions, [EvPositions]) /\
    Positions.calculate_total_pnl positions = (-5500)%float.
Proof.
  split; [reflexivity |].
  destruct (aggregate_pnl_over_counted kite_A ["NFO"; "BFO"] [] snapshot_A eq_refl)
    as (positions & Hrun & _ & Hsum).
  exists positions. split; [exact Hrun |].
  rewrite Hsum. reflexivity.
Defined.

(** The sum rounds after every addition: 0.1, 0.2 and 0.3 add up to
    0.6000000000000001, and in the opposite order to 0.6. *)
Example aggregate_rounds_each_addition :
  Positions.calculate_total_pnl
    [sample_position "A" "NFO" 1 0.1; sample_position "B" "NFO" 1 0.2;
     sample_position "C" "NFO" 1 0.3] = 0.6000000000000001%float /\
  Positions.calculate_total_pnl
    [sample_position "C" "NFO" 1 0.3; sample_position "B" "NFO" 1 0.2;
     sample_position "A" "NFO" 1 0.1] = 0.6%float.
Proof. split; reflexivity. Qed.

(** ** config.py and positions.py: letter case of venue codes *)

Lemma upper_char_idem c : PyStr.upper_char (PyStr.upper_char c) = PyStr.upper_char c.
Proof.
  destruct c as [b0 b1 b2 b3 b4 b5 b6 b7].
  destruct b0, b1, b2, b3, b4, b5, b6, b7; reflexivity.
Qed.

Lemma upper_idem s : PyStr.upper (PyStr.upper s) = PyStr.upper s.
Proof.
  unfold PyStr.upper. induction s as [| c s IH]; simpl; [reflexivity |].
  now rewrite upper_char_idem, IH.
Qed.

(** C8, counterexample.  The configured set built from ["NFO,BFO"] does not
    admit a snapshot position whose venue is spelled ["nfo"]. *)
Lemma lowercase_snapshot_venue_excluded : ~ venue_match_ignores_case.
Proof.
  intros H.
  specialize (H "NFO,BFO" (raw_position "X" "nfo" 50 (-3000))).
  assert (E : exists c, In c (Config.build_exchanges "NFO,BFO") /\
                        PyStr.upper (venue (raw_position "X" "nfo" 50 (-3000)))
                        = PyStr.upper c).
  { exists "NFO". split; [left; reflexivity | reflexivity]. }
  specialize (H E). vm_compute in H. discriminate.
Qed.

(** C8, amended.  Only the configured side is case-normalized: every code
    of the configured set is the uppercased, stripped piece of the
    command-line value.  A snapshot position is kept exactly when its venue,
    as received, is literally one of those codes, so every kept position has
    an uppercase venue. *)
Theorem venue_filter_is_exact (cli_exchanges : string) (raw : RawPositions) :
  let exchanges := Config.build_exchanges cli_exchanges in
  let net := Positions.dget (raw_net raw) [] in
  Forall (fun c => PyStr.upper c = c) exchanges /\
  Positions.parse_fno_positions raw exchanges =
    map Positions.to_fno
      (List.filter (fun pos => PyStr.mem (venue pos) exchanges) net) /\
  (forall pos, In pos net ->
     (In (venue pos) exchanges <->
      In pos (List.filter (fun pos => PyStr.mem (venue pos) exchanges) net))) /\
  (forall p, In p (Positions.parse_fno_positions raw exchanges) ->
     In (Positions.exchange p) exchanges /\
     PyStr.upper (Positions.exchange p) = Positions.exchange p).
Proof.
  intros exchanges net.
  assert (Hup : Forall (fun c => PyStr.upper c = c) exchanges).
  { unfold exchanges, Config.build_exchanges. apply List.Forall_forall.
    intros c Hc. apply List.in_map_iff in Hc. destruct Hc as (e & <- & _).
    apply upper_idem. }
  assert (Hparse : Positions.parse_fno_positions raw exchanges =
                   map Positions.to_fno
                     (List.filter (fun pos => PyStr.mem (venue pos) exchanges) net)).
  { unfold Positions.parse_fno_positions. apply parse_net_filter. }
  split; [exact Hup | split; [exact Hparse | split]].
  - intros pos Hin. rewrite List.filter_In, mem_In. tauto.
  - intros p Hp. rewrite Hparse in Hp. apply List.in_map_iff in Hp.
    destruct Hp as (pos & <- & Hpos). apply List.filter_In in Hpos.
    destruct Hpos as [_ Hmem]. apply mem_In in Hmem.
    change (Positions.exchange (Positions.to_fno pos)) with (venue pos).
    split; [exact Hmem |].
    rewrite List.Forall_forall in Hup. now apply Hup.
Qed.

Lemma venue_filter_is_exact_witness :
  Config.build_exchanges " nfo,Bfo " = ["NFO"; "BFO"] /\
  Positions.parse_fno_positions snapshot_A (Config.build_exchanges " nfo,Bfo ") =
    [Positions.to_fno (raw_position "X" "NFO" 50 (-3000));
     Positions.to_fno (raw_position "Z" "NFO" 0 (-70));
     Positions.to_fno (raw_position "Y" "NFO" (-25) (-2500))] /\
  In (Positions.exchange (Positions.to_fno (raw_position "X" "NFO" 50 (-3000))))
     (Config.build_exchanges " nfo,Bfo ").
Proof.
  destruct (venue_filter_is_exact " nfo,Bfo " snapshot_A)
    as (_ & Hparse & _ & Hkept).
  split; [reflexivity |]. split; [exact Hparse |].
  apply Hkept. left. reflexivity.
Defined.

(** ** monitor.py: start() *)

(** C10. [start()] on a running monitor only logs a warning: the monitor
    object is returned as it was (poll count, exit count, exited symbols,
    peak loss, results history, thread handle) and no thread is started.
    The reset and the spawn happen when the monitor is not running. *)
Theorem start_while_running (self : Monitor.PositionMonitor) (tr : Trace) :
  (Monitor.is_running self = true ->
     Monitor.start (self, tr) =
       (Ok tt, (self, EvLog WARNING MsgAlreadyRunning :: tr))) /\
  (Monitor.is_running self = false ->
     Monitor.start (self, tr) =
       (Ok tt, (fresh_session self,
                EvLog INFO MsgMonitorStarted ::
                EvThreadStart "ExitWave-Monitor" :: tr))).
Proof.
  split; intros H; unfold Monitor.start, bind at 1, Monitor.read;
    cbn [fst snd]; rewrite H; reflexivity.
Qed.

Lemma start_while_running_witness :
  Monitor.start (busy_monitor true, []) =
    (Ok tt, (busy_monitor true, [EvLog WARNING MsgAlreadyRunning])) /\
  Monitor.start (busy_monitor false, []) =
    (Ok tt, (fresh_session (busy_monitor false),
             [EvLog INFO MsgMonitorStarted; EvThreadStart "ExitWave-Monitor"])).
Proof.
  split.
  - apply (start_while_running (busy_monitor true) []). reflexivity.
  - apply (start_while_running (busy_monitor false) []). reflexivity.
Defined.

(** ** executor.py: the exit path always returns *)

Lemma place_attempts_total kite p req attempts :
  forall result,
    runs any_event (Executor.place_attempts kite p req attempts result)
      (fun _ => True).
Proof.
  induction attempts as [| attempt rest IH]; intros result; simpl.
  - runs_step. now apply runs_ret.
  - eapply runs_bind with (mid := fun _ => True).
    + apply runs_try_call with (e := EvPlaceOrder req)
        (f := fun tr => kite_place_order kite tr req).
      reflexivity.
    + intros [e | oid] _.
      * runs_step.
        eapply runs_bind with (mid := fun _ => True).
        -- apply runs_when. now apply runs_emit.
        -- intros _ _. apply IH.
      * runs_step. now apply runs_ret.
Qed.

Lemma place_exit_order_total kite p dry_run :
  runs any_event (Executor.place_exit_order kite p dry_run) (fun _ => True).
Proof.
  unfold Executor.place_exit_order.
  destruct (negb _).
  - now apply runs_ret.
  - destruct dry_run.
    + runs_step. now apply runs_ret.
    + apply place_attempts_total.
Qed.

Lemma place_each_total kite positions dry_run :
  forall acc,
    runs any_event (Executor.place_each kite positions dry_run acc)
      (fun _ => True).
Proof.
  induction positions as [| p ps IH]; intros acc; simpl.
  - now apply runs_ret.
  - eapply runs_bind; [apply place_exit_order_total |].
    intros r _. apply IH.
Qed.

Lemma exit_all_positions_total kite positions dry_run :
  runs any_event (Executor.exit_all_positions kite positions dry_run)
    (fun _ => True).
Proof.
  unfold Executor.exit_all_positions.
  destruct positions as [| p ps].
  - runs_step. now apply runs_ret.
  - runs_step.
    eapply runs_bind; [apply place_each_total |].
    intros results _.
    eapply runs_bind with (mid := fun _ => True).
    + destruct (_ =? _)%nat.
      * now apply runs_emit.
      * runs_step. apply runs_for_each. intros r. apply runs_when.
        now apply runs_emit.
    + intros _ _. now apply runs_ret.
Qed.

Lemma verify_each_total kite rs :
  forall acc, runs any_event (Executor.verify_each kite rs acc) (fun _ => True).
Proof.
  induction rs as [| r rs IH]; intros acc; simpl.
  - now apply runs_ret.
  - eapply runs_bind with (mid := fun _ => True).
    + apply runs_try_call
        with (e := EvOrderHistory (Positions.dget (Executor.order_id r) ""))
             (f := fun tr => kite_order_history kite tr
                               (Positions.dget (Executor.order_id r) "")).
      reflexivity.
    + intros [e | history] _.
      * runs_step. apply IH.
      * destruct (Executor.latest_entry history) as [latest |]; [| apply IH].
        destruct (String.eqb _ "COMPLETE"); [runs_step; apply IH |].
        destruct (String.eqb _ "REJECTED"); runs_step; apply IH.
Qed.

Lemma verify_exit_orders_total kite results dry_run :
  runs any_event (Executor.verify_exit_orders kite results dry_run)
    (fun _ => True).
Proof.
  unfold Executor.verify_exit_orders. destruct dry_run.
  - runs_step. now apply runs_ret.
  - destruct (List.filter _ results) as [| r rs] eqn:E.
    + now apply runs_ret.
    + runs_step. runs_step. apply verify_each_total.
Qed.

(** ** monitor.py: stepping through the worker's monad *)

Lemma bind_update {B} f (k : unit -> M Monitor.MonSt B) s tr :
  bind (Monitor.update f) k (s, tr) = k tt (f s, tr).
Proof. reflexivity. Qed.

Lemma bind_read {A B} (f : Monitor.PositionMonitor -> A)
  (k : A -> M Monitor.MonSt B) s tr :
  bind (Monitor.read f) k (s, tr) = k (f s) (s, tr).
Proof. reflexivity. Qed.

Lemma bind_lift {A B} (m : M Trace A) (k : A -> M Monitor.MonSt B) s tr a tr' :
  m tr = (Ok a, tr') ->
  bind (Monitor.lift m) k (s, tr) = k a (s, tr').
Proof.
  intros E. unfold bind, Monitor.lift. cbn [fst snd]. now rewrite E.
Qed.

Lemma bind_lift_raise {A B} (m : M Trace A) (k : A -> M Monitor.MonSt B)
  s tr e tr' :
  m tr = (Raise e, tr') ->
  bind (Monitor.lift m) k (s, tr) = (Raise e, (s, tr')).
Proof.
  intros E. unfold bind, Monitor.lift. cbn [fst snd]. now rewrite E.
Qed.

Lemma bind_lift_log {B} lvl msg (k : unit -> M Monitor.MonSt B) s tr :
  bind (Monitor.lift (log lvl msg)) k (s, tr) = k tt (s, EvLog lvl msg :: tr).
Proof. reflexivity. Qed.

Lemma bind_bind {St A B C} (m : M St A) (k : A -> M St B) (h : B -> M St C) st :
  bind (bind m k) h st = bind m (fun a => bind (k a) h) st.
Proof.
  unfold bind. destruct (m st) as [[a | e] st']; reflexivity.
Qed.

Lemma bind_ret {St A B} (a : A) (k : A -> M St B) st :
  bind (ret a) k st = k a st.
Proof. reflexivity. Qed.

Lemma bind_ok {St A B} (m : M St A) (k : A -> M St B) st a st' :
  m st = (Ok a, st') -> bind m k st = k a st'.
Proof. intros E. unfold bind. now rewrite E. Qed.

Lemma bind_raise {St A B} (m : M St A) (k : A -> M St B) st e st' :
  m st = (Raise e, st') -> bind m k st = (Raise e, st').
Proof. intros E. unfold bind. now rewrite E. Qed.

Lemma bind_for_each_update {A B} (xs : list A)
  (f : A -> Monitor.PositionMonitor -> Monitor.PositionMonitor)
  (k : unit -> M Monitor.MonSt B) s tr :
  bind (for_each xs (fun x => Monitor.update (f x))) k (s, tr) =
  k tt (fold_left (fun acc x => f x acc) xs s, tr).
Proof.
  revert s. induction xs as [| x xs IH]; intros s; simpl.
  - reflexivity.
  - rewrite bind_bind, bind_update. apply IH.
Qed.

Lemma record_symbols_fold positions s :
  fold_left (fun acc pos =>
               Monitor.set_exited_symbols
                 ({[ Positions.tradingsymbol pos ]} ∪ Monitor._exited_symbols acc)
                 acc) positions s =
  Monitor.set_exited_symbols
    (record_symbols positions (Monitor._exited_symbols s)) s.
Proof.
  revert s. induction positions as [| p ps IH]; intros s; simpl.
  - now destruct s.
  - rewrite IH. reflexivity.
Qed.

(** The exit event: it always returns, counts one more exit, appends the
    results, records the symbols and stamps the clock reading taken after
    the orders (and, when not a dry run, their verification). *)
Lemma trigger_exit_effect now_IST positions total_pnl self tr :
  exists results evs,
    let t := now_IST (evs ++ tr) in
    Monitor._trigger_exit now_IST positions total_pnl (self, tr) =
      (Ok tt, (after_exit self positions results t,
               EvLog INFO (MsgExitComplete (Monitor._exit_count self + 1)) ::
               EvNow t :: evs ++ tr)).
Proof.
  unfold Monitor._trigger_exit.
  rewrite bind_update, bind_read, bind_lift_log.
  cbn [Monitor.set_exit_count Monitor._exit_count].
  set (tr0 := EvLog CRITICAL _ :: tr).
  destruct (runs_for_each any_event positions
              (fun pos => log INFO (MsgExitingPosition (Positions.tradingsymbol pos)))
              (fun pos => runs_emit any_event _ (fun _ => True) eq_refl I) tr0)
    as ([] & evs1 & E1 & _ & _).
  rewrite (bind_lift _ _ _ _ _ _ E1), !bind_read.
  cbn [Monitor.kite Monitor.config].
  destruct (exit_all_positions_total (Monitor.kite self) positions
              (Config.dry_run (Monitor.config self)) (evs1 ++ tr0))
    as (results & evs2 & E2 & _ & _).
  rewrite (bind_lift _ _ _ _ _ _ E2), bind_update, bind_for_each_update.
  rewrite record_symbols_fold.
  assert (Hv : exists evs3 : Trace,
             forall B (k : unit -> M Monitor.MonSt B) s,
               bind (if negb (Config.dry_run (Monitor.config self))
                     then bind (Monitor.lift
                                  (Executor.verify_exit_orders (Monitor.kite self)
                                     results (Config.dry_run (Monitor.config self))))
                               (fun _ => ret tt)
                     else ret tt) k (s, evs2 ++ evs1 ++ tr0) =
               k tt (s, evs3 ++ evs2 ++ evs1 ++ tr0)).
  { destruct (Config.dry_run (Monitor.config self)); simpl negb; cbv iota.
    - exists []. reflexivity.
    - destruct (verify_exit_orders_total (Monitor.kite self) results false
                  (evs2 ++ evs1 ++ tr0)) as (b & evs3 & E3 & _ & _).
      exists evs3. intros B k s.
      now rewrite bind_bind, (bind_lift _ _ _ _ _ _ E3). }
  destruct Hv as (evs3 & Hv). rewrite Hv.
  unfold Monitor.read_clock at 1.
  erewrite bind_lift by reflexivity.
  rewrite bind_update, bind_read.
  exists results, (evs3 ++ evs2 ++ evs1 ++ [EvLog CRITICAL
             (MsgInitiatingExit (Monitor._exit_count self + 1)
                (length positions) total_pnl)]).
  cbv zeta. rewrite <- !app_assoc. simpl app. fold tr0.
  reflexivity.
Qed.

(** ** monitor.py: the threshold evaluator *)

Lemma Qltb_lt x y : Monitor.Qltb x y = true <-> (x < y)%Q.
Proof.
  unfold Monitor.Qltb. rewrite negb_true_iff. split.
  - intros H. apply Qnot_le_lt. intros Hle.
    apply Qle_bool_iff in Hle. congruence.
  - intros H. destruct (Qle_bool y x) eqn:E; [| reflexivity].
    apply Qle_bool_iff in E. exfalso. eapply Qlt_not_le; eassumption.
Qed.

Lemma band_breach r :
  Monitor.band r = Monitor.BREACH <-> (1 <=? r)%float = true.
Proof.
  unfold Monitor.band. destruct (1 <=? r)%float; [tauto |].
  destruct (0.8 <=? r)%float; [split; discriminate |].
  destruct (0.5 <=? r)%float; split; discriminate.
Qed.

Lemma bind_when_update {B} (b : bool) f (k : unit -> M Monitor.MonSt B) s tr :
  bind (when b (Monitor.update f)) k (s, tr) =
  k tt ((if b then f s else s), tr).
Proof. now destruct b. Qed.

Lemma bind_when_log {B} (b : bool) lvl msg (k : unit -> M Monitor.MonSt B) s tr :
  bind (when b (Monitor.lift (log lvl msg))) k (s, tr) =
  k tt (s, (if b then [EvLog lvl msg] else []) ++ tr).
Proof. now destruct b. Qed.

Lemma observed_steps self total_pnl :
  (if (total_pnl <? Monitor._peak_loss self)%float
   then Monitor.set_peak_loss total_pnl
          (Monitor.set_last_pnl (Some total_pnl)
             (Monitor.set_poll_count (Monitor._poll_count self + 1) self))
   else Monitor.set_last_pnl (Some total_pnl)
          (Monitor.set_poll_count (Monitor._poll_count self + 1) self)) =
  observed self total_pnl.
Proof.
  unfold observed. now destruct (total_pnl <? Monitor._peak_loss self)%float.
Qed.

Lemma when_lift_log (b : bool) lvl msg s tr :
  when b (Monitor.lift (log lvl msg)) (s, tr) =
  (Ok tt, (s, (if b then [EvLog lvl msg] else []) ++ tr)).
Proof. now destruct b. Qed.

(** One poll against a snapshot with open positions.  The monitor first
    becomes [observed self pnl] and the clock is read.  A loss against a zero
    threshold raises; otherwise a ratio of at least one runs the exit event,
    and any other ratio adds the line of its band (and at most the periodic
    listing) and nothing else. *)
Lemma poll_positions_open now_IST self tr raw positions pnl ratio :
  positions = open_positions (Monitor.config self) raw ->
  pnl = Positions.calculate_total_pnl positions ->
  ratio = Monitor.loss_ratio pnl (Config.max_loss (Monitor.config self)) ->
  kite_positions (Monitor.kite self) tr = inr raw ->
  positions <> [] ->
  exists o self' evs,
    Monitor._poll_positions now_IST (self, tr) =
      (o, (self', evs ++ EvNow (now_IST (EvPositions :: tr)) :: EvPositions :: tr)) /\
    ((pnl <? 0)%float && (Config.max_loss (Monitor.config self) =? 0)%float = true ->
       o = Raise (mkExc "ZeroDivisionError" "float division by zero") /\
       self' = observed self pnl /\ evs = []) /\
    ((pnl <? 0)%float && (Config.max_loss (Monitor.config self) =? 0)%float = false ->
       o = Ok tt /\
       ((1 <=? ratio)%float = true ->
          (exists results t,
             self' = after_exit (observed self pnl) positions results t) /\
          In (EvLog CRITICAL (MsgBreached pnl (length positions))) evs) /\
       ((1 <=? ratio)%float = false ->
          logged_only self self' pnl (length positions) evs
            (band_line pnl ratio (length positions)))).
Proof.
  intros Epositions Epnl Eratio Hk Hne.
  unfold Monitor._poll_positions.
  rewrite bind_update, !bind_read.
  cbn [Monitor.kite Monitor.config Monitor.set_poll_count].
  rewrite (bind_lift _ _ _ _ _ _
             (open_positions_of_snapshot _
                (Config.exchanges (Monitor.config self)) _ _ Hk)).
  fold (open_positions (Monitor.config self) raw). rewrite <- Epositions.
  destruct positions as [| p ps] eqn:Epos; [congruence |].
  rewrite <- Epos in *. clear Hne. rewrite <- Epnl.
  rewrite bind_update, bind_read, bind_when_update.
  cbn [Monitor._peak_loss Monitor.set_last_pnl Monitor.set_poll_count].
  change (Monitor.mkMonitor (Monitor.kite self) (Monitor.config self)
            (Monitor._close_hour self) (Monitor._close_minute self)
            (Monitor._thread self) (Monitor._stop_event self)
            (Monitor._exit_count self) (Monitor._all_exit_results self)
            (Monitor._exited_symbols self) (Monitor._last_exit_time self)
            (Monitor._exit_cooldown self) (Monitor._poll_count self + 1)
            (Some pnl) (Monitor._peak_loss self))
    with (Monitor.set_last_pnl (Some pnl)
            (Monitor.set_poll_count (Monitor._poll_count self + 1) self)).
  rewrite observed_steps.
  unfold Monitor.read_clock at 1. erewrite bind_lift by reflexivity.
  set (t0 := now_IST (EvPositions :: tr)).
  destruct ((pnl <? 0)%float &&
            (Config.max_loss (Monitor.config self) =? 0)%float) eqn:Hz.
  { eexists _, _, []. split; [reflexivity |].
    split; [| discriminate]. intros _. repeat split. }
  rewrite bind_ret. rewrite <- Eratio. unfold Monitor.band.
  destruct (1 <=? ratio)%float eqn:H1; cbv iota.
  - rewrite bind_lift_log.
    destruct (trigger_exit_effect now_IST positions pnl (observed self pnl)
                (EvLog CRITICAL (MsgBreached pnl (length positions))
                 :: EvNow t0 :: EvPositions :: tr)) as (results & evs & E).
    cbv zeta in E. rewrite E.
    eexists _, _, (_ :: _ :: evs ++ [EvLog CRITICAL (MsgBreached pnl (length positions))]).
    split; [| split; [discriminate | intros _; split; [reflexivity | split]]].
    + simpl app. rewrite <- app_assoc. reflexivity.
    + intros _. split; [eauto |].
      right. right. apply in_or_app. right. left. reflexivity.
    + discriminate.
  - assert (Hquiet : forall lvl msg,
              band_line pnl ratio (length positions) = EvLog lvl msg ->
              exists o self' evs,
                bind (Monitor.lift (log lvl msg))
                  (fun _ =>
                     bind (Monitor.read Monitor._poll_count)
                       (fun pc =>
                          when (pc mod 30 =? 0)
                            (Monitor.lift
                               (log INFO (MsgPositionsSummary (length positions) pnl)))))
                  (observed self pnl, EvNow t0 :: EvPositions :: tr) =
                (o, (self', evs ++ EvNow t0 :: EvPositions :: tr)) /\
                (false = true ->
                   o = Raise (mkExc "ZeroDivisionError" "float division by zero") /\
                   self' = observed self pnl /\ evs = []) /\
                (false = false ->
                   o = Ok tt /\
                   (false = true ->
                      (exists results t,
                         self' = after_exit (observed self pnl) positions results t) /\
                      In (EvLog CRITICAL (MsgBreached pnl (length positions))) evs) /\
                   (false = false ->
                      logged_only self self' pnl (length positions) evs
                        (band_line pnl ratio (length positions))))).
    { intros lvl msg Hline.
      rewrite bind_lift_log, bind_read, when_lift_log.
      exists (Ok tt), (observed self pnl),
        (periodic_listing (Monitor._poll_count self + 1) (length positions) pnl ++
         [EvLog lvl msg]).
      split.
      - unfold periodic_listing. cbn [Monitor._poll_count observed].
        rewrite <- app_assoc. reflexivity.
      - split; [discriminate |]. intros _. split; [reflexivity |].
        split; [discriminate |]. intros _. rewrite Hline. split; reflexivity. }
    destruct (0.8 <=? ratio)%float eqn:H2; [| destruct (0.5 <=? ratio)%float eqn:H3];
      cbv iota; apply Hquiet; unfold band_line; rewrite ?H2, ?H3; reflexivity.
Qed.

Lemma positive_threshold_divides pnl threshold :
  (0 <? threshold)%float = true ->
  (pnl <? 0)%float && (threshold =? 0)%float = false.
Proof.
  intros Hthr. rewrite (float_positive_nonzero _ Hthr). apply andb_false_r.
Qed.

Lemma float_ltb_leb_trans (x y z : float) :
  (x <? y)%float = true -> (y <=? z)%float = true -> (x <? z)%float = true.
Proof.
  rewrite !FloatAxioms.ltb_spec, FloatAxioms.leb_spec. unfold SFltb, SFleb.
  destruct (Prim2SF x) as [sx | sx | | sx mx ex],
           (Prim2SF y) as [sy | sy | | sy my ey],
           (Prim2SF z) as [sz | sz | | sz mz ez]; simpl; try discriminate;
    try (destruct sx); try (destruct sy); try (destruct sz); simpl;
    try discriminate; try reflexivity;
    change (Pos.compare_cont Eq) with Pos.compare;
    destruct (Z.compare_spec ex ey), (Z.compare_spec ey ez), (Z.compare_spec ex ez);
    simpl; try discriminate; try reflexivity; try lia; subst;
    destruct (Pos.compare_spec mx my), (Pos.compare_spec my mz), (Pos.compare_spec mx mz);
    simpl; try discriminate; try reflexivity; try lia.
Qed.

(** A ratio below a bound of a band is below every higher bound. *)
Lemma below_band (lo hi r : float) :
  (lo <? hi)%float = true -> (r <? lo)%float = true ->
  (hi <=? r)%float = false.
Proof.
  intros Hb Hr. destruct (hi <=? r)%float eqn:E; [| reflexivity].
  pose proof (float_ltb_leb_trans _ _ _ Hb E) as H1.
  pose proof (float_ltb_trans _ _ _ Hr H1) as H2.
  rewrite FloatAxioms.ltb_spec in H2. unfold SFltb in H2.
  destruct (Prim2SF r) as [s | s | | s m e]; simpl in H2;
    try destruct s; simpl in H2; try discriminate.
  - rewrite Z.compare_refl in H2.
    change (Pos.compare_cont Eq m m) with (Pos.compare m m) in H2.
    rewrite Pos.compare_refl in H2. discriminate.
  - rewrite Z.compare_refl in H2.
    change (Pos.compare_cont Eq m m) with (Pos.compare m m) in H2.
    rewrite Pos.compare_refl in H2. discriminate.
Qed.

(** C1. With a positive threshold the poll aggregates [pnl], computes the
    ratio [|pnl| / threshold] for a negative P&L and 0 otherwise (in
    binary64, as the code does), and runs the exit event, counting one more
    exit, if and only if the ratio is at least 1.0.  In every other case
    the monitor is exactly [observed self pnl] and the poll adds log lines
    only: the APPROACHING warning for a ratio in [0.8, 1.0), the ELEVATED
    warning for a ratio in [0.5, 0.8), and the plain line below 0.5. *)
Theorem breach_iff_loss_ratio_reaches_one
  (now_IST : Trace -> Q) (self : Monitor.PositionMonitor) (tr : Trace)
  (raw : RawPositions) :
  let threshold := Config.max_loss (Monitor.config self) in
  let positions := open_positions (Monitor.config self) raw in
  let pnl := Positions.calculate_total_pnl positions in
  let ratio := Monitor.loss_ratio pnl threshold in
  let n := length positions in
  let tr1 := EvNow (now_IST (EvPositions :: tr)) :: EvPositions :: tr in
  (0 <? threshold)%float = true ->
  kite_positions (Monitor.kite self) tr = inr raw ->
  positions <> [] ->
  ((pnl <? 0)%float = true -> ratio = (abs pnl / threshold)%float) /\
  ((pnl <? 0)%float = false -> ratio = 0%float) /\
  exists self' evs,
    Monitor._poll_positions now_IST (self, tr) = (Ok tt, (self', evs ++ tr1)) /\
    (Monitor._exit_count self' = Monitor._exit_count self + 1 <->
     (1 <=? ratio)%float = true) /\
    ((1 <=? ratio)%float = true ->
       (exists results t,
          self' = after_exit (observed self pnl) positions results t) /\
       In (EvLog CRITICAL (MsgBreached pnl n)) evs) /\
    ((1 <=? ratio)%float = false ->
       self' = observed self pnl /\ forallb is_log evs = true) /\
    ((0.8 <=? ratio)%float = true /\ (ratio <? 1)%float = true ->
       logged_only self self' pnl n evs
         (EvLog WARNING (MsgApproaching pnl ratio n))) /\
    ((0.5 <=? ratio)%float = true /\ (ratio <? 0.8)%float = true ->
       logged_only self self' pnl n evs
         (EvLog WARNING (MsgElevated pnl ratio n))) /\
    ((ratio <? 0.5)%float = true ->
       logged_only self self' pnl n evs (EvLog INFO (MsgNormal pnl n))).
Proof.
  intros threshold positions pnl ratio n tr1 Hthr Hk Hne.
  split; [| split].
  - intros Hneg. unfold ratio, Monitor.loss_ratio. now rewrite Hneg.
  - intros Hneg. unfold ratio, Monitor.loss_ratio. now rewrite Hneg.
  - destruct (poll_positions_open now_IST self tr raw positions pnl ratio
                eq_refl eq_refl eq_refl Hk Hne)
      as (o & self' & evs & Hrun & _ & Hok).
    destruct (Hok (positive_threshold_divides pnl threshold Hthr))
      as (-> & Hbreach & Hquiet).
    exists self', evs. split; [exact Hrun |].
    assert (Hbelow : forall lo, (lo <? 1)%float = true ->
              (ratio <? lo)%float = true -> (1 <=? ratio)%float = false)
      by (intros lo; apply below_band).
    assert (Hnext : forall b, is_nan b = false ->
              (ratio <? b)%float = true -> (b <=? ratio)%float = false).
    { intros b Hb Hlt. destruct (b <=? ratio)%float eqn:E; [| reflexivity].
      pose proof (proj2 (float_leb_number _ _ E)) as Hr.
      apply (float_leb_false b ratio Hb Hr) in Hlt. congruence. }
    split; [| split; [exact Hbreach | split; [| split; [| split]]]].
    + split.
      * intros Hcount. destruct (1 <=? ratio)%float eqn:H1; [reflexivity |].
        destruct (Hquiet eq_refl) as [-> _]. simpl in Hcount. lia.
      * intros Hge. destruct (Hbreach Hge) as [(results & t & ->) _]. reflexivity.
    + intros H1. destruct (Hquiet H1) as [-> ->]. split; [reflexivity |].
      rewrite forallb_app. unfold periodic_listing, band_line.
      destruct (_ mod 30 =? 0); destruct (0.8 <=? ratio)%float;
        try destruct (0.5 <=? ratio)%float; reflexivity.
    + intros [H8 Hlt].
      assert (H1 : (1 <=? ratio)%float = false) by (apply Hnext; [reflexivity | exact Hlt]).
      destruct (Hquiet H1) as [-> ->]. unfold band_line. rewrite H8.
      split; reflexivity.
    + intros [H5 Hlt].
      assert (H8 : (0.8 <=? ratio)%float = false) by (apply Hnext; [reflexivity | exact Hlt]).
      assert (H1 : (1 <=? ratio)%float = false) by (apply (Hbelow 0.8%float); [reflexivity | exact Hlt]).
      destruct (Hquiet H1) as [-> ->]. unfold band_line. rewrite H8, H5.
      split; reflexivity.
    + intros Hlt.
      assert (H5 : (0.5 <=? ratio)%float = false) by (apply Hnext; [reflexivity | exact Hlt]).
      assert (H8 : (0.8 <=? ratio)%float = false)
        by (apply (below_band 0.5%float); [reflexivity | exact Hlt]).
      assert (H1 : (1 <=? ratio)%float = false) by (apply (Hbelow 0.5%float); [reflexivity | exact Hlt]).
      destruct (Hquiet H1) as [-> ->]. unfold band_line. rewrite H8, H5.
      split; reflexivity.
Qed.

Lemma breach_iff_loss_ratio_reaches_one_witness :
  (exists self' evs,
     Monitor._poll_positions (clock_at (36000 # 1)) (monitor_A 5000 true, []) =
       (Ok tt, (self', evs ++ [EvNow (36000 # 1); EvPositions])) /\
     Monitor._exit_count self' = 1) /\
  (exists self' evs,
     Monitor._poll_positions (clock_at (36000 # 1)) (monitor_A 10000 true, []) =
       (Ok tt, (self', evs ++ [EvNow (36000 # 1); EvPositions])) /\
     self' = observed (monitor_A 10000 true) (-5500) /\
     evs = [EvLog WARNING (MsgElevated (-5500) 0.55 2)]).
Proof.
  split.
  - destruct (breach_iff_loss_ratio_reaches_one (clock_at (36000 # 1))
                (monitor_A 5000 true) [] snapshot_A)
      as (_ & _ & self' & evs & Hrun & Hiff & _).
    + reflexivity.
    + reflexivity.
    + discriminate.
    + exists self', evs. split; [exact Hrun |].
      apply Hiff. reflexivity.
  - destruct (breach_iff_loss_ratio_reaches_one (clock_at (36000 # 1))
                (monitor_A 10000 true) [] snapshot_A)
      as (_ & _ & self' & evs & Hrun & _ & _ & _ & _ & Helevated & _).
    + reflexivity.
    + reflexivity.
    + discriminate.
    + exists self', evs. split; [exact Hrun |].
      apply Helevated. split; reflexivity.
Defined.

(** The binary64 ratio decides.  Three losses whose decimal values add up to
    the threshold 8081.63 give the ratio 0.9999999999999999 and no exit;
    three that add up to 5000 give exactly 1.0 and the exit runs. *)
Example ratio_is_computed_in_binary64 :
  let just_below :=
    snapshot [raw_position "A" "NFO" 1 (-3536.11);
              raw_position "B" "NFO" 1 (-2216.87);
              raw_position "C" "NFO" 1 (-2328.65)] in
  let exactly :=
    snapshot [raw_position "A" "NFO" 1 (-150.95);
              raw_position "B" "NFO" 1 (-390.85);
              raw_position "C" "NFO" 1 (-4458.2)] in
  let poll raw threshold :=
    fst (snd (Monitor._poll_positions (clock_at (36000 # 1))
                (Monitor.init (scripted_kite (inr raw) [] (fun _ => inl network_down))
                   (config_A threshold true) 15 30, []))) in
  Monitor.loss_ratio
    (Positions.calculate_total_pnl
       (open_positions (config_A 8081.63 true) just_below)) 8081.63 =
    0.9999999999999999%float /\
  Monitor._exit_count (poll just_below 8081.63%float) = 0 /\
  Monitor._last_pnl (poll just_below 8081.63%float) = Some (-8081.629999999999)%float /\
  Monitor._exit_count (poll exactly 5000%float) = 1.
Proof. vm_compute. repeat split. Qed.

(** ** monitor.py: one pass of the loop *)

(** Whatever the broker answers, a poll fetches the positions first, counts
    itself, and leaves the stop event alone; against a snapshot with open
    positions it stores their aggregate as the last P&L. *)
Lemma poll_positions_effect now_IST self tr :
  exists o self' evs,
    Monitor._poll_positions now_IST (self, tr) =
      (o, (self', evs ++ EvPositions :: tr)) /\
    Monitor._poll_count self' = Monitor._poll_count self + 1 /\
    Monitor._stop_event self' = Monitor._stop_event self /\
    Monitor.config self' = Monitor.config self /\
    (forall raw,
       kite_positions (Monitor.kite self) tr = inr raw ->
       open_positions (Monitor.config self) raw <> [] ->
       Monitor._last_pnl self' =
         Some (Positions.calculate_total_pnl
                 (open_positions (Monitor.config self) raw))).
Proof.
  destruct (kite_positions (Monitor.kite self) tr) as [e | raw] eqn:Hk.
  - unfold Monitor._poll_positions.
    rewrite bind_update, !bind_read.
    cbn [Monitor.kite Monitor.config Monitor.set_poll_count].
    erewrite bind_lift_raise.
    2: { unfold Positions.get_open_fno_positions, Positions.fetch_positions,
           bind, call_positions. rewrite Hk. reflexivity. }
    eexists _, _, []. split; [reflexivity |].
    repeat split. intros raw Hraw. discriminate.
  - destruct (open_positions (Monitor.config self) raw) as [| p ps] eqn:Eo.
    + unfold Monitor._poll_positions.
      rewrite bind_update, !bind_read.
      cbn [Monitor.kite Monitor.config Monitor.set_poll_count].
      rewrite (bind_lift _ _ _ _ _ _
                 (open_positions_of_snapshot _
                    (Config.exchanges (Monitor.config self)) _ _ Hk)).
      fold (open_positions (Monitor.config self) raw). rewrite Eo.
      rewrite bind_read, when_lift_log.
      eexists _, _, _. split; [reflexivity |].
      repeat split. intros raw' Hraw' Hne.
      injection Hraw' as <-. congruence.
    + assert (Hne : open_positions (Monitor.config self) raw <> [])
        by (rewrite Eo; discriminate).
      destruct (poll_positions_open now_IST self tr raw _ _ _
                  eq_refl eq_refl eq_refl Hk Hne)
        as (o & self' & evs & Hrun & Hraise & Hok).
      exists o, self', (evs ++ [EvNow (now_IST (EvPositions :: tr))]).
      split; [rewrite Hrun, <- app_assoc; reflexivity |].
      assert (Hself :
        self' = observed self (Positions.calculate_total_pnl
                                 (open_positions (Monitor.config self) raw)) \/
        exists results t,
          self' = after_exit
                    (observed self (Positions.calculate_total_pnl
                                      (open_positions (Monitor.config self) raw)))
                    (open_positions (Monitor.config self) raw) results t).
      { destruct ((_ <? 0)%float && (_ =? 0)%float) eqn:Hz.
        - left. now destruct (Hraise eq_refl) as (_ & -> & _).
        - destruct (Hok eq_refl) as (_ & Hbreach & Hquiet).
          destruct (1 <=? Monitor.loss_ratio
                            (Positions.calculate_total_pnl
                               (open_positions (Monitor.config self) raw))
                            (Config.max_loss (Monitor.config self)))%float eqn:H1.
          + right. now destruct (Hbreach eq_refl).
          + left. now destruct (Hquiet eq_refl). }
      destruct Hself as [-> | (results & t & ->)]; repeat split;
        intros raw' Hraw' _; injection Hraw' as <-; reflexivity.
Qed.

Lemma one_second_fits (TIMEOUT_MAX : positive) : (1 >? Z.pos TIMEOUT_MAX) = false.
Proof. now destruct TIMEOUT_MAX. Qed.

(** A wait on the stop event, by the state of the event and the timeout. *)
Lemma bind_stop_wait {B} TIMEOUT_MAX secs (k : unit -> M Monitor.MonSt B) self tr :
  bind (Monitor.stop_wait TIMEOUT_MAX secs) k (self, tr) =
  if Monitor._stop_event self then k tt (self, tr)
  else if secs >? Z.pos TIMEOUT_MAX then (Raise (wait_overflow secs), (self, tr))
  else k tt (self, EvWait secs :: tr).
Proof.
  unfold Monitor.stop_wait. rewrite bind_bind, bind_read.
  destruct (Monitor._stop_event self); [reflexivity |].
  destruct (secs >? Z.pos TIMEOUT_MAX); reflexivity.
Qed.

(** The guarded poll and the wait that follows it, from the poll's outcome. *)
Lemma poll_tick_returned now_IST TIMEOUT_MAX st1 self2 tr2 :
  Monitor._poll_positions now_IST st1 = (Ok tt, (self2, tr2)) ->
  let interval := Config.poll_interval (Monitor.config self2) in
  Monitor.poll_tick now_IST TIMEOUT_MAX st1 =
    if Monitor._stop_event self2 then (Ok Monitor.NextIteration, (self2, tr2))
    else if interval >? Z.pos TIMEOUT_MAX
         then (Raise (wait_overflow interval), (self2, tr2))
         else (Ok Monitor.NextIteration, (self2, EvWait interval :: tr2)).
Proof.
  intros E interval. unfold Monitor.poll_tick.
  unfold bind at 1, try_. rewrite E.
  rewrite bind_ret, bind_read, bind_stop_wait. reflexivity.
Qed.

Lemma poll_tick_raised now_IST TIMEOUT_MAX st1 e self2 tr2 :
  Monitor._poll_positions now_IST st1 = (Raise e, (self2, tr2)) ->
  Monitor._stop_event self2 = false ->
  let interval := Config.poll_interval (Monitor.config self2) in
  let failed := EvLog ERROR (MsgPollError (exc_str e)) :: tr2 in
  Monitor.poll_tick now_IST TIMEOUT_MAX st1 =
    if is_auth_failure e
    then (Ok Monitor.NextIteration,
          (Monitor.set_stop_event true self2, EvLog ERROR MsgAuthError :: failed))
    else if interval >? Z.pos TIMEOUT_MAX
         then (Raise (wait_overflow interval),
               (self2, EvLog WARNING (MsgWillRetry (interval * 2)) :: failed))
         else (Ok Monitor.NextIteration,
               (self2,
                EvWait interval :: EvWait interval ::
                EvLog WARNING (MsgWillRetry (interval * 2)) :: failed)).
Proof.
  intros E Hstop interval failed. unfold Monitor.poll_tick.
  unfold bind at 1, try_. rewrite E.
  rewrite !bind_bind, bind_lift_log.
  unfold Monitor._handle_poll_error. fold (is_auth_failure e).
  destruct (is_auth_failure e).
  - rewrite bind_bind, bind_lift_log, bind_update, bind_read, bind_stop_wait.
    reflexivity.
  - rewrite !bind_bind, bind_read, !bind_bind, bind_lift_log.
    rewrite bind_stop_wait, Hstop. fold interval.
    destruct (interval >? Z.pos TIMEOUT_MAX) eqn:Hgt; [reflexivity |].
    rewrite bind_read, bind_stop_wait, Hstop. cbn [Monitor.config].
    fold interval. rewrite Hgt. reflexivity.
Qed.

(** The market-hours test reads the clock once and leaves the monitor
    alone.  With a valid close time it answers; otherwise it raises, an
    OverflowError when the hour or the minute does not fit a C [int] and a
    ValueError when both fit. *)
Lemma is_market_open_cases now_IST self tr :
  exists o,
    Monitor._is_market_open now_IST (self, tr) =
      (o, (self, EvNow (now_IST tr) :: tr)) /\
    (valid_close self ->
       o = Ok (Monitor.Qltb (now_IST tr)
                 (Monitor.close_time (now_IST tr)
                    (Monitor._close_hour self) (Monitor._close_minute self)))) /\
    (~ valid_close self ->
       exists e, o = Raise e /\
         exc_type e =
           if Monitor.fits_c_int (Monitor._close_hour self) &&
              Monitor.fits_c_int (Monitor._close_minute self)
           then "ValueError" else "OverflowError").
Proof.
  unfold Monitor._is_market_open.
  unfold Monitor.read_clock at 1. erewrite bind_lift by reflexivity.
  rewrite !bind_read. unfold valid_close, Monitor.fits_c_int.
  destruct ((-2147483648 <=? Monitor._close_hour self) &&
            (Monitor._close_hour self <=? 2147483647)) eqn:Fh;
    simpl negb; cbv iota.
  2: { eexists. split; [reflexivity |]. split.
       - intros Hv. exfalso. lia.
       - intros _. eexists. split; reflexivity. }
  destruct ((-2147483648 <=? Monitor._close_minute self) &&
            (Monitor._close_minute self <=? 2147483647)) eqn:Fm;
    simpl negb; cbv iota.
  2: { eexists. split; [reflexivity |]. split.
       - intros Hv. exfalso. lia.
       - intros _. eexists. split; reflexivity. }
  destruct ((0 <=? Monitor._close_hour self) && (Monitor._close_hour self <=? 23))
    eqn:Hh; simpl negb; cbv iota.
  - destruct ((0 <=? Monitor._close_minute self) &&
              (Monitor._close_minute self <=? 59)) eqn:Hm; simpl negb; cbv iota.
    + eexists. split; [reflexivity |]. split; [reflexivity |].
      intros Hn. exfalso. apply Hn. lia.
    + eexists. split; [reflexivity |]. split.
      * intros Hv. exfalso. lia.
      * intros _. eexists. split; reflexivity.
  - eexists. split; [reflexivity |]. split.
    + intros Hv. exfalso. lia.
    + intros _. eexists. split; reflexivity.
Qed.

(** C9, counterexample.  With a close time of 24:00 the market-hours test
    of the first pass raises a ValueError that nothing catches: the pass does
    not end normally, and the failure ends the loop. *)
Lemma invalid_close_time_is_not_handled : ~ every_tick_failure_is_handled.
Proof.
  intros H.
  destruct (H (clock_at (36000 # 1)) timeout_max_64
              (Monitor.init kite_A (config_A 5000 false) 24 0) [] eq_refl)
    as (c & st' & E).
  vm_compute in E. discriminate.
Qed.

(** C9, amended.  A failure raised by the poll itself is caught and
    classified.  When its type name contains ["Token"] or its message,
    lowercased, contains ["token"], the stop event is set without any wait
    and the loop is left at its next test: no further poll is made.  Any
    other failure is logged with a warning; when the poll interval is at most
    [TIMEOUT_MAX] the two waits of one interval follow with the stop event
    still clear, so the loop runs its next pass, and with a larger interval
    the first of these waits raises an OverflowError that ends the pass.  A
    failure of the market-hours test is outside the guarded poll: it is not
    classified and ends the loop. *)
Theorem poll_failure_classified
  (now_IST : Trace -> Q) (TIMEOUT_MAX : positive)
  (self : Monitor.PositionMonitor) (tr : Trace) :
  Monitor._stop_event self = false ->
  (forall (e : PyException) (self2 : Monitor.PositionMonitor) (tr2 : Trace),
     Monitor._poll_positions now_IST (self, tr) = (Raise e, (self2, tr2)) ->
     let interval := Config.poll_interval (Monitor.config self2) in
     let failed := EvLog ERROR (MsgPollError (exc_str e)) :: tr2 in
     let warned := EvLog WARNING (MsgWillRetry (interval * 2)) :: failed in
     (is_auth_failure e = true ->
        let stopped :=
          (Monitor.set_stop_event true self2, EvLog ERROR MsgAuthError :: failed) in
        Monitor.poll_tick now_IST TIMEOUT_MAX (self, tr) =
          (Ok Monitor.NextIteration, stopped) /\
        forall fuel,
          Monitor.while_loop now_IST TIMEOUT_MAX (S fuel) stopped =
          (Ok true, stopped)) /\
     (is_auth_failure e = false -> interval <= Z.pos TIMEOUT_MAX ->
        let polling := (self2, EvWait interval :: EvWait interval :: warned) in
        Monitor.poll_tick now_IST TIMEOUT_MAX (self, tr) =
          (Ok Monitor.NextIteration, polling) /\
        Monitor._stop_event (fst polling) = false /\
        forall fuel,
          Monitor.while_loop now_IST TIMEOUT_MAX (S fuel) polling =
          bind (Monitor.loop_body now_IST TIMEOUT_MAX)
               (fun c => match c with
                         | Monitor.Break => ret true
                         | Monitor.NextIteration =>
                             Monitor.while_loop now_IST TIMEOUT_MAX fuel
                         end) polling) /\
     (is_auth_failure e = false -> Z.pos TIMEOUT_MAX < interval ->
        Monitor.poll_tick now_IST TIMEOUT_MAX (self, tr) =
          (Raise (wait_overflow interval), (self2, warned)) /\
        exc_type (wait_overflow interval) = "OverflowError")) /\
  (~ valid_close self ->
     exists e,
       (exc_type e = "ValueError" \/ exc_type e = "OverflowError") /\
       forall fuel,
         Monitor.while_loop now_IST TIMEOUT_MAX (S fuel) (self, tr) =
         (Raise e, (self, EvNow (now_IST tr) :: tr))).
Proof.
  intros Hstop. split.
  - intros e self2 tr2 Hrun interval failed warned.
    assert (Hstop2 : Monitor._stop_event self2 = false).
    { destruct (poll_positions_effect now_IST self tr)
        as (o & self' & evs & Hrun' & _ & Hs & _).
      rewrite Hrun in Hrun'. injection Hrun' as _ <- _. congruence. }
    pose proof (poll_tick_raised now_IST TIMEOUT_MAX (self, tr) e self2 tr2
                  Hrun Hstop2) as Htick.
    cbv zeta in Htick. fold interval in Htick.
    split; [| split].
    + intros Hauth. rewrite Hauth in Htick. cbv zeta.
      split; [exact Htick |]. intros fuel. reflexivity.
    + intros Hauth Hle. rewrite Hauth in Htick.
      replace (interval >? Z.pos TIMEOUT_MAX) with false in Htick by lia.
      cbv zeta. split; [exact Htick |]. split; [exact Hstop2 |].
      intros fuel. cbn [Monitor.while_loop].
      rewrite bind_read, Hstop2. reflexivity.
    + intros Hauth Hgt. rewrite Hauth in Htick.
      replace (interval >? Z.pos TIMEOUT_MAX) with true in Htick by lia.
      split; [exact Htick | reflexivity].
  - intros Hinvalid.
    destruct (is_market_open_cases now_IST self tr) as (o & E & _ & Hraise).
    destruct (Hraise Hinvalid) as (e & -> & Htype).
    exists e. split.
    + rewrite Htype. destruct (_ && _); [now left | now right].
    + intros fuel. cbn [Monitor.while_loop].
      rewrite bind_read, Hstop. unfold Monitor.loop_body.
      rewrite bind_bind. now rewrite (bind_raise _ _ _ _ _ E).
Qed.

Lemma poll_failure_classified_witness :
  (Monitor.poll_tick (clock_at (36000 # 1)) timeout_max_64
     (Monitor.init kite_token_expired (config_A 5000 false) 15 30, []) =
   (Ok Monitor.NextIteration,
    (Monitor.set_stop_event true
       (Monitor.set_poll_count 1
          (Monitor.init kite_token_expired (config_A 5000 false) 15 30)),
     [EvLog ERROR MsgAuthError;
      EvLog ERROR (MsgPollError "Incorrect api_key or access_token.");
      EvPositions]))) /\
  (Monitor.poll_tick (clock_at (36000 # 1)) timeout_max_64
     (Monitor.init kite_down (config_A 5000 false) 15 30, []) =
   (Ok Monitor.NextIteration,
    (Monitor.set_poll_count 1
       (Monitor.init kite_down (config_A 5000 false) 15 30),
     [EvWait 10; EvWait 10; EvLog WARNING (MsgWillRetry 20);
      EvLog ERROR (MsgPollError "connection refused");
      EvPositions]))).
Proof.
  split.
  - destruct (poll_failure_classified (clock_at (36000 # 1)) timeout_max_64
                (Monitor.init kite_token_expired (config_A 5000 false) 15 30)
                [] eq_refl) as [Hpoll _].
    destruct (Hpoll token_expired
                (Monitor.set_poll_count 1
                   (Monitor.init kite_token_expired (config_A 5000 false) 15 30))
                [EvPositions] eq_refl) as (Hauth & _).
    exact (proj1 (Hauth eq_refl)).
  - destruct (poll_failure_classified (clock_at (36000 # 1)) timeout_max_64
                (Monitor.init kite_down (config_A 5000 false) 15 30)
                [] eq_refl) as [Hpoll _].
    destruct (Hpoll network_down
                (Monitor.set_poll_count 1
                   (Monitor.init kite_down (config_A 5000 false) 15 30))
                [EvPositions] eq_refl) as (_ & Htransient & _).
    refine (proj1 (Htransient eq_refl _)). vm_compute. discriminate.
Defined.

(** A poll interval above [TIMEOUT_MAX]: the broker is down, the failure
    is logged as transient, and the wait that should precede the retry raises
    instead, which ends the pass. *)
Example oversized_interval_ends_the_pass :
  Monitor.poll_tick (clock_at (36000 # 1)) timeout_max_64
    (Monitor.init kite_down
       {| Config.max_loss := 5000; Config.poll_interval := 9223372037;
          Config.market_close := "15:30"; Config.exchanges := ["NFO"; "BFO"];
          Config.dry_run := false |} 15 30, []) =
  (Raise (mkExc "OverflowError" "timestamp too large to convert to C _PyTime_t"),
   (Monitor.set_poll_count 1
      (Monitor.init kite_down
         {| Config.max_loss := 5000; Config.poll_interval := 9223372037;
            Config.market_close := "15:30"; Config.exchanges := ["NFO"; "BFO"];
            Config.dry_run := false |} 15 30),
    [EvLog WARNING (MsgWillRetry 18446744074);
     EvLog ERROR (MsgPollError "connection refused"); EvPositions])).
Proof. reflexivity. Qed.

(** ** monitor.py: the cooldown gate *)

Lemma bind_is_market_open {B} now_IST (k : bool -> M Monitor.MonSt B) self tr :
  valid_close self ->
  bind (Monitor._is_market_open now_IST) k (self, tr) =
  k (Monitor.Qltb (now_IST tr)
       (Monitor.close_time (now_IST tr)
          (Monitor._close_hour self) (Monitor._close_minute self)))
    (self, EvNow (now_IST tr) :: tr).
Proof.
  intros Hvalid.
  destruct (is_market_open_cases now_IST self tr) as (o & E & Hok & _).
  rewrite (Hok Hvalid) in E. now rewrite (bind_ok _ _ _ _ _ E).
Qed.

Lemma bind_cooldown_gate_cooling {B} now_IST TIMEOUT_MAX
  (k : bool -> M Monitor.MonSt B) self tr t0 :
  Monitor._last_exit_time self = Some t0 ->
  Monitor._stop_event self = false ->
  (now_IST tr - t0 < inject_Z (Monitor._exit_cooldown self))%Q ->
  bind (Monitor.cooldown_gate now_IST TIMEOUT_MAX) k (self, tr) =
  k true
    (self,
     EvWait 1 ::
     cooldown_log (Monitor.py_int (inject_Z (Monitor._exit_cooldown self)
                                   - (now_IST tr - t0))) ++
     EvNow (now_IST tr) :: tr).
Proof.
  intros Hlast Hstop Hlt. apply Qltb_lt in Hlt.
  unfold Monitor.cooldown_gate.
  rewrite bind_bind, bind_read, Hlast.
  rewrite bind_bind. unfold Monitor.read_clock at 1.
  erewrite bind_lift by reflexivity.
  rewrite bind_bind, bind_read, Hlt.
  rewrite !bind_bind, bind_when_log.
  rewrite bind_bind, bind_stop_wait, Hstop, one_second_fits.
  rewrite bind_ret. reflexivity.
Qed.

Lemma bind_cooldown_gate_elapsed {B} now_IST TIMEOUT_MAX
  (k : bool -> M Monitor.MonSt B) self tr t0 :
  Monitor._last_exit_time self = Some t0 ->
  (inject_Z (Monitor._exit_cooldown self) <= now_IST tr - t0)%Q ->
  bind (Monitor.cooldown_gate now_IST TIMEOUT_MAX) k (self, tr) =
  k false (self, EvNow (now_IST tr) :: tr).
Proof.
  intros Hlast Hge.
  assert (Hf : Monitor.Qltb (now_IST tr - t0)
                 (inject_Z (Monitor._exit_cooldown self)) = false).
  { destruct (Monitor.Qltb _ _) eqn:E; [| reflexivity].
    apply Qltb_lt in E. exfalso. exact (Qlt_not_le _ _ E Hge). }
  unfold Monitor.cooldown_gate.
  rewrite bind_bind, bind_read, Hlast.
  rewrite bind_bind. unfold Monitor.read_clock at 1.
  erewrite bind_lift by reflexivity.
  rewrite bind_bind, bind_read, Hf.
  rewrite bind_ret. reflexivity.
Qed.

Lemma cooldown_log_only_logs remaining :
  forallb is_log (cooldown_log remaining) = true.
Proof.
  unfold cooldown_log. now destruct (_ && _).
Qed.

(** The exit event stamps the last-exit time with a clock reading. *)
Lemma trigger_exit_stamps now_IST positions total_pnl self tr :
  exists self' tr' t,
    Monitor._trigger_exit now_IST positions total_pnl (self, tr) =
      (Ok tt, (self', tr')) /\
    Monitor._last_exit_time self' = Some t /\
    In (EvNow t) tr'.
Proof.
  destruct (trigger_exit_effect now_IST positions total_pnl self tr)
    as (results & evs & E).
  cbv zeta in E. eexists _, _, _. split; [exact E |].
  split; [reflexivity |]. right. left. reflexivity.
Qed.

(** C4. With a last-exit time stamped, the stop event clear and the market
    open, one pass of the loop reads the clock and compares the elapsed time
    with the cooldown.  While it is less, the pass ends after a one-second
    wait: the monitor is unchanged and neither a fetch nor an aggregation
    happens.  From the cooldown on, the pass is a poll: the positions are
    fetched, the poll is counted, and the last P&L becomes the sum of the
    [pnl] field over the counted positions of the snapshot fetched in this
    pass; the pass ends normally when the poll interval is a timeout the
    platform accepts. *)
Theorem cooldown_gates_polling
  (now_IST : Trace -> Q) (TIMEOUT_MAX : positive)
  (self : Monitor.PositionMonitor) (tr : Trace) (t0 : Q) :
  Monitor._stop_event self = false ->
  Monitor._last_exit_time self = Some t0 ->
  valid_close self ->
  market_open self (now_IST tr) ->
  let tr1 := EvNow (now_IST tr) :: tr in
  let t := now_IST tr1 in
  let tr2 := EvNow t :: tr1 in
  let cooldown := inject_Z (Monitor._exit_cooldown self) in
  ((t - t0 < cooldown)%Q ->
     exists logs,
       Monitor.loop_body now_IST TIMEOUT_MAX (self, tr) =
         (Ok Monitor.NextIteration, (self, EvWait 1 :: logs ++ tr2)) /\
       forallb is_log logs = true) /\
  ((cooldown <= t - t0)%Q ->
     exists o self' evs,
       Monitor.loop_body now_IST TIMEOUT_MAX (self, tr) =
         (o, (self', evs ++ EvPositions :: tr2)) /\
       Monitor.loop_body now_IST TIMEOUT_MAX (self, tr) =
         Monitor.poll_tick now_IST TIMEOUT_MAX (self, tr2) /\
       (Config.poll_interval (Monitor.config self) <= Z.pos TIMEOUT_MAX ->
          o = Ok Monitor.NextIteration) /\
       Monitor._poll_count self' = Monitor._poll_count self + 1 /\
       (forall raw,
          kite_positions (Monitor.kite self) tr2 = inr raw ->
          open_positions (Monitor.config self) raw <> [] ->
          Monitor._last_pnl self' =
            Some (aggregate_pnl_spec (Config.exchanges (Monitor.config self))
                    (Positions.dget (raw_net raw) [])))).
Proof.
  intros Hstop Hlast Hvalid Hopen tr1 t tr2 cooldown.
  apply Qltb_lt in Hopen.
  assert (Hbody :
            Monitor.loop_body now_IST TIMEOUT_MAX (self, tr) =
            bind (Monitor.cooldown_gate now_IST TIMEOUT_MAX)
                 (fun cooling => if cooling then ret Monitor.NextIteration
                                 else Monitor.poll_tick now_IST TIMEOUT_MAX)
                 (self, tr1)).
  { unfold Monitor.loop_body.
    rewrite (bind_is_market_open _ _ _ _ Hvalid), Hopen. reflexivity. }
  split.
  - intros Hlt. eexists. split.
    + rewrite Hbody.
      rewrite (bind_cooldown_gate_cooling _ _ _ _ _ _ Hlast Hstop Hlt).
      reflexivity.
    + apply cooldown_log_only_logs.
  - intros Hge.
    assert (Htick : Monitor.loop_body now_IST TIMEOUT_MAX (self, tr) =
                    Monitor.poll_tick now_IST TIMEOUT_MAX (self, tr2)).
    { rewrite Hbody.
      now rewrite (bind_cooldown_gate_elapsed _ _ _ _ _ _ Hlast Hge). }
    destruct (poll_positions_effect now_IST self tr2)
      as (o & self' & evs & Hrun & Hcount & Hs & Hcfg & Hpnl).
    assert (Hs' : Monitor._stop_event self' = false) by congruence.
    assert (Hsum : forall raw,
              kite_positions (Monitor.kite self) tr2 = inr raw ->
              open_positions (Monitor.config self) raw <> [] ->
              Monitor._last_pnl self' =
                Some (aggregate_pnl_spec (Config.exchanges (Monitor.config self))
                        (Positions.dget (raw_net raw) []))).
    { intros raw Hk Hne. rewrite <- total_pnl_of_snapshot. now apply Hpnl. }
    set (interval := Config.poll_interval (Monitor.config self)).
    destruct o as [[] | e].
    + pose proof (poll_tick_returned now_IST TIMEOUT_MAX _ _ _ Hrun) as Hr.
      cbv zeta in Hr. rewrite Hs', Hcfg in Hr. fold interval in Hr.
      destruct (interval >? Z.pos TIMEOUT_MAX) eqn:Hgt.
      * exists (Raise (wait_overflow interval)), self', evs.
        split; [rewrite Htick; exact Hr |]. split; [exact Htick |].
        split; [intros Hle; lia |]. split; [exact Hcount | exact Hsum].
      * exists (Ok Monitor.NextIteration), self', (EvWait interval :: evs).
        split; [rewrite Htick; exact Hr |]. split; [exact Htick |].
        split; [reflexivity |]. split; [exact Hcount | exact Hsum].
    + pose proof (poll_tick_raised now_IST TIMEOUT_MAX _ _ _ _ Hrun Hs') as Hr.
      cbv zeta in Hr. rewrite Hcfg in Hr. fold interval in Hr.
      destruct (is_auth_failure e).
      * exists (Ok Monitor.NextIteration), (Monitor.set_stop_event true self'),
          (EvLog ERROR MsgAuthError :: EvLog ERROR (MsgPollError (exc_str e)) :: evs).
        split; [rewrite Htick; exact Hr |]. split; [exact Htick |].
        split; [reflexivity |]. split; [exact Hcount | exact Hsum].
      * destruct (interval >? Z.pos TIMEOUT_MAX) eqn:Hgt.
        -- exists (Raise (wait_overflow interval)), self',
             (EvLog WARNING (MsgWillRetry (interval * 2)) ::
              EvLog ERROR (MsgPollError (exc_str e)) :: evs).
           split; [rewrite Htick; exact Hr |]. split; [exact Htick |].
           split; [intros Hle; lia |]. split; [exact Hcount | exact Hsum].
        -- exists (Ok Monitor.NextIteration), self',
             (EvWait interval :: EvWait interval ::
              EvLog WARNING (MsgWillRetry (interval * 2)) ::
              EvLog ERROR (MsgPollError (exc_str e)) :: evs).
           split; [rewrite Htick; exact Hr |]. split; [exact Htick |].
           split; [reflexivity |]. split; [exact Hcount | exact Hsum].
Qed.

Lemma cooldown_gates_polling_witness :
  (exists logs,
     Monitor.loop_body (clock_at (5 # 1)) timeout_max_64 (exited_monitor, []) =
       (Ok Monitor.NextIteration,
        (exited_monitor, EvWait 1 :: logs ++ [EvNow (5 # 1); EvNow (5 # 1)])) /\
     forallb is_log logs = true) /\
  (exists self' evs,
     Monitor.loop_body (clock_at (31 # 1)) timeout_max_64 (exited_monitor, []) =
       (Ok Monitor.NextIteration,
        (self', evs ++ [EvPositions; EvNow (31 # 1); EvNow (31 # 1)])) /\
     Monitor._poll_count self' = 1 /\
     Monitor._last_pnl self' = Some (-5500)%float).
Proof.
  assert (Hvalid : valid_close exited_monitor) by (unfold valid_close; simpl; lia).
  split.
  - destruct (cooldown_gates_polling (clock_at (5 # 1)) timeout_max_64
                exited_monitor [] 0%Q eq_refl eq_refl Hvalid) as [Hcool _].
    + reflexivity.
    + apply Hcool. reflexivity.
  - destruct (cooldown_gates_polling (clock_at (31 # 1)) timeout_max_64
                exited_monitor [] 0%Q eq_refl eq_refl Hvalid) as [_ Hpoll].
    + reflexivity.
    + destruct Hpoll as (o & self' & evs & Hrun & _ & Hok & Hcount & Hpnl).
      * vm_compute. discriminate.
      * exists self', evs. rewrite Hok in Hrun by (vm_compute; discriminate).
        split; [exact Hrun |]. split; [exact Hcount |].
        apply (Hpnl snapshot_A); [reflexivity | discriminate].
Defined.

(** ** End-to-end scenarios of the spec *)

(** Scenario A: a long X at -3000 and a short Y at -2500 against a threshold
    of 5000 breach it; the exit sells 50 X and buys 25 Y, in that order. *)
Example scenario_A_breach :
  let st := snd (Monitor._poll_positions (clock_at (36000 # 1))
                   (monitor_A 5000 false, [])) in
  map (fun r => (Executor.transaction_type r, Executor.quantity r,
                 Executor.tradingsymbol r, Executor.success r))
      (Monitor._all_exit_results (fst st)) =
    [("SELL", 50, "X", true); ("BUY", 25, "Y", true)] /\
  Monitor._last_pnl (fst st) = Some (-5500)%float /\
  Monitor._last_exit_time (fst st) = Some (36000 # 1) /\
  count_events is_place_order (snd st) = 2%nat.
Proof. vm_compute. repeat split. Qed.

(** Scenario B: the same positions against 10000 are in the ELEVATED band
    and no order is placed. *)
Example scenario_B_elevated :
  let st := snd (Monitor._poll_positions (clock_at (36000 # 1))
                   (monitor_A 10000 false, [])) in
  Monitor._exit_count (fst st) = 0 /\
  snd st = [EvLog WARNING (MsgElevated (-5500) 0.55 2);
            EvNow (36000 # 1); EvPositions].
Proof. vm_compute. repeat split. Qed.

(** Scenario C: past the market close the loop is left on its first pass,
    without a fetch and without an exit. *)
Example scenario_C_market_close :
  let run := Monitor._monitor_loop (clock_at (56000 # 1)) timeout_max_64 1
               (monitor_A 5000 false, []) in
  fst run = Ok true /\
  Monitor._exit_count (fst (snd run)) = 0 /\
  count_events is_broker_call (snd (snd run)) = 0%nat.
Proof. vm_compute. repeat split. Qed.

(* ================================================================== *)
(** * Further properties of the code *)

(** ** executor.py: one result per position, bounded broker traffic *)

Lemma sleep_total_app (a b : Trace) :
  sleep_total (a ++ b) = sleep_total a + sleep_total b.
Proof.
  induction a as [| e a IH]; simpl; [reflexivity |].
  destruct e; rewrite ?IH; lia.
Qed.

Lemma exit_events_nil dry : exit_events dry 0 [].
Proof.
  unfold exit_events, count_events. simpl. destruct dry; repeat split; lia.
Qed.

Lemma exit_events_app dry n1 n2 (e1 e2 : Trace) :
  exit_events dry n1 e1 -> exit_events dry n2 e2 ->
  exit_events dry (n1 + n2) (e2 ++ e1).
Proof.
  unfold exit_events. intros (A1 & B1 & C1 & D1) (A2 & B2 & C2 & D2).
  rewrite !count_events_app, sleep_total_app, A1, A2, B1, B2, C1, C2.
  repeat split; try reflexivity.
  destruct dry.
  - destruct D1 as [-> ->], D2 as [-> ->]. split; reflexivity.
  - lia.
Qed.

Lemma exit_events_log dry lvl msg :
  is_exit_announcement (EvLog lvl msg) = false ->
  exit_events dry 0 [EvLog lvl msg].
Proof.
  intros H. unfold exit_events. rewrite !count_events_cons, H.
  unfold count_events. simpl. destruct dry; repeat split; lia.
Qed.

Lemma is_open_quantity p :
  Positions.is_open p = true <-> Positions.quantity p <> 0.
Proof.
  unfold Positions.is_open. rewrite negb_true_iff, Z.eqb_neq. tauto.
Qed.

(** One position: the result and the traffic of [place_exit_order]. *)
Lemma place_exit_order_summary kite p dry tr :
  exists r evs,
    Executor.place_exit_order kite p dry tr = (Ok r, evs ++ tr) /\
    result_for p r /\
    exit_events dry (if Positions.is_open p then 1 else 0) evs.
Proof.
  destruct (Positions.is_open p) eqn:Hopen.
  - apply is_open_quantity in Hopen as Hq.
    destruct dry.
    + unfold Executor.place_exit_order.
      rewrite (closing_transaction_truthy p Hq). simpl negb. cbv iota.
      eexists _, [_]. split; [reflexivity |]. split.
      * unfold result_for. rewrite Hopen. simpl.
        repeat split; try discriminate; reflexivity.
      * unfold exit_events, count_events. simpl. repeat split.
    + rewrite (place_exit_order_live kite p tr Hq).
      assert (Hres : forall oid err,
                result_for p (closing_result p (Some oid) true err)).
      { intros oid err. unfold result_for. rewrite Hopen. simpl.
        repeat split; try discriminate; reflexivity. }
      assert (Hfail : forall err, result_for p (closing_result p None false err)).
      { intros err. unfold result_for. rewrite Hopen. simpl.
        repeat split; try discriminate; try reflexivity.
        intros H. now contradiction H. }
      destruct (kite_place_order kite tr (closing_request p))
        as [e1 | oid1] eqn:E1.
      2: { rewrite (place_attempts_placed _ _ _ _ _ _ _ _ E1).
           eexists _, [_; _]. split; [reflexivity |]. split; [apply Hres |].
           unfold exit_events, count_events. simpl. repeat split; lia. }
      rewrite (place_attempts_failed _ _ _ _ _ _ _ _ E1).
      change (1 <? Executor.max_retries) with true. cbv iota. simpl app.
      match goal with
      | |- context [Executor.place_attempts _ _ _ _ _ ?t] => set (tr1 := t)
      end.
      destruct (kite_place_order kite tr1 (closing_request p))
        as [e2 | oid2] eqn:E2.
      2: { rewrite (place_attempts_placed _ _ _ _ _ _ _ _ E2).
           eexists _, [_; _; _; _; _]. split; [reflexivity |].
           split; [apply Hres |].
           unfold exit_events, count_events. simpl. repeat split; lia. }
      rewrite (place_attempts_failed _ _ _ _ _ _ _ _ E2).
      change (2 <? Executor.max_retries) with true. cbv iota. simpl app.
      match goal with
      | |- context [Executor.place_attempts _ _ _ _ _ ?t] => set (tr2 := t)
      end.
      destruct (kite_place_order kite tr2 (closing_request p))
        as [e3 | oid3] eqn:E3.
      2: { rewrite (place_attempts_placed _ _ _ _ _ _ _ _ E3).
           eexists _, [_; _; _; _; _; _; _; _]. split; [reflexivity |].
           split; [apply Hres |].
           unfold exit_events, count_events. simpl. repeat split; lia. }
      rewrite (place_attempts_failed _ _ _ _ _ _ _ _ E3).
      change (3 <? Executor.max_retries) with false. cbv iota. simpl app.
      eexists _, [_; _; _; _; _; _; _; _; _]. split; [reflexivity |].
      split; [apply Hfail |].
      unfold exit_events, count_events. simpl. repeat split; lia.
  - assert (Hq : Positions.quantity p = 0).
    { unfold Positions.is_open in Hopen. apply negb_false_iff in Hopen. lia. }
    unfold Executor.place_exit_order, Executor._determine_exit_transaction.
    rewrite Hq. simpl.
    eexists _, []. split; [reflexivity |]. split.
    + unfold result_for. rewrite Hopen. simpl.
      repeat split; try discriminate; try reflexivity.
      intros H. now contradiction H.
    + apply exit_events_nil.
Qed.

Lemma place_each_summary kite dry positions :
  forall acc tr,
  exists new evs,
    Executor.place_each kite positions dry acc tr = (Ok (acc ++ new), evs ++ tr) /\
    Forall2 result_for positions new /\
    exit_events dry (Executor.count_if Positions.is_open positions) evs.
Proof.
  induction positions as [| p ps IH]; intros acc tr.
  - exists [], []. simpl. rewrite app_nil_r.
    split; [reflexivity |]. split; [constructor | apply exit_events_nil].
  - destruct (place_exit_order_summary kite p dry tr)
      as (r & evs1 & E1 & Hr & Hev1).
    destruct (IH (acc ++ [r]) (evs1 ++ tr)) as (new & evs2 & E2 & Hnew & Hev2).
    exists (r :: new), (evs2 ++ evs1).
    cbn [Executor.place_each]. unfold bind. rewrite E1, E2.
    rewrite <- !app_assoc. split; [reflexivity |].
    split; [now constructor |].
    replace (Executor.count_if Positions.is_open (p :: ps))
      with ((if Positions.is_open p then 1 else 0) +
            Executor.count_if Positions.is_open ps)%nat.
    + now apply exit_events_app.
    + unfold Executor.count_if. simpl. now destruct (Positions.is_open p).
Qed.

Lemma failure_lines_events dry (results : list Executor.ExitOrderResult) tr :
  exists evs,
    for_each results
      (fun r => when (negb (Executor.success r))
                  (log ERROR (MsgFailedOrder (Executor.tradingsymbol r)
                                (Executor.error r)))) tr = (Ok tt, evs ++ tr) /\
    exit_events dry 0 evs.
Proof.
  revert tr. induction results as [| r rs IH]; intros tr.
  - exists []. split; [reflexivity | apply exit_events_nil].
  - cbn [for_each]. unfold bind at 1.
    destruct (Executor.success r); simpl.
    + destruct (IH tr) as (evs & E & H). exists evs. now rewrite E.
    + destruct (IH (EvLog ERROR (MsgFailedOrder (Executor.tradingsymbol r)
                                   (Executor.error r)) :: tr))
        as (evs & E & H).
      exists (evs ++ [EvLog ERROR (MsgFailedOrder (Executor.tradingsymbol r)
                                     (Executor.error r))]).
      rewrite <- app_assoc. split; [exact E |].
      apply (exit_events_app dry 0 0); [now apply exit_events_log | exact H].
Qed.

(** Equal traces up to the bracketing of [++] and [::]. *)
Ltac trace_eq :=
  repeat (rewrite <- ?app_assoc, <- ?app_comm_cons, ?app_nil_l);
  reflexivity.

Lemma bind_log {B} lvl msg (k : unit -> M Trace B) tr :
  bind (log lvl msg) k tr = k tt (EvLog lvl msg :: tr).
Proof. reflexivity. Qed.

(** The exit path as a whole: it returns one result per position, in
    order, and its traffic is that of its open positions. *)
Lemma exit_all_positions_summary kite positions dry tr :
  exists results evs,
    Executor.exit_all_positions kite positions dry tr = (Ok results, evs ++ tr) /\
    Forall2 result_for positions results /\
    exit_events dry (Executor.count_if Positions.is_open positions) evs.
Proof.
  unfold Executor.exit_all_positions.
  destruct positions as [| p ps].
  - exists [], [EvLog INFO MsgNoPositionsToExit].
    split; [reflexivity |]. split; [constructor |].
    now apply exit_events_log.
  - set (positions := p :: ps).
    rewrite bind_log.
    destruct (place_each_summary kite dry positions []
                (EvLog CRITICAL (MsgExitingAll dry (length positions)) :: tr))
      as (results & evs1 & E1 & Hres & Hev1).
    simpl app in E1. rewrite (bind_ok _ _ _ _ _ E1).
    set (n := Executor.count_if Positions.is_open positions) in *.
    assert (Hlog : exit_events dry 0
                     [EvLog CRITICAL (MsgExitingAll dry (length positions))])
      by now apply exit_events_log.
    assert (Hplaced : exit_events dry (0 + n)
              (evs1 ++ [EvLog CRITICAL (MsgExitingAll dry (length positions))]))
      by now apply exit_events_app.
    destruct (Executor.count_if (fun r => negb (Executor.success r)) results =? 0)%nat.
    + rewrite bind_log. exists results.
      exists ([EvLog INFO (MsgAllPlaced (Executor.count_if Executor.success results))]
              ++ evs1 ++ [EvLog CRITICAL (MsgExitingAll dry (length positions))]).
      split; [| split; [exact Hres |]].
      * unfold ret. f_equal. trace_eq.
      * replace n with (0 + n + 0)%nat by lia.
        apply exit_events_app; [exact Hplaced | now apply exit_events_log].
    + rewrite bind_bind, bind_log.
      match goal with
      | |- context [bind (for_each results ?body) _ ?t] =>
          destruct (failure_lines_events dry results t) as (evs2 & E2 & Hev2)
      end.
      rewrite (bind_ok _ _ _ _ _ E2). exists results.
      exists (evs2 ++
              [EvLog ERROR
                 (MsgSomeFailed (Executor.count_if Executor.success results)
                    (Executor.count_if
                       (fun r => negb (Executor.success r)) results))]
              ++ evs1 ++ [EvLog CRITICAL (MsgExitingAll dry (length positions))]).
      split; [| split; [exact Hres |]].
      * unfold ret. f_equal. trace_eq.
      * replace n with (0 + n + 0 + 0)%nat by lia.
        apply exit_events_app; [| exact Hev2].
        apply exit_events_app; [exact Hplaced | now apply exit_events_log].
Qed.

(** ** executor.py: the traffic of verification *)

Lemma lookup_events_nil : lookup_events 0 0 [].
Proof. unfold lookup_events, count_events. simpl. repeat split. Qed.

Lemma lookup_events_app n1 n2 z1 z2 (e1 e2 : Trace) :
  lookup_events n1 z1 e1 -> lookup_events n2 z2 e2 ->
  lookup_events (n1 + n2) (z1 + z2) (e2 ++ e1).
Proof.
  unfold lookup_events.
  intros (A1 & B1 & C1 & D1 & F1) (A2 & B2 & C2 & D2 & F2).
  rewrite !count_events_app, sleep_total_app.
  repeat split; lia.
Qed.

Lemma lookup_events_log lvl msg :
  is_exit_announcement (EvLog lvl msg) = false ->
  lookup_events 0 0 [EvLog lvl msg].
Proof.
  intros H. unfold lookup_events. rewrite !count_events_cons, H.
  unfold count_events. simpl. repeat split.
Qed.

Lemma lookup_events_history oid : lookup_events 1 0 [EvOrderHistory oid].
Proof. unfold lookup_events, count_events. simpl. repeat split. Qed.

Lemma verify_each_events kite rs :
  forall acc tr, exists b evs,
    Executor.verify_each kite rs acc tr = (Ok b, evs ++ tr) /\
    lookup_events (length rs) 0 evs.
Proof.
  induction rs as [| r rs IH]; intros acc tr.
  - exists acc, []. split; [reflexivity | apply lookup_events_nil].
  - cbn [Executor.verify_each].
    set (oid := Positions.dget (Executor.order_id r) "").
    assert (Hstep : forall (acc' : bool) (logs : Trace),
              lookup_events 0 0 logs ->
              exists b evs,
                Executor.verify_each kite rs acc'
                  (logs ++ EvOrderHistory oid :: tr) = (Ok b, evs ++ tr) /\
                lookup_events (length (r :: rs)) 0 evs).
    { intros acc' logs Hlogs.
      destruct (IH acc' (logs ++ EvOrderHistory oid :: tr)) as (b & evs & E & H).
      exists b, (evs ++ logs ++ [EvOrderHistory oid]). split.
      - rewrite E. f_equal. trace_eq.
      - replace (length (r :: rs)) with (1 + 0 + length rs)%nat by (simpl; lia).
        replace 0 with (0 + 0 + 0) by lia.
        apply lookup_events_app; [| exact H].
        apply lookup_events_app; [apply lookup_events_history | exact Hlogs]. }
    unfold bind at 1, try_, call_order_history.
    destruct (kite_order_history kite tr oid) as [e | history]; cbn [of_sum].
    + rewrite bind_log.
      apply (Hstep false [EvLog ERROR (MsgCheckError oid (exc_str e))]).
      now apply lookup_events_log.
    + destruct (Executor.latest_entry history) as [latest |].
      * destruct (String.eqb _ "COMPLETE").
        -- rewrite bind_log.
           apply (Hstep acc [EvLog INFO (MsgConfirmed (Executor.tradingsymbol r) oid)]).
           now apply lookup_events_log.
        -- destruct (String.eqb _ "REJECTED"); rewrite bind_log.
           ++ apply (Hstep false [EvLog ERROR (MsgRejected _ _ _)]).
              now apply lookup_events_log.
           ++ apply (Hstep false [EvLog WARNING (MsgPending _ _ _)]).
              now apply lookup_events_log.
      * apply (Hstep acc []). apply lookup_events_nil.
Qed.

(** Verification looks up every checked result once, sleeps two seconds
    before the first lookup, and does nothing at all when there is nothing to
    check. *)
Lemma verify_exit_orders_events kite results tr :
  exists b evs,
    Executor.verify_exit_orders kite results false tr = (Ok b, evs ++ tr) /\
    lookup_events (length (checked_results results))
      (match checked_results results with [] => 0 | _ => 2 end) evs /\
    (checked_results results = [] -> b = false /\ evs = []).
Proof.
  unfold Executor.verify_exit_orders. fold (checked_results results).
  destruct (checked_results results) as [| r rs] eqn:Ec.
  - exists false, []. split; [reflexivity |].
    split; [apply lookup_events_nil | auto].
  - rewrite bind_log. unfold bind at 1, sleep, emit.
    destruct (verify_each_events kite (r :: rs) true
                (EvSleep 2 :: EvLog INFO MsgVerifying :: tr)) as (b & evs & E & H).
    exists b, (evs ++ [EvSleep 2; EvLog INFO MsgVerifying]).
    split; [rewrite E; f_equal; trace_eq |].
    split; [| discriminate].
    replace (length (r :: rs)) with (0 + length (r :: rs))%nat by lia.
    replace 2 with (2 + 0) by lia.
    apply lookup_events_app; [| exact H].
    unfold lookup_events, count_events. simpl. repeat split.
Qed.

(** ** monitor.py: the exit event *)

Lemma count_events_nil p : count_events p [] = 0%nat.
Proof. reflexivity. Qed.

Lemma count_order_call (evs : Trace) :
  count_events is_order_call evs =
  (count_events is_place_order evs + count_events is_order_history evs)%nat.
Proof.
  induction evs as [| e evs IH]; [reflexivity |].
  rewrite !count_events_cons, IH. unfold is_order_call.
  destruct e; simpl; lia.
Qed.

Lemma checked_results_length results :
  (length (checked_results results) <= length results)%nat.
Proof.
  unfold checked_results. induction results as [| r rs IH]; simpl; [lia |].
  destruct (_ && _); simpl; lia.
Qed.

Lemma exiting_lines_events dry (positions : list Positions.FnOPosition) tr :
  exists evs,
    for_each positions
      (fun pos => log INFO (MsgExitingPosition (Positions.tradingsymbol pos))) tr =
      (Ok tt, evs ++ tr) /\
    exit_events dry 0 evs.
Proof.
  revert tr. induction positions as [| p ps IH]; intros tr.
  - exists []. split; [reflexivity | apply exit_events_nil].
  - cbn [for_each]. rewrite bind_log.
    destruct (IH (EvLog INFO (MsgExitingPosition (Positions.tradingsymbol p)) :: tr))
      as (evs & E & H).
    exists (evs ++ [EvLog INFO (MsgExitingPosition (Positions.tradingsymbol p))]).
    split; [rewrite E; f_equal; trace_eq |].
    apply (exit_events_app dry 0 0); [now apply exit_events_log | exact H].
Qed.

(** The exit event in full: the monitor it leaves, one result per position,
    and the traffic it caused. *)
Lemma trigger_exit_outcome now_IST positions total_pnl self tr :
  exists results t evs,
    Monitor._trigger_exit now_IST positions total_pnl (self, tr) =
      (Ok tt, (after_exit self positions results t, evs ++ tr)) /\
    Forall2 result_for positions results /\
    exit_event_trace (Config.dry_run (Monitor.config self))
      (Executor.count_if Positions.is_open positions) (length results) evs.
Proof.
  set (dry := Config.dry_run (Monitor.config self)).
  set (n := Executor.count_if Positions.is_open positions).
  unfold Monitor._trigger_exit.
  rewrite bind_update, bind_read, bind_lift_log.
  cbn [Monitor.set_exit_count Monitor._exit_count].
  set (announce := EvLog CRITICAL
                     (MsgInitiatingExit (Monitor._exit_count self + 1)
                        (length positions) total_pnl)).
  destruct (exiting_lines_events dry positions (announce :: tr))
    as (evs1 & E1 & H1).
  rewrite (bind_lift _ _ _ _ _ _ E1), !bind_read.
  cbn [Monitor.kite Monitor.config]. fold dry.
  destruct (exit_all_positions_summary (Monitor.kite self) positions dry
              (evs1 ++ announce :: tr)) as (results & evs2 & E2 & Hres & H2).
  rewrite (bind_lift _ _ _ _ _ _ E2), bind_update, bind_for_each_update.
  rewrite record_symbols_fold.
  assert (Hv : exists evs3 : Trace,
             (forall B (k : unit -> M Monitor.MonSt B) s,
                bind (if negb dry
                      then bind (Monitor.lift
                                   (Executor.verify_exit_orders (Monitor.kite self)
                                      results dry))
                                (fun _ => ret tt)
                      else ret tt) k (s, evs2 ++ evs1 ++ announce :: tr) =
                k tt (s, evs3 ++ evs2 ++ evs1 ++ announce :: tr)) /\
             (if dry then evs3 = []
              else exists k z, lookup_events k z evs3 /\
                               (k <= length results)%nat /\ 0 <= z <= 2)).
  { destruct dry; simpl negb; cbv iota.
    - exists []. split; reflexivity.
    - destruct (verify_exit_orders_events (Monitor.kite self) results
                  (evs2 ++ evs1 ++ announce :: tr)) as (b & evs3 & E3 & H3 & _).
      exists evs3. split.
      + intros B k s. now rewrite bind_bind, (bind_lift _ _ _ _ _ _ E3).
      + eexists _, _. split; [exact H3 |].
        split; [apply checked_results_length |].
        destruct (checked_results results); lia. }
  destruct Hv as (evs3 & Hv & H3). rewrite Hv.
  unfold Monitor.read_clock at 1.
  erewrite bind_lift by reflexivity.
  rewrite bind_update, bind_read.
  set (t := now_IST (evs3 ++ evs2 ++ evs1 ++ announce :: tr)).
  exists results, t.
  exists ([EvLog INFO (MsgExitComplete (Monitor._exit_count self + 1)); EvNow t]
          ++ evs3 ++ evs2 ++ evs1 ++ [announce]).
  split; [| split; [exact Hres |]].
  - unfold Monitor.lift, log, emit. cbn [fst snd]. f_equal. f_equal. trace_eq.
  - destruct H1 as (P1 & A1 & O1 & D1), H2 as (P2 & A2 & O2 & D2).
    unfold exit_event_trace. subst announce. fold n in D2.
    rewrite !count_order_call, !count_events_app, !sleep_total_app.
    rewrite !count_events_cons, !count_events_nil.
    cbn [is_place_order is_order_history is_exit_announcement is_positions
         sleep_total].
    rewrite P1, P2, A1, A2, O1, O2.
    destruct dry.
    + subst evs3. destruct D1 as [C1 S1], D2 as [C2 S2].
      rewrite !count_events_nil, C1, C2, S1, S2. simpl. repeat split.
    + destruct H3 as (k & z & (K1 & K2 & K3 & K4 & K5) & Hk & Hz).
      rewrite K1, K2, K3, K4, K5.
      repeat split; lia.
Qed.

(** ** monitor.py: how the session advances *)

Lemma idle_counts (evs : Trace) :
  forallb is_idle evs = true ->
  count_events is_positions evs = 0%nat /\
  count_events is_exit_announcement evs = 0%nat /\
  count_events is_order_call evs = 0%nat /\
  sleep_total evs = 0.
Proof.
  induction evs as [| e evs IH]; [repeat split |].
  simpl forallb. intros H. apply andb_prop in H. destruct H as [He Hevs].
  destruct (IH Hevs) as (A & B & C & D).
  rewrite !count_events_cons, A, B, C.
  destruct e as [| | | | | | | | lvl msg]; simpl in He; try discriminate;
    try (repeat split; simpl; assumption).
  destruct msg; simpl in He; try discriminate; repeat split; simpl; assumption.
Qed.

Lemma same_setup_refl s : same_setup s s.
Proof. repeat split. Qed.

Lemma session_advance_idle s s' (evs : Trace) :
  forallb is_idle evs = true ->
  s' = s \/ s' = Monitor.set_stop_event true s ->
  session_advance s s' evs.
Proof.
  intros Hidle Hs. destruct (idle_counts evs Hidle) as (A & B & C & D).
  unfold session_advance. rewrite A, B.
  assert (Hsetup : same_setup s s') by (destruct Hs as [-> | ->]; repeat split).
  split; [exact Hsetup |].
  split. { destruct Hs as [-> | ->]; apply not_above_refl. }
  split. { destruct Hs as [-> | ->]; cbn; lia. }
  split. { destruct Hs as [-> | ->]; cbn; lia. }
  split. { exists []. rewrite app_nil_r. now destruct Hs as [-> | ->]. }
  split. { now destruct Hs as [-> | ->]. }
  split. { destruct Hs as [-> | ->]; cbn; auto. }
  intros _. split; assumption.
Qed.

Lemma session_advance_trans s1 s2 s3 (e1 e2 : Trace) :
  session_advance s1 s2 e1 -> session_advance s2 s3 e2 ->
  session_advance s1 s3 (e2 ++ e1).
Proof.
  intros ((K1 & C1 & H1 & M1 & T1 & X1) & P1 & N1 & E1 & (m1 & R1) & S1 & St1 & D1)
         ((K2 & C2 & H2 & M2 & T2 & X2) & P2 & N2 & E2 & (m2 & R2) & S2 & St2 & D2).
  unfold session_advance.
  rewrite !count_events_app, sleep_total_app.
  split. { unfold same_setup. repeat split; congruence. }
  split. { eapply not_above_trans; eassumption. }
  split. { lia. }
  split. { lia. }
  split. { exists (m1 ++ m2). rewrite R2, R1. now rewrite app_assoc. }
  split. { etransitivity; eassumption. }
  split. { auto. }
  intros Hd. destruct (D1 Hd) as [A1 B1].
  rewrite <- C1 in Hd. destruct (D2 Hd) as [A2 B2].
  rewrite A1, A2, B1, B2. split; reflexivity.
Qed.

Lemma observed_peak_not_above self pnl :
  not_above (Monitor._peak_loss (observed self pnl)) (Monitor._peak_loss self).
Proof.
  cbn. destruct (pnl <? Monitor._peak_loss self)%float eqn:E.
  - now right.
  - now left.
Qed.

Lemma elem_of_record_symbols positions :
  forall (symbols : gset string) (x : string),
    x ∈ record_symbols positions symbols <->
    x ∈ symbols \/ In x (map Positions.tradingsymbol positions).
Proof.
  unfold record_symbols.
  induction positions as [| p ps IH]; intros symbols x; simpl.
  - tauto.
  - rewrite IH. rewrite elem_of_union, elem_of_singleton.
    split; intros H; intuition congruence.
Qed.

Lemma record_symbols_grows positions (symbols : gset string) :
  symbols ⊆ record_symbols positions symbols.
Proof.
  intros x Hx. apply elem_of_record_symbols. now left.
Qed.

(** A poll against a snapshot with open positions, up to the threshold
    test: the positions are fetched, the monitor becomes [observed self pnl]
    and the clock is read; what is left is the evaluation of the ratio. *)
Lemma poll_positions_prefix now_IST self tr raw positions pnl :
  positions = open_positions (Monitor.config self) raw ->
  pnl = Positions.calculate_total_pnl positions ->
  kite_positions (Monitor.kite self) tr = inr raw ->
  positions <> [] ->
  Monitor._poll_positions now_IST (self, tr) =
  bind (if (pnl <? 0)%float && (Config.max_loss (Monitor.config self) =? 0)%float
        then raise (mkExc "ZeroDivisionError" "float division by zero")
        else ret (Monitor.loss_ratio pnl (Config.max_loss (Monitor.config self))))
       (fun ratio =>
          match Monitor.band ratio with
          | Monitor.BREACH =>
              bind (Monitor.lift (log CRITICAL (MsgBreached pnl (length positions))))
                   (fun _ => Monitor._trigger_exit now_IST positions pnl)
          | b =>
              bind (Monitor.lift
                      (match b with
                       | Monitor.APPROACHING =>
                           log WARNING (MsgApproaching pnl ratio (length positions))
                       | Monitor.ELEVATED =>
                           log WARNING (MsgElevated pnl ratio (length positions))
                       | _ => log INFO (MsgNormal pnl (length positions))
                       end))
                   (fun _ =>
                      bind (Monitor.read Monitor._poll_count)
                           (fun pc =>
                              when (pc mod 30 =? 0)
                                (Monitor.lift
                                   (log INFO (MsgPositionsSummary
                                                (length positions) pnl)))))
          end)
       (observed self pnl,
        EvNow (now_IST (EvPositions :: tr)) :: EvPositions :: tr).
Proof.
  intros Epositions Epnl Hk Hne.
  unfold Monitor._poll_positions.
  rewrite bind_update, !bind_read.
  cbn [Monitor.kite Monitor.config Monitor.set_poll_count].
  rewrite (bind_lift _ _ _ _ _ _
             (open_positions_of_snapshot _
                (Config.exchanges (Monitor.config self)) _ _ Hk)).
  fold (open_positions (Monitor.config self) raw). rewrite <- Epositions.
  destruct positions as [| p ps] eqn:Epos; [congruence |].
  rewrite <- Epos in *. clear Hne. rewrite <- Epnl.
  rewrite bind_update, bind_read, bind_when_update.
  cbn [Monitor._peak_loss Monitor.set_last_pnl Monitor.set_poll_count].
  change (Monitor.mkMonitor (Monitor.kite self) (Monitor.config self)
            (Monitor._close_hour self) (Monitor._close_minute self)
            (Monitor._thread self) (Monitor._stop_event self)
            (Monitor._exit_count self) (Monitor._all_exit_results self)
            (Monitor._exited_symbols self) (Monitor._last_exit_time self)
            (Monitor._exit_cooldown self) (Monitor._poll_count self + 1)
            (Some pnl) (Monitor._peak_loss self))
    with (Monitor.set_last_pnl (Some pnl)
            (Monitor.set_poll_count (Monitor._poll_count self + 1) self)).
  rewrite observed_steps.
  unfold Monitor.read_clock at 1. erewrite bind_lift by reflexivity.
  reflexivity.
Qed.

(** The outcome of a poll whose ratio reaches one: the exit event runs on
    the observed monitor, with its results and its traffic. *)
Lemma poll_positions_breach now_IST self tr raw positions pnl :
  positions = open_positions (Monitor.config self) raw ->
  pnl = Positions.calculate_total_pnl positions ->
  kite_positions (Monitor.kite self) tr = inr raw ->
  positions <> [] ->
  (pnl <? 0)%float && (Config.max_loss (Monitor.config self) =? 0)%float = false ->
  (1 <=? Monitor.loss_ratio pnl (Config.max_loss (Monitor.config self)))%float = true ->
  exists results t evs,
    Monitor._poll_positions now_IST (self, tr) =
      (Ok tt, (after_exit (observed self pnl) positions results t,
               evs ++ EvLog CRITICAL (MsgBreached pnl (length positions)) ::
               EvNow (now_IST (EvPositions :: tr)) :: EvPositions :: tr)) /\
    Forall2 result_for positions results /\
    exit_event_trace (Config.dry_run (Monitor.config self))
      (Executor.count_if Positions.is_open positions) (length results) evs.
Proof.
  intros Epositions Epnl Hk Hne Hz Hge.
  rewrite (poll_positions_prefix now_IST self tr raw positions pnl
             Epositions Epnl Hk Hne).
  rewrite Hz, bind_ret.
  apply band_breach in Hge. rewrite Hge, bind_lift_log.
  destruct (trigger_exit_outcome now_IST positions pnl (observed self pnl)
              (EvLog CRITICAL (MsgBreached pnl (length positions)) ::
               EvNow (now_IST (EvPositions :: tr)) :: EvPositions :: tr))
    as (results & t & evs & E & Hres & Hev).
  exists results, t, evs. split; [exact E |]. split; [exact Hres | exact Hev].
Qed.

(** Every poll, whatever the broker answers, advances the session and
    leaves the stop event as it was. *)
Lemma poll_positions_advance now_IST self tr :
  exists o self' evs,
    Monitor._poll_positions now_IST (self, tr) = (o, (self', evs ++ tr)) /\
    session_advance self self' evs /\
    Monitor._stop_event self' = Monitor._stop_event self.
Proof.
  assert (Hcount : forall logs s',
            forallb is_idle logs = true ->
            s' = Monitor.set_poll_count (Monitor._poll_count self + 1) self \/
            (exists pnl, s' = observed self pnl) ->
            session_advance self s' (logs ++ [EvPositions]) /\
            Monitor._stop_event s' = Monitor._stop_event self).
  { intros logs s' Hidle Hs'.
    destruct (idle_counts logs Hidle) as (A & B & C & D).
    rewrite count_order_call in C.
    unfold session_advance.
    rewrite count_order_call, !count_events_app, sleep_total_app, A, B, D.
    rewrite !count_events_cons, !count_events_nil.
    cbn [is_place_order is_order_history is_exit_announcement is_positions
         sleep_total].
    destruct Hs' as [-> | (pnl & ->)].
    - split; [| reflexivity].
      split; [repeat split |].
      split; [apply not_above_refl |]. split; [cbn; lia |]. split; [cbn; lia |].
      split; [exists []; now rewrite app_nil_r |].
      split; [reflexivity |]. split; [auto |].
      intros _. split; lia.
    - split; [| reflexivity].
      split; [repeat split |].
      split; [apply observed_peak_not_above |]. split; [cbn; lia |]. split; [cbn; lia |].
      split; [exists []; now rewrite app_nil_r |].
      split; [reflexivity |]. split; [auto |].
      intros _. split; lia. }
  destruct (kite_positions (Monitor.kite self) tr) as [e | raw] eqn:Hk.
  - unfold Monitor._poll_positions.
    rewrite bind_update, !bind_read.
    cbn [Monitor.kite Monitor.config Monitor.set_poll_count].
    erewrite bind_lift_raise.
    2: { unfold Positions.get_open_fno_positions, Positions.fetch_positions,
           bind, call_positions. rewrite Hk. reflexivity. }
    eexists _, _, ([] ++ [EvPositions]). split; [reflexivity |].
    apply Hcount; [reflexivity | now left].
  - destruct (open_positions (Monitor.config self) raw) as [| p ps] eqn:Eo.
    + unfold Monitor._poll_positions.
      rewrite bind_update, !bind_read.
      cbn [Monitor.kite Monitor.config Monitor.set_poll_count].
      rewrite (bind_lift _ _ _ _ _ _
                 (open_positions_of_snapshot _
                    (Config.exchanges (Monitor.config self)) _ _ Hk)).
      fold (open_positions (Monitor.config self) raw). rewrite Eo.
      rewrite bind_read, when_lift_log.
      match goal with |- context [if ?b then _ else _] => destruct b end.
      * eexists _, _, ([EvLog INFO MsgNoOpenPositions] ++ [EvPositions]).
        split; [reflexivity |]. apply Hcount; [reflexivity | now left].
      * eexists _, _, ([] ++ [EvPositions]).
        split; [reflexivity |]. apply Hcount; [reflexivity | now left].
    + assert (Hne : open_positions (Monitor.config self) raw <> [])
        by (rewrite Eo; discriminate).
      clear Eo.
      set (positions := open_positions (Monitor.config self) raw) in *.
      set (pnl := Positions.calculate_total_pnl positions).
      set (t0 := now_IST (EvPositions :: tr)).
      destruct ((pnl <? 0)%float &&
                (Config.max_loss (Monitor.config self) =? 0)%float) eqn:Hz.
      { rewrite (poll_positions_prefix now_IST self tr raw positions pnl
                   eq_refl eq_refl Hk Hne), Hz.
        eexists _, _, ([EvNow t0] ++ [EvPositions]). split; [reflexivity |].
        apply Hcount; [reflexivity | right; eauto]. }
      destruct (1 <=? Monitor.loss_ratio pnl
                        (Config.max_loss (Monitor.config self)))%float eqn:Hge.
      * destruct (poll_positions_breach now_IST self tr raw positions pnl
                    eq_refl eq_refl Hk Hne Hz Hge)
          as (results & t & evs & E & Hres & Hev).
        rewrite E.
        exists (Ok tt), (after_exit (observed self pnl) positions results t),
          (evs ++ [EvLog CRITICAL (MsgBreached pnl (length positions));
                   EvNow t0; EvPositions]).
        split; [f_equal; f_equal; trace_eq |].
        split; [| reflexivity].
        destruct Hev as (A & B & D).
        unfold session_advance.
        rewrite !count_order_call, !count_events_app, sleep_total_app, A, B.
        rewrite !count_events_cons, !count_events_nil.
        cbn [is_place_order is_order_history is_exit_announcement is_positions
             sleep_total].
        split; [repeat split |].
        split; [apply observed_peak_not_above |].
        split; [cbn; lia |]. split; [cbn; lia |].
        split; [exists results; reflexivity |].
        split; [cbn; apply record_symbols_grows |].
        split; [auto |].
        intros Hd. cbn in Hd. rewrite Hd in D. destruct D as [D1 D2].
        rewrite count_order_call in D1. split; lia.
      * rewrite (poll_positions_prefix now_IST self tr raw positions pnl
                   eq_refl eq_refl Hk Hne), Hz, bind_ret.
        assert (Hb : Monitor.band
                       (Monitor.loss_ratio pnl
                          (Config.max_loss (Monitor.config self)))
                     <> Monitor.BREACH).
        { intros Hb. apply band_breach in Hb. congruence. }
        destruct (Monitor.band _); [congruence | | |];
          rewrite bind_lift_log, bind_read, when_lift_log;
          match goal with |- context [if ?b then _ else _] => destruct b end;
          [ eexists _, _, ([_; _; EvNow t0] ++ [EvPositions])
          | eexists _, _, ([_; EvNow t0] ++ [EvPositions])
          | eexists _, _, ([_; _; EvNow t0] ++ [EvPositions])
          | eexists _, _, ([_; EvNow t0] ++ [EvPositions])
          | eexists _, _, ([_; _; EvNow t0] ++ [EvPositions])
          | eexists _, _, ([_; EvNow t0] ++ [EvPositions]) ];
          (split; [reflexivity |];
           apply Hcount; [reflexivity | right; eauto]).
Qed.

Lemma session_advance_idle_after s s' (evs logs : Trace) :
  session_advance s s' evs ->
  forallb is_idle logs = true ->
  session_advance s s' (logs ++ evs).
Proof.
  intros Hadv Hidle.
  apply session_advance_trans with (s2 := s'); [exact Hadv |].
  apply session_advance_idle; [exact Hidle | now left].
Qed.

Lemma session_advance_idle_before s s' (evs logs : Trace) :
  session_advance s s' evs ->
  forallb is_idle logs = true ->
  session_advance s s' (evs ++ logs).
Proof.
  intros Hadv Hidle.
  apply session_advance_trans with (s2 := s); [| exact Hadv].
  apply session_advance_idle; [exact Hidle | now left].
Qed.

Lemma session_advance_stop s s' (evs logs : Trace) :
  session_advance s s' evs ->
  forallb is_idle logs = true ->
  session_advance s (Monitor.set_stop_event true s') (logs ++ evs).
Proof.
  intros Hadv Hidle.
  apply session_advance_trans with (s2 := s'); [exact Hadv |].
  apply session_advance_idle; [exact Hidle | now right].
Qed.

(** The guarded poll with its wait advances the session, whether the pass
    ends normally or the wait raises. *)
Lemma poll_tick_advance now_IST TIMEOUT_MAX self tr :
  Monitor._stop_event self = false ->
  exists o self' evs,
    Monitor.poll_tick now_IST TIMEOUT_MAX (self, tr) = (o, (self', evs ++ tr)) /\
    session_advance self self' evs.
Proof.
  intros Hstop.
  destruct (poll_positions_advance now_IST self tr)
    as (o & self1 & evs1 & E & Hadv & Hs).
  rewrite Hstop in Hs.
  set (interval := Config.poll_interval (Monitor.config self1)).
  destruct o as [[] | e].
  - pose proof (poll_tick_returned now_IST TIMEOUT_MAX _ _ _ E) as Hr.
    cbv zeta in Hr. rewrite Hs in Hr. fold interval in Hr.
    destruct (interval >? Z.pos TIMEOUT_MAX).
    + eexists _, self1, evs1. split; [exact Hr | exact Hadv].
    + eexists _, self1, ([EvWait interval] ++ evs1).
      split; [exact Hr |]. now apply session_advance_idle_after.
  - pose proof (poll_tick_raised now_IST TIMEOUT_MAX _ _ _ _ E Hs) as Hr.
    cbv zeta in Hr. fold interval in Hr.
    destruct (is_auth_failure e).
    + eexists _, (Monitor.set_stop_event true self1),
        ([EvLog ERROR MsgAuthError; EvLog ERROR (MsgPollError (exc_str e))] ++ evs1).
      split; [exact Hr |]. now apply session_advance_stop.
    + destruct (interval >? Z.pos TIMEOUT_MAX).
      * eexists _, self1,
          ([EvLog WARNING (MsgWillRetry (interval * 2));
            EvLog ERROR (MsgPollError (exc_str e))] ++ evs1).
        split; [exact Hr |]. now apply session_advance_idle_after.
      * eexists _, self1,
          ([EvWait interval; EvWait interval;
            EvLog WARNING (MsgWillRetry (interval * 2));
            EvLog ERROR (MsgPollError (exc_str e))] ++ evs1).
        split; [exact Hr |]. now apply session_advance_idle_after.
Qed.

(** The cooldown gate never touches the monitor and adds idle events only. *)
Lemma cooldown_gate_cases now_IST TIMEOUT_MAX self tr :
  exists b evs,
    Monitor.cooldown_gate now_IST TIMEOUT_MAX (self, tr) =
      (Ok b, (self, evs ++ tr)) /\
    forallb is_idle evs = true.
Proof.
  unfold Monitor.cooldown_gate. rewrite bind_read.
  destruct (Monitor._last_exit_time self) as [t0 |].
  2: { exists false, []. split; reflexivity. }
  unfold Monitor.read_clock at 1. erewrite bind_lift by reflexivity.
  rewrite bind_read.
  destruct (Monitor.Qltb _ _).
  2: { exists false, [EvNow (now_IST tr)]. split; reflexivity. }
  rewrite bind_when_log, bind_stop_wait, one_second_fits.
  destruct (Monitor._stop_event self).
  - match goal with |- context [if ?c then _ else _] => destruct c end.
    + eexists true, [_; EvNow (now_IST tr)]. split; reflexivity.
    + exists true, [EvNow (now_IST tr)]. split; reflexivity.
  - match goal with |- context [if ?c then _ else _] => destruct c end.
    + eexists true, [EvWait 1; _; EvNow (now_IST tr)]. split; reflexivity.
    + exists true, [EvWait 1; EvNow (now_IST tr)]. split; reflexivity.
Qed.

(** One pass of the loop body advances the session, however it ends. *)
Lemma loop_body_advance now_IST TIMEOUT_MAX self tr :
  Monitor._stop_event self = false ->
  exists o self' evs,
    Monitor.loop_body now_IST TIMEOUT_MAX (self, tr) = (o, (self', evs ++ tr)) /\
    session_advance self self' evs.
Proof.
  intros Hstop. unfold Monitor.loop_body.
  destruct (is_market_open_cases now_IST self tr) as (o & E & _).
  destruct o as [open | e].
  2: { rewrite (bind_raise _ _ _ _ _ E).
       eexists _, self, [EvNow (now_IST tr)]. split; [reflexivity |].
       apply session_advance_idle; [reflexivity | now left]. }
  rewrite (bind_ok _ _ _ _ _ E). cbv beta.
  destruct open; cbv beta iota delta [negb].
  2: { rewrite bind_lift_log.
       eexists _, self, [EvLog INFO MsgMarketClosed; EvNow (now_IST tr)].
       split; [reflexivity |].
       apply session_advance_idle; [reflexivity | now left]. }
  destruct (cooldown_gate_cases now_IST TIMEOUT_MAX self (EvNow (now_IST tr) :: tr))
    as (cooling & evs1 & E1 & Hidle1).
  rewrite (bind_ok _ _ _ _ _ E1). cbv beta iota.
  assert (Hidle : forallb is_idle (evs1 ++ [EvNow (now_IST tr)]) = true)
    by (rewrite forallb_app, Hidle1; reflexivity).
  destruct cooling; cbv beta iota.
  - eexists _, self, (evs1 ++ [EvNow (now_IST tr)]).
    split; [unfold ret; f_equal; f_equal; trace_eq |].
    apply session_advance_idle; [exact Hidle | now left].
  - destruct (poll_tick_advance now_IST TIMEOUT_MAX self
                (evs1 ++ EvNow (now_IST tr) :: tr) Hstop)
      as (o & self' & evs2 & E2 & Hadv).
    exists o, self', (evs2 ++ evs1 ++ [EvNow (now_IST tr)]).
    split; [etransitivity; [exact E2 |]; f_equal; f_equal; trace_eq |].
    now apply session_advance_idle_before.
Qed.

(** Any number of passes advances the session. *)
Lemma while_loop_advance now_IST TIMEOUT_MAX fuel :
  forall self tr,
  exists o self' evs,
    Monitor.while_loop now_IST TIMEOUT_MAX fuel (self, tr) =
      (o, (self', evs ++ tr)) /\
    session_advance self self' evs.
Proof.
  induction fuel as [| fuel IH]; intros self tr.
  - eexists _, self, []. split; [reflexivity |].
    apply session_advance_idle; [reflexivity | now left].
  - cbn [Monitor.while_loop]. rewrite bind_read.
    destruct (Monitor._stop_event self) eqn:Hstop.
    + eexists _, self, []. split; [reflexivity |].
      apply session_advance_idle; [reflexivity | now left].
    + destruct (loop_body_advance now_IST TIMEOUT_MAX self tr Hstop)
        as (o & self1 & evs1 & E1 & Hadv1).
      destruct o as [[|] | e].
      * rewrite (bind_ok _ _ _ _ _ E1). cbv beta iota.
        destruct (IH self1 (evs1 ++ tr)) as (o2 & self2 & evs2 & E2 & Hadv2).
        exists o2, self2, (evs2 ++ evs1).
        split; [etransitivity; [exact E2 |]; f_equal; f_equal; trace_eq |].
        now apply session_advance_trans with (s2 := self1).
      * rewrite (bind_ok _ _ _ _ _ E1). cbv beta iota.
        eexists _, self1, evs1. split; [reflexivity | exact Hadv1].
      * rewrite (bind_raise _ _ _ _ _ E1).
        eexists _, self1, evs1. split; [reflexivity | exact Hadv1].
Qed.

(** The whole worker function advances the session. *)
Lemma monitor_loop_advance now_IST TIMEOUT_MAX fuel self tr :
  exists o self' evs,
    Monitor._monitor_loop now_IST TIMEOUT_MAX fuel (self, tr) =
      (o, (self', evs ++ tr)) /\
    session_advance self self' evs.
Proof.
  unfold Monitor._monitor_loop. rewrite bind_lift_log.
  destruct (while_loop_advance now_IST TIMEOUT_MAX fuel self
              (EvLog INFO MsgBanner :: tr))
    as (o & self1 & evs1 & E1 & Hadv1).
  assert (Hadv : session_advance self self1 (evs1 ++ [EvLog INFO MsgBanner]))
    by (apply session_advance_idle_before; [exact Hadv1 | reflexivity]).
  destruct o as [[|] | e].
  - rewrite (bind_ok _ _ _ _ _ E1), bind_lift_log.
    unfold Monitor._print_session_summary. rewrite bind_bind, bind_read.
    erewrite bind_lift by reflexivity.
    eexists _, self1, ([_; EvLog INFO MsgLoopEnded] ++ evs1 ++ [EvLog INFO MsgBanner]).
    split; [unfold ret; f_equal; f_equal; trace_eq |].
    apply session_advance_idle_after; [exact Hadv | reflexivity].
  - rewrite (bind_ok _ _ _ _ _ E1). cbv beta iota.
    eexists _, self1, (evs1 ++ [EvLog INFO MsgBanner]).
    split; [unfold ret; f_equal; f_equal; trace_eq | exact Hadv].
  - rewrite (bind_raise _ _ _ _ _ E1).
    eexists _, self1, (evs1 ++ [EvLog INFO MsgBanner]).
    split; [f_equal; f_equal; trace_eq | exact Hadv].
Qed.

(* ================================================================== *)
(** * Properties beyond the claims *)

(** ** executor.py *)

(** X1. In either mode and whatever the broker answers, the exit path
    returns normally with one result per input position, in input order:
    each result names its position, is a success exactly when it carries an
    order identifier, and is the NONE result for a flat position. *)
Theorem exit_all_positions_one_result_each
  (kite : KiteConnect) (positions : list Positions.FnOPosition)
  (dry_run : bool) (tr : Trace) :
  exists results evs,
    Executor.exit_all_positions kite positions dry_run tr =
      (Ok results, evs ++ tr) /\
    Forall2 result_for positions results /\
    length results = length positions /\
    map Executor.tradingsymbol results = map Positions.tradingsymbol positions.
Proof.
  destruct (exit_all_positions_summary kite positions dry_run tr)
    as (results & evs & E & Hres & _).
  exists results, evs. split; [exact E |]. split; [exact Hres |].
  clear E. induction Hres as [| p r ps rs (Hsym & _) _ [IHlen IHmap]].
  - split; reflexivity.
  - simpl. split; congruence.
Qed.


(** X3. Against a broker whose status histories depend on the order
    identifier only, verification with [dry_run] false returns normally and
    answers [true] exactly when at least one result is checked (a success
    with a non-empty order identifier) and no checked order's lookup raises
    or shows a latest status other than COMPLETE; results that are not
    checked have no influence on the answer. *)
Theorem verify_exit_orders_answer
  (kite : KiteConnect) (hist : string -> PyException + list OrderHistoryEntry)
  (results : list Executor.ExitOrderResult) (tr : Trace) :
  (forall tr oid, kite_order_history kite tr oid = hist oid) ->
  exists evs,
    Executor.verify_exit_orders kite results false tr =
      (Ok (negb (Nat.eqb (length (checked_results results)) 0)
           && forallb (fun r => keeps_all_completed
                          (hist (Positions.dget (Executor.order_id r) "")))
                (checked_results results)),
       evs ++ tr).
Proof.
  intros Hk.
  destruct (verify_exit_orders_verdict kite hist results tr Hk) as (evs & E & _).
  exists evs. rewrite E. now destruct (checked_results results).
Qed.

Lemma verify_exit_orders_answer_witness :
  exists evs,
    Executor.verify_exit_orders kite_mixed_history [placed_Y; placed_X] false [] =
      (Ok false, evs ++ []).
Proof.
  destruct (verify_exit_orders_answer kite_mixed_history history_by_order
              [placed_Y; placed_X] []) as (evs & E).
  - reflexivity.
  - exists evs. exact E.
Defined.

(** X4. Whatever the broker answers, verification with [dry_run] false
    looks up every checked result exactly once, even after a rejection or a
    failed lookup, sleeps two seconds in all exactly when there is something
    to check, and places no order; with nothing to check it answers [false]
    and leaves the trace as it was. *)
Theorem verify_exit_orders_lookups
  (kite : KiteConnect) (results : list Executor.ExitOrderResult) (tr : Trace) :
  exists b evs,
    Executor.verify_exit_orders kite results false tr = (Ok b, evs ++ tr) /\
    count_events is_order_history evs = length (checked_results results) /\
    sleep_total evs = (match checked_results results with [] => 0 | _ => 2 end) /\
    count_events is_place_order evs = 0%nat /\
    (checked_results results = [] -> b = false /\ evs = []).
Proof.
  destruct (verify_exit_orders_events kite results tr)
    as (b & evs & E & (H & S & P & _) & Hnil).
  exists b, evs. repeat split; try assumption; now apply Hnil.
Qed.

(** ** positions.py and executor.py: side and closing direction *)

(** X5. The side of a position and its closing transaction always agree:
    LONG closes with SELL, SHORT with BUY, and a position is FLAT exactly
    when it is not open and has no closing transaction. *)
Theorem side_matches_exit_transaction (p : Positions.FnOPosition) :
  (Positions.side p = "LONG" <->
   Executor._determine_exit_transaction p = "SELL") /\
  (Positions.side p = "SHORT" <->
   Executor._determine_exit_transaction p = "BUY") /\
  (Positions.side p = "FLAT" <->
   Executor._determine_exit_transaction p = "") /\
  (Positions.side p = "FLAT" <-> Positions.is_open p = false).
Proof.
  unfold Positions.side, Executor._determine_exit_transaction, Positions.is_open.
  destruct (Z.gtb_spec (Positions.quantity p) 0) as [Hgt | Hle].
  - replace (Positions.quantity p =? 0) with false by lia.
    repeat split; intros H; try discriminate; reflexivity.
  - destruct (Z.ltb_spec (Positions.quantity p) 0) as [Hlt | Hge].
    + replace (Positions.quantity p =? 0) with false by lia.
      repeat split; intros H; try discriminate; reflexivity.
    + replace (Positions.quantity p =? 0) with true by lia.
      repeat split; intros H; try discriminate; reflexivity.
Qed.

(** ** config.py *)

Lemma is_space_upper_char c :
  PyStr.is_space (PyStr.upper_char c) = PyStr.is_space c.
Proof.
  destruct c as [b0 b1 b2 b3 b4 b5 b6 b7].
  destruct b0, b1, b2, b3, b4, b5, b6, b7; reflexivity.
Qed.

Lemma comma_upper_char c :
  Ascii.eqb (PyStr.upper_char c) "," = Ascii.eqb c ",".
Proof.
  destruct c as [b0 b1 b2 b3 b4 b5 b6 b7].
  destruct b0, b1, b2, b3, b4, b5, b6, b7; reflexivity.
Qed.

Lemma split_upper s :
  PyStr.split "," (PyStr.upper s) = map PyStr.upper (PyStr.split "," s).
Proof.
  unfold PyStr.upper. induction s as [| c s IH]; [reflexivity |].
  cbn [PyStr.map_chars PyStr.split]. rewrite comma_upper_char, IH.
  destruct (Ascii.eqb c ","); [reflexivity |].
  now destruct (PyStr.split "," s).
Qed.

Lemma lstrip_upper s :
  PyStr.lstrip (PyStr.upper s) = PyStr.upper (PyStr.lstrip s).
Proof.
  unfold PyStr.upper. induction s as [| c s IH]; [reflexivity |].
  cbn [PyStr.map_chars PyStr.lstrip]. rewrite is_space_upper_char.
  now destruct (PyStr.is_space c).
Qed.

Lemma rstrip_upper s :
  PyStr.rstrip (PyStr.upper s) = PyStr.upper (PyStr.rstrip s).
Proof.
  unfold PyStr.upper. induction s as [| c s IH]; [reflexivity |].
  cbn [PyStr.map_chars PyStr.rstrip]. rewrite IH, is_space_upper_char.
  destruct (PyStr.rstrip s); [| reflexivity].
  now destruct (PyStr.is_space c).
Qed.

Lemma build_exchanges_upper s :
  Config.build_exchanges (PyStr.upper s) = Config.build_exchanges s.
Proof.
  unfold Config.build_exchanges. rewrite split_upper, map_map.
  apply map_ext. intros e. unfold PyStr.strip.
  now rewrite lstrip_upper, rstrip_upper, upper_idem.
Qed.

(** X6. The configured venue list depends on the command-line value only
    up to letter case: two values that agree after uppercasing build the same
    list. *)
Theorem build_exchanges_ignores_case (s s' : string) :
  PyStr.upper s = PyStr.upper s' ->
  Config.build_exchanges s = Config.build_exchanges s'.
Proof.
  intros H. rewrite <- (build_exchanges_upper s), H.
  apply build_exchanges_upper.
Qed.

Lemma build_exchanges_ignores_case_witness :
  PyStr.upper "nfo, Bfo" = PyStr.upper "NFO, BFO" /\
  Config.build_exchanges "nfo, Bfo" = Config.build_exchanges "NFO, BFO".
Proof.
  split; [reflexivity |].
  apply (build_exchanges_ignores_case "nfo, Bfo" "NFO, BFO"). reflexivity.
Defined.

(** X7. [build_config] returns a configuration exactly when the API key
    and secret are both non-empty and the test [max_loss <= 0] fails, that
    is when the threshold is a positive float or NaN.  The configuration
    then carries that threshold, which is never zero, the normalized venue
    list, and a forced login whenever a manual login is asked for. *)
Theorem build_config_accepts
  (cli : Config.CliArgs) (creds : Config.KiteCredentials) :
  ((exists built, Config.build_config cli creds = inr built) <->
   Config.api_key creds <> "" /\ Config.api_secret creds <> "" /\
   ((0 <? Config.cli_max_loss cli)%float = true \/
    is_nan (Config.cli_max_loss cli) = true)) /\
  (forall built,
     Config.build_config cli creds = inr built ->
     Config.max_loss (Config.core built) = Config.cli_max_loss cli /\
     (Config.max_loss (Config.core built) =? 0)%float = false /\
     Config.exchanges (Config.core built) =
       Config.build_exchanges (Config.cli_exchanges cli) /\
     (Config.manual_login built = true -> Config.force_login built = true)).
Proof.
  unfold Config.build_config.
  assert (Ht : forall x, PyStr.truthy x = true <-> x <> "").
  { intros x. destruct x; simpl; split; intros H; congruence. }
  destruct (PyStr.truthy (Config.api_key creds)) eqn:Hk;
    destruct (PyStr.truthy (Config.api_secret creds)) eqn:Hs; simpl.
  2-4: split; [split; [intros [b Hb]; discriminate |] | intros b Hb; discriminate];
       intros (H1 & H2 & _); apply Ht in H1, H2; congruence.
  destruct (Config.cli_max_loss cli <=? 0)%float eqn:Hm.
  - split; [split; [intros [b Hb]; discriminate |] | intros b Hb; discriminate].
    intros (_ & _ & H). apply float_leb_zero_false in H. congruence.
  - split.
    + split; [| intros _; eauto].
      intros _. repeat split; try (apply Ht; assumption).
      now apply float_leb_zero_false.
    + intros built Hb. injection Hb as <-. simpl.
      split; [reflexivity |].
      split; [now apply float_leb_zero_nonzero |]. split; [reflexivity |].
      intros ->. apply orb_true_r.
Qed.

Lemma build_config_accepts_witness :
  Config.build_config (sample_cli 5000) sample_credentials <>
    inl Config.NonPositiveMaxLoss /\
  exists built,
    Config.build_config (sample_cli 5000) sample_credentials = inr built /\
    Config.exchanges (Config.core built) = ["NFO"; "BFO"] /\
    Config.force_login built = true.
Proof.
  destruct (build_config_accepts (sample_cli 5000) sample_credentials)
    as [Hiff Hbuilt].
  assert (Hex : exists built,
            Config.build_config (sample_cli 5000) sample_credentials =
              inr built).
  { apply Hiff. split; [discriminate |]. split; [discriminate |]. now left. }
  destruct Hex as [built Hb].
  split; [rewrite Hb; discriminate |].
  exists built. split; [exact Hb |].
  destruct (Hbuilt built Hb) as (_ & _ & Hex & Hforce).
  split.
  - rewrite Hex. reflexivity.
  - apply Hforce. injection Hb as <-. reflexivity.
Defined.

(** [--max-loss nan] passes the test [max_loss <= 0], and so do the
    credentials of the sample: the configuration is built with a NaN
    threshold.  Zero and negative thresholds are refused. *)
Example max_loss_nan_is_accepted :
  (exists built,
     Config.build_config (sample_cli nan) sample_credentials = inr built /\
     is_nan (Config.max_loss (Config.core built)) = true) /\
  Config.build_config (sample_cli 0) sample_credentials =
    inl Config.NonPositiveMaxLoss /\
  Config.build_config (sample_cli (-5000)) sample_credentials =
    inl Config.NonPositiveMaxLoss.
Proof. split; [eexists; split; reflexivity | split; reflexivity]. Qed.

(** ** positions.py *)

(** X8. A snapshot entry without a ["quantity"] key (or with quantity 0) is
    never an open position: dropping it from the snapshot changes neither
    the open positions nor their total P&L. *)
Theorem entry_without_quantity_ignored
  (exchanges : list string) (pre post : list RawPosition) (pos : RawPosition) :
  Positions.dget (raw_quantity pos) 0 = 0 ->
  let with_entry :=
    List.filter Positions.is_open
      (Positions.parse_fno_positions (snapshot (pre ++ pos :: post)) exchanges) in
  let without :=
    List.filter Positions.is_open
      (Positions.parse_fno_positions (snapshot (pre ++ post)) exchanges) in
  with_entry = without /\
  Positions.calculate_total_pnl with_entry = Positions.calculate_total_pnl without.
Proof.
  intros Hq with_entry without.
  assert (E : with_entry = without).
  { unfold with_entry, without, Positions.parse_fno_positions. simpl.
    rewrite !open_positions_filter, !List.filter_app. simpl.
    unfold counted at 2. rewrite Hq. simpl. now rewrite andb_false_r. }
  split; [exact E | now rewrite E].
Qed.

Lemma entry_without_quantity_ignored_witness :
  List.filter Positions.is_open
    (Positions.parse_fno_positions
       (snapshot ([raw_position "X" "NFO" 50 (-3000)] ++
                  mkRaw (Some "Q") (Some "NFO") None None None None None
                        (Some (-999)%float) None None None None None ::
                  [raw_position "Y" "NFO" (-25) (-2500)]))
       ["NFO"]) =
  List.filter Positions.is_open
    (Positions.parse_fno_positions
       (snapshot ([raw_position "X" "NFO" 50 (-3000)] ++
                  [raw_position "Y" "NFO" (-25) (-2500)]))
       ["NFO"]).
Proof.
  apply (entry_without_quantity_ignored ["NFO"]
           [raw_position "X" "NFO" 50 (-3000)]
           [raw_position "Y" "NFO" (-25) (-2500)]
           (mkRaw (Some "Q") (Some "NFO") None None None None None
                  (Some (-999)%float) None None None None None)).
  reflexivity.
Defined.

(** ** monitor.py: single polls *)

Lemma poll_positions_none now_IST self tr raw :
  kite_positions (Monitor.kite self) tr = inr raw ->
  open_positions (Monitor.config self) raw = [] ->
  Monitor._poll_positions now_IST (self, tr) =
    (Ok tt,
     (Monitor.set_poll_count (Monitor._poll_count self + 1) self,
      (if (Monitor._poll_count self + 1) mod 6 =? 1
       then [EvLog INFO MsgNoOpenPositions] else []) ++ EvPositions :: tr)).
Proof.
  intros Hk Eo. unfold Monitor._poll_positions.
  rewrite bind_update, !bind_read.
  cbn [Monitor.kite Monitor.config Monitor.set_poll_count].
  rewrite (bind_lift _ _ _ _ _ _
             (open_positions_of_snapshot _
                (Config.exchanges (Monitor.config self)) _ _ Hk)).
  fold (open_positions (Monitor.config self) raw). rewrite Eo.
  rewrite bind_read, when_lift_log. reflexivity.
Qed.

(** X9. A poll that finds no open position on the configured venues only
    counts itself: last P&L, peak loss, exit count and last-exit time stay as
    they were, nothing but the fetch reaches the broker, and the
    "no positions" line is logged on polls 1, 7, 13, ... only. *)
Theorem poll_without_open_positions
  (now_IST : Trace -> Q) (self : Monitor.PositionMonitor) (tr : Trace)
  (raw : RawPositions) :
  kite_positions (Monitor.kite self) tr = inr raw ->
  List.filter Positions.is_open
    (Positions.parse_fno_positions raw
       (Config.exchanges (Monitor.config self))) = [] ->
  Monitor._poll_positions now_IST (self, tr) =
    (Ok tt,
     (Monitor.set_poll_count (Monitor._poll_count self + 1) self,
      (if (Monitor._poll_count self + 1) mod 6 =? 1
       then [EvLog INFO MsgNoOpenPositions] else []) ++ EvPositions :: tr)).
Proof.
  intros Hk Hnone. apply (poll_positions_none now_IST self tr raw Hk).
  unfold open_positions. unfold Positions.parse_fno_positions in Hnone.
  now rewrite <- open_positions_filter.
Qed.

Lemma poll_without_open_positions_witness :
  Monitor._poll_positions (clock_at (36000 # 1))
    (Monitor.init (scripted_kite (inr (snapshot [])) [] (fun _ => inl network_down))
       (config_A 5000 false) 15 30, []) =
  (Ok tt,
   (Monitor.set_poll_count 1
      (Monitor.init (scripted_kite (inr (snapshot [])) [] (fun _ => inl network_down))
         (config_A 5000 false) 15 30),
    [EvLog INFO MsgNoOpenPositions; EvPositions])).
Proof.
  apply (poll_without_open_positions (clock_at (36000 # 1))
           (Monitor.init (scripted_kite (inr (snapshot [])) []
                            (fun _ => inl network_down))
              (config_A 5000 false) 15 30) [] (snapshot []));
    reflexivity.
Defined.

(** X10. A monitor whose configuration came out of [build_config] never
    fails in a poll that gets a snapshot: the threshold is a positive float
    or NaN, never zero, so the division that computes the ratio cannot raise
    and the poll returns normally. *)
Theorem built_config_poll_returns
  (now_IST : Trace -> Q) (cli : Config.CliArgs) (creds : Config.KiteCredentials)
  (built : Config.BuiltConfig) (self : Monitor.PositionMonitor) (tr : Trace)
  (raw : RawPositions) :
  Config.build_config cli creds = inr built ->
  Monitor.config self = Config.core built ->
  kite_positions (Monitor.kite self) tr = inr raw ->
  exists self' evs,
    Monitor._poll_positions now_IST (self, tr) = (Ok tt, (self', evs ++ tr)).
Proof.
  intros Hb Hcfg Hk.
  assert (Hthr : (Config.max_loss (Monitor.config self) =? 0)%float = false).
  { rewrite Hcfg. unfold Config.build_config in Hb.
    destruct (_ || _); [discriminate |].
    destruct (Config.cli_max_loss cli <=? 0)%float eqn:Hm; [discriminate |].
    injection Hb as <-. simpl. now apply float_leb_zero_nonzero. }
  destruct (open_positions (Monitor.config self) raw) as [| p ps] eqn:Eo.
  - rewrite (poll_positions_none now_IST self tr raw Hk Eo).
    eexists _, (_ ++ [EvPositions]). f_equal. f_equal.
    rewrite <- app_assoc. reflexivity.
  - assert (Hne : open_positions (Monitor.config self) raw <> [])
      by (rewrite Eo; discriminate).
    destruct (poll_positions_open now_IST self tr raw _ _ _
                eq_refl eq_refl eq_refl Hk Hne)
      as (o & self' & evs & Hrun & _ & Hok).
    destruct Hok as (-> & _); [rewrite Hthr; apply andb_false_r |].
    exists self', (evs ++ [EvNow (now_IST (EvPositions :: tr)); EvPositions]).
    rewrite Hrun. f_equal. f_equal. rewrite <- app_assoc. reflexivity.
Qed.

Lemma built_config_poll_returns_witness :
  exists self' evs,
    Monitor._poll_positions (clock_at (36000 # 1))
      (Monitor.init kite_A
         {| Config.max_loss := 5000; Config.poll_interval := 10;
            Config.market_close := "15:30";
            Config.exchanges := Config.build_exchanges "nfo, bfo";
            Config.dry_run := false |} 15 30, []) =
    (Ok tt, (self', evs ++ [])).
Proof.
  apply (built_config_poll_returns (clock_at (36000 # 1))
           (sample_cli 5000) sample_credentials
           (Config.mkBuilt
              {| Config.max_loss := 5000; Config.poll_interval := 10;
                 Config.market_close := "15:30";
                 Config.exchanges := Config.build_exchanges "nfo, bfo";
                 Config.dry_run := false |}
              sample_credentials true true 5678)
           _ [] snapshot_A); reflexivity.
Defined.

(** X11. With a threshold of zero (the default of [ExitWaveConfig]) a
    poll whose binary64 aggregate is negative raises ZeroDivisionError after
    the P&L is recorded and before any exit.  The loop treats it as a
    transient failure: it logs the error and the retry warning, and with a
    poll interval the platform accepts as a timeout it waits twice and goes
    on; with a larger interval the first wait raises OverflowError.  In
    neither case is the exit run. *)
Theorem zero_threshold_never_exits
  (now_IST : Trace -> Q) (TIMEOUT_MAX : positive)
  (self : Monitor.PositionMonitor) (tr : Trace) (raw : RawPositions) :
  let positions := open_positions (Monitor.config self) raw in
  let pnl := Positions.calculate_total_pnl positions in
  let interval := Config.poll_interval (Monitor.config self) in
  let zero_division := mkExc "ZeroDivisionError" "float division by zero" in
  let tr1 := EvNow (now_IST (EvPositions :: tr)) :: EvPositions :: tr in
  let warned :=
    EvLog WARNING (MsgWillRetry (interval * 2)) ::
    EvLog ERROR (MsgPollError "float division by zero") :: tr1 in
  Monitor._stop_event self = false ->
  (Config.max_loss (Monitor.config self) =? 0)%float = true ->
  kite_positions (Monitor.kite self) tr = inr raw ->
  (pnl <? 0)%float = true ->
  Monitor._poll_positions now_IST (self, tr) =
    (Raise zero_division, (observed self pnl, tr1)) /\
  (interval <= Z.pos TIMEOUT_MAX ->
     Monitor.poll_tick now_IST TIMEOUT_MAX (self, tr) =
       (Ok Monitor.NextIteration,
        (observed self pnl, EvWait interval :: EvWait interval :: warned))) /\
  (Z.pos TIMEOUT_MAX < interval ->
     Monitor.poll_tick now_IST TIMEOUT_MAX (self, tr) =
       (Raise (wait_overflow interval), (observed self pnl, warned))).
Proof.
  intros positions pnl interval zero_division tr1 warned Hstop Hzero Hk Hneg.
  assert (Hne : positions <> []).
  { intros E. unfold pnl in Hneg. rewrite E in Hneg. cbv in Hneg. discriminate. }
  pose proof (poll_positions_prefix now_IST self tr raw positions pnl
                eq_refl eq_refl Hk Hne) as Hrun.
  rewrite Hneg, Hzero in Hrun.
  change (Monitor._poll_positions now_IST (self, tr) =
          (Raise zero_division, (observed self pnl, tr1))) in Hrun.
  split; [exact Hrun |].
  pose proof (poll_tick_raised now_IST TIMEOUT_MAX _ _ _ _ Hrun Hstop) as Htick.
  cbv zeta in Htick. cbn [Monitor.config observed] in Htick.
  fold interval in Htick.
  change (is_auth_failure zero_division) with false in Htick. cbv iota in Htick.
  split; intros Hint.
  - replace (interval >? Z.pos TIMEOUT_MAX) with false in Htick by lia.
    exact Htick.
  - replace (interval >? Z.pos TIMEOUT_MAX) with true in Htick by lia.
    exact Htick.
Qed.

Lemma zero_threshold_never_exits_witness :
  Monitor.poll_tick (clock_at (36000 # 1)) timeout_max_64 (monitor_A 0 false, []) =
    (Ok Monitor.NextIteration,
     (observed (monitor_A 0 false) (-5500),
      [EvWait 10; EvWait 10; EvLog WARNING (MsgWillRetry 20);
       EvLog ERROR (MsgPollError "float division by zero");
       EvNow (36000 # 1); EvPositions])).
Proof.
  destruct (zero_threshold_never_exits (clock_at (36000 # 1)) timeout_max_64
              (monitor_A 0 false) [] snapshot_A) as (_ & Hwaits & _).
  - reflexivity.
  - reflexivity.
  - reflexivity.
  - reflexivity.
  - apply Hwaits. vm_compute. discriminate.
Defined.

(** The aggregate that decides is the binary64 sum: the P&L values 3031.56,
    5773.89 and -8805.45 add up to 0.0, not to a loss, so against a zero
    threshold nothing is divided and the poll logs its plain line. *)
Example zero_threshold_rounded_sum :
  Monitor._poll_positions (clock_at (36000 # 1))
    (Monitor.init
       (scripted_kite
          (inr (snapshot [raw_position "A" "NFO" 1 3031.56;
                          raw_position "B" "NFO" 1 5773.89;
                          raw_position "C" "NFO" 1 (-8805.45)]))
          [] (fun _ => inl network_down))
       (config_A 0 false) 15 30, []) =
  (Ok tt,
   (observed
      (Monitor.init
         (scripted_kite
            (inr (snapshot [raw_position "A" "NFO" 1 3031.56;
                            raw_position "B" "NFO" 1 5773.89;
                            raw_position "C" "NFO" 1 (-8805.45)]))
            [] (fun _ => inl network_down))
         (config_A 0 false) 15 30) 0,
    [EvLog INFO (MsgNormal 0 3); EvNow (36000 # 1); EvPositions])).
Proof. reflexivity. Qed.

(** ** monitor.py: how the worker ends *)

Lemma monitor_loop_stopped now_IST TIMEOUT_MAX fuel self tr :
  Monitor._stop_event self = true ->
  Monitor._monitor_loop now_IST TIMEOUT_MAX (S fuel) (self, tr) =
    (Ok true,
     (self, session_summary self :: EvLog INFO MsgLoopEnded ::
            EvLog INFO MsgBanner :: tr)).
Proof.
  intros Hstop. unfold Monitor._monitor_loop.
  rewrite bind_lift_log. cbn [Monitor.while_loop].
  rewrite bind_bind, bind_read, Hstop, bind_ret, bind_lift_log.
  unfold Monitor._print_session_summary.
  rewrite bind_bind, bind_read. erewrite bind_lift by reflexivity.
  reflexivity.
Qed.

Lemma monitor_loop_first_pass now_IST TIMEOUT_MAX fuel self tr o st1 :
  Monitor._stop_event self = false ->
  Monitor.loop_body now_IST TIMEOUT_MAX (self, EvLog INFO MsgBanner :: tr) = (o, st1) ->
  match o with
  | Ok Monitor.Break =>
      Monitor._monitor_loop now_IST TIMEOUT_MAX (S fuel) (self, tr) =
        (Ok true,
         (fst st1, session_summary (fst st1) :: EvLog INFO MsgLoopEnded :: snd st1))
  | Raise e =>
      Monitor._monitor_loop now_IST TIMEOUT_MAX (S fuel) (self, tr) = (Raise e, st1)
  | Ok Monitor.NextIteration => True
  end.
Proof.
  intros Hstop E. destruct st1 as [self1 tr1].
  destruct o as [[|] | e]; [exact I | |].
  - unfold Monitor._monitor_loop.
    rewrite bind_lift_log. cbn [Monitor.while_loop].
    rewrite bind_bind, bind_read, Hstop, bind_bind.
    rewrite (bind_ok _ _ _ _ _ E). cbv beta iota.
    rewrite bind_ret, bind_lift_log.
    unfold Monitor._print_session_summary.
    rewrite bind_bind, bind_read. erewrite bind_lift by reflexivity.
    reflexivity.
  - unfold Monitor._monitor_loop.
    rewrite bind_lift_log. cbn [Monitor.while_loop].
    rewrite bind_bind, bind_read, Hstop, bind_bind.
    now rewrite (bind_raise _ _ _ _ _ E).
Qed.

(** X12. Once the clock has reached the market-close time of the day, the
    worker ends on its first pass: it reads the clock once, fetches nothing,
    places nothing, leaves the session untouched and prints the summary,
    whatever the positions are. *)
Theorem loop_stops_at_market_close
  (now_IST : Trace -> Q) (TIMEOUT_MAX : positive) (fuel : nat)
  (self : Monitor.PositionMonitor) (tr : Trace) :
  let tr0 := EvLog INFO MsgBanner :: tr in
  let t := now_IST tr0 in
  Monitor._stop_event self = false ->
  valid_close self ->
  (Monitor.close_time t (Monitor._close_hour self) (Monitor._close_minute self)
   <= t)%Q ->
  Monitor._monitor_loop now_IST TIMEOUT_MAX (S fuel) (self, tr) =
    (Ok true,
     (self,
      session_summary self :: EvLog INFO MsgLoopEnded ::
      EvLog INFO MsgMarketClosed :: EvNow t :: tr0)).
Proof.
  intros tr0 t Hstop Hvalid Hclosed.
  assert (Hbody : Monitor.loop_body now_IST TIMEOUT_MAX (self, tr0) =
                  (Ok Monitor.Break,
                   (self, EvLog INFO MsgMarketClosed :: EvNow t :: tr0))).
  { unfold Monitor.loop_body.
    rewrite (bind_is_market_open _ _ _ _ Hvalid). fold t.
    replace (Monitor.Qltb t _) with false; [reflexivity |].
    symmetry. destruct (Monitor.Qltb t _) eqn:E; [| reflexivity].
    apply Qltb_lt in E. exfalso. exact (Qlt_not_le _ _ E Hclosed). }
  exact (monitor_loop_first_pass now_IST TIMEOUT_MAX fuel self tr _ _ Hstop Hbody).
Qed.

Lemma loop_stops_at_market_close_witness :
  Monitor._monitor_loop (clock_at (55800 # 1)) timeout_max_64 1
    (monitor_A 5000 false, []) =
    (Ok true,
     (monitor_A 5000 false,
      [session_summary (monitor_A 5000 false); EvLog INFO MsgLoopEnded;
       EvLog INFO MsgMarketClosed; EvNow (55800 # 1); EvLog INFO MsgBanner])).
Proof.
  apply (loop_stops_at_market_close (clock_at (55800 # 1)) timeout_max_64 0
           (monitor_A 5000 false) []).
  - reflexivity.
  - unfold valid_close. simpl. lia.
  - vm_compute. discriminate.
Defined.

(** X13. A market-close hour outside 0..23 or minute outside 0..59 is not
    rejected when the monitor is built; the worker then dies on its first
    pass, before any fetch and without printing the session summary: of a
    ValueError when hour and minute both fit a C [int], of an OverflowError
    when one of them does not. *)
Theorem invalid_close_time_kills_worker
  (now_IST : Trace -> Q) (TIMEOUT_MAX : positive) (fuel : nat)
  (self : Monitor.PositionMonitor) (tr : Trace) :
  let tr0 := EvLog INFO MsgBanner :: tr in
  Monitor._stop_event self = false ->
  ~ valid_close self ->
  exists e,
    exc_type e =
      (if Monitor.fits_c_int (Monitor._close_hour self) &&
          Monitor.fits_c_int (Monitor._close_minute self)
       then "ValueError" else "OverflowError") /\
    Monitor._monitor_loop now_IST TIMEOUT_MAX (S fuel) (self, tr) =
      (Raise e, (self, EvNow (now_IST tr0) :: tr0)).
Proof.
  intros tr0 Hstop Hinvalid.
  destruct (is_market_open_cases now_IST self tr0) as (o & E & _ & Hraise).
  destruct (Hraise Hinvalid) as (e & -> & Htype).
  exists e. split; [exact Htype |].
  assert (Hbody : Monitor.loop_body now_IST TIMEOUT_MAX (self, tr0) =
                  (Raise e, (self, EvNow (now_IST tr0) :: tr0))).
  { unfold Monitor.loop_body. now rewrite (bind_raise _ _ _ _ _ E). }
  exact (monitor_loop_first_pass now_IST TIMEOUT_MAX fuel self tr _ _ Hstop Hbody).
Qed.

Lemma invalid_close_time_kills_worker_witness :
  (exists e,
     exc_type e = "ValueError" /\
     Monitor._monitor_loop (clock_at (36000 # 1)) timeout_max_64 3
       (Monitor.init kite_A (config_A 5000 false) 24 0, []) =
       (Raise e,
        (Monitor.init kite_A (config_A 5000 false) 24 0,
         [EvNow (36000 # 1); EvLog INFO MsgBanner]))) /\
  (exists e,
     exc_type e = "OverflowError" /\
     Monitor._monitor_loop (clock_at (36000 # 1)) timeout_max_64 3
       (Monitor.init kite_A (config_A 5000 false) 25 2147483648, []) =
       (Raise e,
        (Monitor.init kite_A (config_A 5000 false) 25 2147483648,
         [EvNow (36000 # 1); EvLog INFO MsgBanner]))).
Proof.
  split.
  - apply (invalid_close_time_kills_worker (clock_at (36000 # 1)) timeout_max_64 2
             (Monitor.init kite_A (config_A 5000 false) 24 0) []).
    + reflexivity.
    + unfold valid_close. simpl. lia.
  - apply (invalid_close_time_kills_worker (clock_at (36000 # 1)) timeout_max_64 2
             (Monitor.init kite_A (config_A 5000 false) 25 2147483648) []).
    + reflexivity.
    + unfold valid_close. simpl. lia.
Defined.

(** X14. [stop()] sets the stop event and joins the thread, with a timeout
    of 30, only when a thread exists; a worker entered after that logs its
    banner, finds the event set at the first test of the loop and leaves at
    once: no clock read, no fetch, no order, and after the banner only the
    loop-ended line and the session summary. *)
Theorem stop_ends_the_worker
  (now_IST : Trace -> Q) (TIMEOUT_MAX : positive) (fuel : nat)
  (self : Monitor.PositionMonitor) (tr : Trace) :
  let stopped := Monitor.set_stop_event true self in
  let joined :=
    match Monitor._thread self with
    | Some _ => [EvLog INFO MsgMonitorStopped; EvThreadJoin (Some 30)]
    | None => []
    end ++ tr in
  Monitor.stop (self, tr) = (Ok tt, (stopped, joined)) /\
  Monitor._monitor_loop now_IST TIMEOUT_MAX (S fuel) (stopped, joined) =
    (Ok true,
     (stopped,
      session_summary stopped :: EvLog INFO MsgLoopEnded ::
      EvLog INFO MsgBanner :: joined)).
Proof.
  intros stopped joined. split.
  - unfold Monitor.stop. rewrite bind_update, bind_read. subst joined.
    cbn [Monitor._thread Monitor.set_stop_event].
    destruct (Monitor._thread self); reflexivity.
  - now apply monitor_loop_stopped.
Qed.

(** ** monitor.py: what a whole run keeps *)

(** X15. Over a whole run of the worker, however it ends, the poll count
    grows by exactly the number of position fetches and the exit count by
    exactly the number of exit announcements. *)
Theorem monitor_loop_counts
  (now_IST : Trace -> Q) (TIMEOUT_MAX : positive) (fuel : nat)
  (self : Monitor.PositionMonitor) (tr : Trace) :
  exists o self' evs,
    Monitor._monitor_loop now_IST TIMEOUT_MAX fuel (self, tr) =
      (o, (self', evs ++ tr)) /\
    Monitor._poll_count self' =
      Monitor._poll_count self + Z.of_nat (count_events is_positions evs) /\
    Monitor._exit_count self' =
      Monitor._exit_count self + Z.of_nat (count_events is_exit_announcement evs).
Proof.
  destruct (monitor_loop_advance now_IST TIMEOUT_MAX fuel self tr)
    as (o & self' & evs & E & _ & _ & Hp & He & _).
  exists o, self', evs. repeat split; assumption.
Qed.

(** X16. Over a whole run the peak loss never rises (it stays the float
    it was or becomes a strictly lower one), and broker, configuration,
    close time, cooldown length and thread handle are never changed. *)
Theorem monitor_loop_peak_loss_never_rises
  (now_IST : Trace -> Q) (TIMEOUT_MAX : positive) (fuel : nat)
  (self : Monitor.PositionMonitor) (tr : Trace) :
  exists o self' evs,
    Monitor._monitor_loop now_IST TIMEOUT_MAX fuel (self, tr) =
      (o, (self', evs ++ tr)) /\
    not_above (Monitor._peak_loss self') (Monitor._peak_loss self) /\
    same_setup self self'.
Proof.
  destruct (monitor_loop_advance now_IST TIMEOUT_MAX fuel self tr)
    as (o & self' & evs & E & Hsetup & Hpeak & _).
  exists o, self', evs. split; [exact E | split; assumption].
Qed.

(** X17. Under a dry-run configuration a whole run of the worker, breaches
    included, never places an order, never reads an order history and never
    sleeps. *)
Theorem monitor_loop_dry_run_places_no_order
  (now_IST : Trace -> Q) (TIMEOUT_MAX : positive) (fuel : nat)
  (self : Monitor.PositionMonitor) (tr : Trace) :
  Config.dry_run (Monitor.config self) = true ->
  exists o self' evs,
    Monitor._monitor_loop now_IST TIMEOUT_MAX fuel (self, tr) =
      (o, (self', evs ++ tr)) /\
    count_events is_place_order evs = 0%nat /\
    count_events is_order_history evs = 0%nat /\
    sleep_total evs = 0.
Proof.
  intros Hdry.
  destruct (monitor_loop_advance now_IST TIMEOUT_MAX fuel self tr)
    as (o & self' & evs & E & _ & _ & _ & _ & _ & _ & _ & Hquiet).
  destruct (Hquiet Hdry) as [Hcalls Hsleep].
  rewrite count_order_call in Hcalls.
  exists o, self', evs. repeat split; try assumption; lia.
Qed.

Lemma monitor_loop_dry_run_places_no_order_witness :
  exists o self' evs,
    Monitor._monitor_loop (clock_at (36000 # 1)) timeout_max_64 4
      (monitor_A 5000 true, []) = (o, (self', evs ++ [])) /\
    count_events is_place_order evs = 0%nat /\
    count_events is_order_history evs = 0%nat /\
    sleep_total evs = 0.
Proof.
  apply (monitor_loop_dry_run_places_no_order (clock_at (36000 # 1))
           timeout_max_64 4 (monitor_A 5000 true) []).
  reflexivity.
Defined.

(** X18. Over a whole run the results history is only appended to, the
    exited-symbols set only grows, and a set stop event stays set. *)
Theorem monitor_loop_history_only_grows
  (now_IST : Trace -> Q) (TIMEOUT_MAX : positive) (fuel : nat)
  (self : Monitor.PositionMonitor) (tr : Trace) :
  exists o self' evs,
    Monitor._monitor_loop now_IST TIMEOUT_MAX fuel (self, tr) =
      (o, (self', evs ++ tr)) /\
    (exists more,
       Monitor._all_exit_results self' = Monitor._all_exit_results self ++ more) /\
    Monitor._exited_symbols self ⊆ Monitor._exited_symbols self' /\
    (Monitor._stop_event self = true -> Monitor._stop_event self' = true).
Proof.
  destruct (monitor_loop_advance now_IST TIMEOUT_MAX fuel self tr)
    as (o & self' & evs & E & _ & _ & _ & _ & Hmore & Hsym & Hstop & _).
  exists o, self', evs. repeat split; assumption.
Qed.

(** ** monitor.py: the exit event and its repetition *)

(** X19. One exit event counts one more exit, appends one result per
    position in order to the history, adds exactly the symbols of its
    positions to the exited set, stamps the last-exit time, and leaves poll
    count, last P&L and peak loss alone; in a dry run it calls no order
    interface. *)
Theorem trigger_exit_bookkeeping
  (now_IST : Trace -> Q) (positions : list Positions.FnOPosition)
  (total_pnl : float) (self : Monitor.PositionMonitor) (tr : Trace) :
  exists self' results evs,
    Monitor._trigger_exit now_IST positions total_pnl (self, tr) =
      (Ok tt, (self', evs ++ tr)) /\
    Monitor._exit_count self' = Monitor._exit_count self + 1 /\
    Monitor._all_exit_results self' = Monitor._all_exit_results self ++ results /\
    Forall2 result_for positions results /\
    (forall x : string,
       x ∈ Monitor._exited_symbols self' <->
       x ∈ Monitor._exited_symbols self \/
       In x (map Positions.tradingsymbol positions)) /\
    (exists t, Monitor._last_exit_time self' = Some t) /\
    Monitor._poll_count self' = Monitor._poll_count self /\
    Monitor._last_pnl self' = Monitor._last_pnl self /\
    Monitor._peak_loss self' = Monitor._peak_loss self /\
    (Config.dry_run (Monitor.config self) = true ->
     count_events is_order_call evs = 0%nat).
Proof.
  destruct (trigger_exit_outcome now_IST positions total_pnl self tr)
    as (results & t & evs & E & Hres & (_ & _ & Hev)).
  exists (after_exit self positions results t), results, evs.
  split; [exact E |]. cbn.
  split; [reflexivity |]. split; [reflexivity |]. split; [exact Hres |].
  split; [apply elem_of_record_symbols |].
  split; [eauto |].
  split; [reflexivity |]. split; [reflexivity |]. split; [reflexivity |].
  intros Hd. rewrite Hd in Hev. apply Hev.
Qed.




(** ** monitor.py: start, run, has_exited *)

(** X21. After [start()] on a monitor that is not running, whatever the
    worker then does, [has_exited] is true exactly when an exit was
    announced during the run, the poll count is the number of position
    fetches, and the peak loss is never positive. *)
Theorem has_exited_iff_exit_announced
  (now_IST : Trace -> Q) (TIMEOUT_MAX : positive) (fuel : nat)
  (self : Monitor.PositionMonitor) (tr : Trace) :
  Monitor.is_running self = false ->
  let started := snd (Monitor.start (self, tr)) in
  exists o self' evs,
    Monitor._monitor_loop now_IST TIMEOUT_MAX fuel started =
      (o, (self', evs ++ snd started)) /\
    (Monitor.has_exited self' = true <->
     (0 < count_events is_exit_announcement evs)%nat) /\
    Monitor._poll_count self' = Z.of_nat (count_events is_positions evs) /\
    (Monitor._peak_loss self' <=? 0)%float = true.
Proof.
  intros Hrun started.
  assert (Hstart : started =
            (fresh_session self,
             EvLog INFO MsgMonitorStarted :: EvThreadStart "ExitWave-Monitor" :: tr)).
  { unfold started, Monitor.start, bind at 1, Monitor.read. cbn [fst snd].
    rewrite Hrun. reflexivity. }
  rewrite Hstart. cbn [snd].
  destruct (monitor_loop_advance now_IST TIMEOUT_MAX fuel (fresh_session self)
              (EvLog INFO MsgMonitorStarted :: EvThreadStart "ExitWave-Monitor" :: tr))
    as (o & self' & evs & E & _ & Hpeak & Hp & He & _).
  exists o, self', evs. split; [exact E |].
  cbn in Hp, He, Hpeak. split; [| split; [lia |]].
  2: { destruct Hpeak as [-> | Hlt]; [reflexivity | now apply float_ltb_leb]. }
  unfold Monitor.has_exited. rewrite He.
  destruct (Z.gtb_spec (0 + Z.of_nat (count_events is_exit_announcement evs)) 0)
    as [Hpos | Hzero];
    split; intros Hx; try reflexivity; try discriminate; lia.
Qed.

Lemma has_exited_iff_exit_announced_witness :
  exists o self' evs,
    Monitor._monitor_loop (clock_at (36000 # 1)) timeout_max_64 2
      (snd (Monitor.start (busy_monitor false, []))) =
      (o, (self', evs ++ snd (snd (Monitor.start (busy_monitor false, []))))) /\
    (Monitor.has_exited self' = true <->
     (0 < count_events is_exit_announcement evs)%nat) /\
    Monitor._poll_count self' = Z.of_nat (count_events is_positions evs) /\
    (Monitor._peak_loss self' <=? 0)%float = true.
Proof.
  apply (has_exited_iff_exit_announced (clock_at (36000 # 1)) timeout_max_64 2
           (busy_monitor false) []).
  reflexivity.
Defined.

(** ** auth.py *)

(** X22. With [force_login] set, or with an empty cached token, the profile
    endpoint is never called: [authenticate] logs one start line and runs
    the manual flow when [manual_login] is set and the browser flow
    otherwise. *)
Theorem authenticate_skips_cached_token
  (Kite : Type) (connect : string -> string -> Kite)
  (profile : Auth.AuthTrace -> string -> string -> PyException + Auth.Profile)
  (manual_flow : string -> string -> string -> M Auth.AuthTrace Kite)
  (login_flow : string -> string -> Z -> string -> M Auth.AuthTrace Kite)
  (api_key api_secret access_token : string) (force_login : bool)
  (redirect_port : Z) (project_root : string) (manual_login : bool)
  (tr : Auth.AuthTrace) :
  force_login = true \/ access_token = "" ->
  Auth.authenticate Kite connect profile manual_flow login_flow
    api_key api_secret access_token force_login redirect_port project_root
    manual_login tr =
  chosen_flow manual_flow login_flow api_key api_secret redirect_port
    project_root manual_login tr.
Proof.
  intros H. unfold Auth.authenticate, chosen_flow.
  assert (E : (if negb force_login
               then Auth._try_cached_token Kite connect profile api_key access_token
               else ret None) tr = (Ok None, tr)).
  { destruct H as [-> | ->]; [reflexivity |].
    destruct force_login; reflexivity. }
  rewrite (bind_ok _ _ _ _ _ E). now destruct manual_login.
Qed.

Lemma authenticate_skips_cached_token_witness :
  Auth.authenticate string (fun k t => t) profile_ok manual_stub login_stub
    "key" "secret" "cached" true 5678 "/app" true [] =
  (Ok "manual", [Auth.AuLog Auth.MsgStartingManual]).
Proof.
  apply (authenticate_skips_cached_token string (fun k t => t) profile_ok
           manual_stub login_stub "key" "secret" "cached" true 5678 "/app" true []).
  now left.
Defined.

(** X23. Without [force_login] a non-empty cached token is checked with one
    profile call.  When the profile comes back with both a user name and a
    user id, the client built from the cached token is returned and no login
    flow runs; when the call raises or either key is missing, the token
    counts as invalid and the chosen login flow runs. *)
Theorem authenticate_checks_cached_token
  (Kite : Type) (connect : string -> string -> Kite)
  (profile : Auth.AuthTrace -> string -> string -> PyException + Auth.Profile)
  (manual_flow : string -> string -> string -> M Auth.AuthTrace Kite)
  (login_flow : string -> string -> Z -> string -> M Auth.AuthTrace Kite)
  (api_key api_secret access_token : string)
  (redirect_port : Z) (project_root : string) (manual_login : bool)
  (tr : Auth.AuthTrace) :
  access_token <> "" ->
  let tr1 := Auth.AuProfile api_key access_token ::
             Auth.AuLog Auth.MsgCheckingCached :: tr in
  let run := Auth.authenticate Kite connect profile manual_flow login_flow
               api_key api_secret access_token false redirect_port project_root
               manual_login tr in
  match profile (Auth.AuLog Auth.MsgCheckingCached :: tr) api_key access_token with
  | inr (Auth.mkProfile (Some name) (Some id)) =>
      run = (Ok (connect api_key access_token),
             Auth.AuLog (Auth.MsgAuthenticatedAs name id) :: tr1)
  | _ =>
      run = chosen_flow manual_flow login_flow api_key api_secret redirect_port
              project_root manual_login
              (Auth.AuLog Auth.MsgCachedInvalid :: tr1)
  end.
Proof.
  intros Htoken tr1 run. subst run tr1.
  unfold Auth.authenticate, chosen_flow. simpl negb. cbv iota.
  unfold Auth._try_cached_token.
  assert (Ht : PyStr.truthy access_token = true)
    by (destruct access_token; [congruence | reflexivity]).
  rewrite Ht. simpl negb. cbv iota.
  cbv [of_sum Auth.getitem Auth.user_name Auth.user_id bind ret raise
       Auth.note try_ Auth.call_profile].
  destruct (profile _ api_key access_token) as [e | [[name |] [id |]]];
    try reflexivity; now destruct manual_login.
Qed.

Lemma authenticate_checks_cached_token_witness :
  Auth.authenticate string (fun k t => t) profile_ok manual_stub login_stub
    "key" "secret" "cached" false 5678 "/app" false [] =
    (Ok "cached",
     [Auth.AuLog (Auth.MsgAuthenticatedAs "Trader" "AB1234");
      Auth.AuProfile "key" "cached"; Auth.AuLog Auth.MsgCheckingCached]) /\
  Auth.authenticate string (fun k t => t) profile_nameless manual_stub login_stub
    "key" "secret" "cached" false 5678 "/app" false [] =
    (Ok "browser",
     [Auth.AuLog Auth.MsgStartingLogin; Auth.AuLog Auth.MsgCachedInvalid;
      Auth.AuProfile "key" "cached"; Auth.AuLog Auth.MsgCheckingCached]).
Proof.
  split.
  - apply (authenticate_checks_cached_token string (fun k t => t) profile_ok
             manual_stub login_stub "key" "secret" "cached" 5678 "/app" false []).
    discriminate.
  - apply (authenticate_checks_cached_token string (fun k t => t) profile_nameless
             manual_stub login_stub "key" "secret" "cached" 5678 "/app" false []).
    discriminate.
Defined.

(** X24. A command line with [--manual-login], once accepted by
    [build_config], always leads [authenticate] straight into the manual
    flow: the cached token is not checked, whatever it is. *)
Theorem manual_login_never_uses_cached_token
  (Kite : Type) (connect : string -> string -> Kite)
  (profile : Auth.AuthTrace -> string -> string -> PyException + Auth.Profile)
  (manual_flow : string -> string -> string -> M Auth.AuthTrace Kite)
  (login_flow : string -> string -> Z -> string -> M Auth.AuthTrace Kite)
  (cli : Config.CliArgs) (creds : Config.KiteCredentials)
  (built : Config.BuiltConfig) (project_root : string) (tr : Auth.AuthTrace) :
  Config.build_config cli creds = inr built ->
  Config.cli_manual_login cli = true ->
  Auth.authenticate Kite connect profile manual_flow login_flow
    (Config.api_key (Config.credentials built))
    (Config.api_secret (Config.credentials built))
    (Config.access_token (Config.credentials built))
    (Config.force_login built) (Config.redirect_port built) project_root
    (Config.manual_login built) tr =
  manual_flow (Config.api_key creds) (Config.api_secret creds) project_root
    (Auth.AuLog Auth.MsgStartingManual :: tr).
Proof.
  intros Hb Hmanual. unfold Config.build_config in Hb.
  destruct (_ || _); [discriminate |].
  destruct (_ <=? 0)%float; [discriminate |].
  injection Hb as <-. cbn. rewrite Hmanual, orb_true_r.
  reflexivity.
Qed.

Lemma manual_login_never_uses_cached_token_witness :
  Auth.authenticate string (fun k t => t) profile_ok manual_stub login_stub
    "key" "secret" "" true 5678 "/app" true [] =
  (Ok "manual", [Auth.AuLog Auth.MsgStartingManual]).
Proof.
  apply (manual_login_never_uses_cached_token string (fun k t => t) profile_ok
           manual_stub login_stub (sample_cli 5000) sample_credentials
           (Config.mkBuilt
              {| Config.max_loss := 5000; Config.poll_interval := 10;
                 Config.market_close := "15:30";
                 Config.exchanges := Config.build_exchanges "nfo, bfo";
                 Config.dry_run := false |}
              sample_credentials true true 5678) "/app" []);
    reflexivity.
Defined.
